(** * ClawDug: score ledger and epoch settlement

    A shallow embedding of [ClawDug.sol] (contracts [DugToken],
    [AgentRegistry] and [ClawDugGame]) and the properties of its score
    submission, leaderboard and epoch settlement paths.

    Conventions.
    - [uint256], [address] and [bytes32] values are binary naturals [N].
      Solidity 0.8 arithmetic is checked: an addition or multiplication
      whose result does not fit in 256 bits reverts with a panic, which
      [checked_add] and [checked_mul] write out.
    - A transaction either returns the new world [Ok w'] or reverts
      [Err f]; a reverted transaction leaves every contract's storage as it
      was, which [run] makes explicit.
    - Storage mappings are [gmap]s read with the type's zero value as
      default; the fixed-size arrays [ScoreEntry[LB_SIZE]] are lists of
      length [LB_SIZE] read and written by index.
    - The base contracts [ERC20], [ERC20Burnable] and [Ownable] are
      OpenZeppelin's (version 5, as the [Ownable(msg.sender)] constructors
      show); the functions the game reaches are written out with their
      checks and custom errors. Hashing and ECDSA recovery are parameters
      ([SignatureScheme]).
    - [nonReentrant] is not modelled: the token and the registry never call
      back into the game, so the guard cannot fire. *)

From Stdlib Require Import NArith List String Lia Bool Sorted.
From Stdlib Require Strings.Byte.
From stdpp Require Import base option numbers list gmap.

Local Open Scope N_scope.

Abbreviation address := N (only parsing).
Abbreviation uint256 := N (only parsing).
Abbreviation bytes32 := N (only parsing).

(** ** Reverts *)

(** [Revert reason] is a failed [require(cond, reason)]; [Panic] is the
    arithmetic-overflow panic of checked arithmetic; the others are the custom
    errors of the OpenZeppelin v5 base contracts the source imports. *)
Inductive Failure : Type :=
| Revert (reason : string)
| Panic
| ERC20InvalidSender
| ERC20InvalidReceiver
| ERC20InsufficientBalance
| ERC20InsufficientAllowance
| ERC20InvalidApprover
| ERC20InvalidSpender
| OwnableUnauthorizedAccount
| OwnableInvalidOwner
| ECDSAInvalidSignature.

Inductive result (A : Type) : Type :=
| Ok (a : A)
| Err (f : Failure).
Arguments Ok {A} a.
Arguments Err {A} f.

Definition bind {A B : Type} (r : result A) (k : A -> result B) : result B :=
  match r with
  | Ok a => k a
  | Err f => Err f
  end.

Notation "'do' x <- e ; k" := (bind e (fun x => k))
  (at level 10, x name, e at level 100, k at level 200).

Definition require (cond : bool) (reason : string) : result unit :=
  if cond then Ok tt else Err (Revert reason).

(** The failure names the specification uses, as the revert reasons of the
    source. *)
Definition ReplayedSession  : Failure := Revert "Game: session already used".
Definition ExpiredSignature : Failure := Revert "Game: signature expired".
Definition InvalidSignature : Failure := Revert "Game: invalid signature".
Definition EpochNotEnded    : Failure := Revert "Game: epoch not ended".
Definition SupplyExceeded   : Failure := Revert "DUG: max supply exceeded".
Definition CallerNotGame    : Failure := Revert "DUG: caller is not game".

(** ** Checked 256-bit arithmetic *)

Definition MAX_UINT256 : N := Eval vm_compute in 2 ^ 256 - 1.

Definition checked_add (a b : uint256) : result uint256 :=
  if a + b <=? MAX_UINT256 then Ok (a + b) else Err Panic.

Definition checked_mul (a b : uint256) : result uint256 :=
  if a * b <=? MAX_UINT256 then Ok (a * b) else Err Panic.

(** ** $DUG token *)

Module DugToken.

Definition MAX_SUPPLY : N := Eval vm_compute in 100000000 * 10 ^ 18.

Record state : Type := mk {
  totalSupply  : uint256;
  balances     : gmap N N;            (* address => uint256 *)
  allowances   : gmap (N * N) N;      (* owner => spender => uint256 *)
  gameContract : address;
  owner        : address
}.

(** State of a freshly deployed token: [constructor() ERC20(..) Ownable(msg.sender)]. *)
Definition constructor (sender : address) : result state :=
  if sender =? 0 then Err OwnableInvalidOwner
  else Ok (mk 0 ∅ ∅ 0 sender).

Definition balanceOf (t : state) (a : address) : uint256 :=
  default 0 (balances t !! a).

Definition allowance (t : state) (o s : address) : uint256 :=
  default 0 (allowances t !! (o, s)).

Definition setGameContract (sender : address) (t : state) (_game : address)
  : result state :=
  if negb (sender =? owner t) then Err OwnableUnauthorizedAccount
  else Ok (mk (totalSupply t) (balances t) (allowances t) _game (owner t)).

(** ERC20 [_mint]: the receiver must not be the zero address; the supply
    is increased with an overflow check; the receiver's balance cannot
    overflow because it is bounded by the supply. *)
Definition _mint (t : state) (to : address) (amount : uint256) : result state :=
  if to =? 0 then Err ERC20InvalidReceiver
  else
    do supply <- checked_add (totalSupply t) amount;
    Ok (mk supply (<[to := balanceOf t to + amount]> (balances t))
           (allowances t) (gameContract t) (owner t)).

(** [function mint(address to, uint256 amount) external onlyGame] *)
Definition mint (sender : address) (t : state) (to : address) (amount : uint256)
  : result state :=
  do _ <- require (sender =? gameContract t) "DUG: caller is not game";
  do sum <- checked_add (totalSupply t) amount;
  do _ <- require (sum <=? MAX_SUPPLY) "DUG: max supply exceeded";
  _mint t to amount.

(** ERC20Burnable [burn(value)]: burns from the caller. *)
Definition burn (sender : address) (t : state) (value : uint256) : result state :=
  if sender =? 0 then Err ERC20InvalidSender
  else if balanceOf t sender <? value then Err ERC20InsufficientBalance
  else Ok (mk (totalSupply t - value)
              (<[sender := balanceOf t sender - value]> (balances t))
              (allowances t) (gameContract t) (owner t)).

(** ERC20 [approve(spender, value)] called by [sender]. *)
Definition approve (sender : address) (t : state) (spender : address) (value : uint256)
  : result state :=
  if sender =? 0 then Err ERC20InvalidApprover
  else if spender =? 0 then Err ERC20InvalidSpender
  else Ok (mk (totalSupply t) (balances t)
              (<[(sender, spender) := value]> (allowances t))
              (gameContract t) (owner t)).

(** ERC20 [_transfer]. *)
Definition _transfer (t : state) (from to : address) (value : uint256) : result state :=
  if from =? 0 then Err ERC20InvalidSender
  else if to =? 0 then Err ERC20InvalidReceiver
  else if balanceOf t from <? value then Err ERC20InsufficientBalance
  else
    let b1 := <[from := balanceOf t from - value]> (balances t) in
    let b2 := <[to := default 0 (b1 !! to) + value]> b1 in
    Ok (mk (totalSupply t) b2 (allowances t) (gameContract t) (owner t)).

Definition transfer (sender : address) (t : state) (to : address) (value : uint256)
  : result state :=
  _transfer t sender to value.

(** ERC20 [transferFrom(from, to, value)] called by [spender]: the
    allowance is spent (an infinite allowance is left as it is), then the
    tokens move. *)
Definition transferFrom (spender : address) (t : state) (from to : address)
    (value : uint256) : result state :=
  let current := allowance t from spender in
  do t1 <-
    (if current <? MAX_UINT256 then
       if current <? value then Err ERC20InsufficientAllowance
       else if from =? 0 then Err ERC20InvalidApprover
       else if spender =? 0 then Err ERC20InvalidSpender
       else Ok (mk (totalSupply t) (balances t)
                   (<[(from, spender) := current - value]> (allowances t))
                   (gameContract t) (owner t))
     else Ok t);
  _transfer t1 from to value.

End DugToken.

(** ** Agent registry *)

Module AgentRegistry.

Record AgentProfile : Type := mkProfile {
  agentId      : bytes32;
  name         : string;
  wallet       : address;
  isAgent      : bool;
  gamesPlayed  : uint256;
  totalScore   : uint256;
  bestScore    : uint256;
  registeredAt : uint256
}.

(** The value a mapping returns for a key never written. *)
Definition zeroProfile : AgentProfile :=
  mkProfile 0 EmptyString 0 false 0 0 0 0.

Record state : Type := mk {
  profiles        : gmap N AgentProfile;   (* address => AgentProfile *)
  agentIdToWallet : gmap N N;              (* bytes32 => address *)
  agentList       : list address;
  owner           : address
}.

Definition constructor (sender : address) : result state :=
  if sender =? 0 then Err OwnableInvalidOwner
  else Ok (mk ∅ ∅ [] sender).

Definition getProfile (r : state) (w : address) : AgentProfile :=
  default zeroProfile (profiles r !! w).

Definition register (sender : address) (now : uint256) (r : state)
    (agentId_ : bytes32) (name_ : string) (isAgent_ : bool) : result state :=
  do _ <- require (registeredAt (getProfile r sender) =? 0)
                  "Registry: already registered";
  do ids <-
    (if isAgent_ then
       do _ <- require (default 0 (agentIdToWallet r !! agentId_) =? 0)
                       "Registry: agentId taken";
       Ok (<[agentId_ := sender]> (agentIdToWallet r))
     else Ok (agentIdToWallet r));
  Ok (mk (<[sender := mkProfile agentId_ name_ sender isAgent_ 0 0 0 now]> (profiles r))
         ids (agentList r ++ [sender]) (owner r)).

(** [function recordGame(address player, uint256 score) external onlyOwner] *)
Definition recordGame (sender : address) (r : state) (player : address)
    (score : uint256) : result state :=
  if negb (sender =? owner r) then Err OwnableUnauthorizedAccount
  else
    let p := getProfile r player in
    do games <- checked_add (gamesPlayed p) 1;
    do total <- checked_add (totalScore p) score;
    let best := if bestScore p <? score then score else bestScore p in
    Ok (mk (<[player := mkProfile (agentId p) (name p) (wallet p) (isAgent p)
                                   games total best (registeredAt p)]> (profiles r))
           (agentIdToWallet r) (agentList r) (owner r)).

(** Ownable [transferOwnership(newOwner)]. *)
Definition transferOwnership (sender : address) (r : state) (newOwner : address)
  : result state :=
  if negb (sender =? owner r) then Err OwnableUnauthorizedAccount
  else if newOwner =? 0 then Err OwnableInvalidOwner
  else Ok (mk (profiles r) (agentIdToWallet r) (agentList r) newOwner).

End AgentRegistry.

(** ** Signature scheme

    The hash of the packed payload, the Ethereum signed-message prefix and
    ECDSA recovery are cryptographic primitives of the platform and of
    OpenZeppelin's [ECDSA] and [MessageHashUtils]; the game is parametric in
    them. [recover] reverts on a malformed signature. *)
Class SignatureScheme : Type := {
  keccak256_packed :
    address -> uint256 -> uint256 -> uint256 -> bytes32 -> uint256 -> uint256 -> bytes32;
  toEthSignedMessageHash : bytes32 -> bytes32;
  recover : bytes32 -> list Byte.byte -> result address
}.

(** ** Main game contract *)

Module ClawDugGame.

(** *** Economics *)
Definition PRIZE_POOL_BPS : N := 7000.
Definition BURN_BPS       : N := 1000.
Definition TREASURY_BPS   : N := 2000.
Definition BPS_DENOM      : N := 10000.

Definition REWARD_PER_KILL  : N := Eval vm_compute in 2 * 10 ^ 18.
Definition REWARD_PER_ROUND : N := Eval vm_compute in 10 * 10 ^ 18.
Definition REWARD_MILESTONE : N := Eval vm_compute in 50 * 10 ^ 18.

Definition LB_SIZE : N := 20.

Record ScoreEntry : Type := mkEntry {
  player    : address;
  score     : uint256;
  round     : uint256;
  kills     : uint256;
  isAgent   : bool;
  timestamp : uint256;
  sessionId : bytes32
}.

Definition zeroEntry : ScoreEntry := mkEntry 0 0 0 0 false 0 0.

Record Epoch : Type := mkEpoch {
  id             : uint256;
  startTime      : uint256;
  endTime        : uint256;
  prizePool      : uint256;
  burnAmount     : uint256;
  treasuryAmount : uint256;
  settled        : bool;
  humanWinner    : address;
  agentWinner    : address;
  humanTopScore  : uint256;
  agentTopScore  : uint256
}.

Definition zeroEpoch : Epoch := mkEpoch 0 0 0 0 0 0 false 0 0 0 0.

Inductive Event : Type :=
| ScoreSubmitted (player score round kills : uint256) (isAgent : bool)
                 (epochId : uint256) (sessionId : bytes32)
| LeaderboardUpdated (isAgent : bool) (rank : nat) (player : address) (score : uint256)
| EpochSettled (epochId : uint256) (humanWinner : address) (humanPrize : uint256)
               (agentWinner : address) (agentPrize : uint256)
| RewardMinted (player : address) (amount : uint256) (reason : string)
| EpochStarted (epochId startTime endTime : uint256).

(** Storage of the game contract. The [dugToken] and [registry] references
    are the token and the registry of the [World] below. *)
Record state : Type := mk {
  scoreSigner      : address;
  humanEntryFee    : uint256;
  agentEntryFee    : uint256;
  humanLeaderboard : list ScoreEntry;      (* ScoreEntry[LB_SIZE] *)
  agentLeaderboard : list ScoreEntry;      (* ScoreEntry[LB_SIZE] *)
  humanLBCount     : uint256;
  agentLBCount     : uint256;
  epochs           : gmap N Epoch;         (* uint256 => Epoch *)
  currentEpoch     : uint256;
  epochDuration    : uint256;
  usedSessions     : gmap N bool;          (* bytes32 => bool *)
  treasury         : address;
  treasuryBalance  : uint256;
  owner            : address
}.

(** The three contracts, the game contract's own address, the chain id
    and the log of the events the game has emitted (oldest first). *)
Record World : Type := mkWorld {
  dug      : DugToken.state;
  registry : AgentRegistry.state;
  game     : state;
  this     : address;
  chainid  : uint256;
  events   : list Event
}.

(** *** Storage access *)

Definition getEpoch (g : state) (epochId : uint256) : Epoch :=
  default zeroEpoch (epochs g !! epochId).

Definition sessionUsed (g : state) (sid : bytes32) : bool :=
  default false (usedSessions g !! sid).

(** [lb[i]] for [i < LB_SIZE]. *)
Definition lbAt (lb : list ScoreEntry) (i : nat) : ScoreEntry :=
  default zeroEntry (lb !! i).

Definition with_dug (w : World) (t : DugToken.state) : World :=
  mkWorld t (registry w) (game w) (this w) (chainid w) (events w).

Definition with_registry (w : World) (r : AgentRegistry.state) : World :=
  mkWorld (dug w) r (game w) (this w) (chainid w) (events w).

Definition with_game (w : World) (g : state) : World :=
  mkWorld (dug w) (registry w) g (this w) (chainid w) (events w).

Definition emit (w : World) (e : Event) : World :=
  mkWorld (dug w) (registry w) (game w) (this w) (chainid w) (events w ++ [e]).

(** [epochs[epochId] = e] *)
Definition setEpoch (g : state) (epochId : uint256) (e : Epoch) : state :=
  mk (scoreSigner g) (humanEntryFee g) (agentEntryFee g)
     (humanLeaderboard g) (agentLeaderboard g) (humanLBCount g) (agentLBCount g)
     (<[epochId := e]> (epochs g)) (currentEpoch g) (epochDuration g)
     (usedSessions g) (treasury g) (treasuryBalance g) (owner g).

Definition setCurrentEpoch (g : state) (n : uint256) : state :=
  mk (scoreSigner g) (humanEntryFee g) (agentEntryFee g)
     (humanLeaderboard g) (agentLeaderboard g) (humanLBCount g) (agentLBCount g)
     (epochs g) n (epochDuration g)
     (usedSessions g) (treasury g) (treasuryBalance g) (owner g).

(** [usedSessions[sid] = true] *)
Definition markSession (g : state) (sid : bytes32) : state :=
  mk (scoreSigner g) (humanEntryFee g) (agentEntryFee g)
     (humanLeaderboard g) (agentLeaderboard g) (humanLBCount g) (agentLBCount g)
     (epochs g) (currentEpoch g) (epochDuration g)
     (<[sid := true]> (usedSessions g)) (treasury g) (treasuryBalance g) (owner g).

Definition setTreasuryBalance (g : state) (b : uint256) : state :=
  mk (scoreSigner g) (humanEntryFee g) (agentEntryFee g)
     (humanLeaderboard g) (agentLeaderboard g) (humanLBCount g) (agentLBCount g)
     (epochs g) (currentEpoch g) (epochDuration g)
     (usedSessions g) (treasury g) b (owner g).

Definition setHumanLB (g : state) (lb : list ScoreEntry) (n : uint256) : state :=
  mk (scoreSigner g) (humanEntryFee g) (agentEntryFee g)
     lb (agentLeaderboard g) n (agentLBCount g)
     (epochs g) (currentEpoch g) (epochDuration g)
     (usedSessions g) (treasury g) (treasuryBalance g) (owner g).

Definition setAgentLB (g : state) (lb : list ScoreEntry) (n : uint256) : state :=
  mk (scoreSigner g) (humanEntryFee g) (agentEntryFee g)
     (humanLeaderboard g) lb (humanLBCount g) n
     (epochs g) (currentEpoch g) (epochDuration g)
     (usedSessions g) (treasury g) (treasuryBalance g) (owner g).

(** *** Epoch management *)

Definition _startNewEpoch (now : uint256) (w : World) : result World :=
  let g := game w in
  do cur <- checked_add (currentEpoch g) 1;
  do endT <- checked_add now (epochDuration g);
  let g1 := setCurrentEpoch g cur in
  let g2 := setEpoch g1 cur (mkEpoch cur now endT 0 0 0 false 0 0 0 0) in
  Ok (emit (with_game w g2) (EpochStarted cur now endT)).

(** The prize block of [settleEpoch] (the body of
    [if (epoch.prizePool > 0)]): the token after the mints and the two
    prizes [humanPrize], [agentPrize] the event will report. *)
Definition settlePrizes (self : address) (epoch : Epoch) (t : DugToken.state)
  : result (DugToken.state * uint256 * uint256) :=
  if 0 <? prizePool epoch then
    let half := prizePool epoch / 2 in
    do s1 <- (if negb (humanWinner epoch =? 0)
              then do t' <- DugToken.mint self t (humanWinner epoch) half; Ok (t', half)
              else Ok (t, 0));
    do s2 <- (if negb (agentWinner epoch =? 0)
              then do t' <- DugToken.mint self (fst s1) (agentWinner epoch) half;
                   Ok (t', half)
              else Ok (fst s1, 0));
    (* Handle case where one category has no players *)
    do s3 <- (if (humanWinner epoch =? 0) && negb (agentWinner epoch =? 0)
              then do t' <- DugToken.mint self (fst s2) (agentWinner epoch) half;
                   Ok (t', prizePool epoch)
              else Ok s2);
    do s4 <- (if (agentWinner epoch =? 0) && negb (humanWinner epoch =? 0)
              then do t' <- DugToken.mint self (fst s3) (humanWinner epoch) half;
                   Ok (t', prizePool epoch)
              else Ok (fst s3, snd s1));
    Ok (fst s4, snd s4, snd s3)
  else Ok (t, 0, 0).

Definition settleEpoch (now : uint256) (w : World) : result World :=
  let g := game w in
  let epoch := getEpoch g (currentEpoch g) in
  do _ <- require (endTime epoch <=? now) "Game: epoch not ended";
  do _ <- require (negb (settled epoch)) "Game: already settled";
  let g1 := setEpoch g (currentEpoch g)
              (mkEpoch (id epoch) (startTime epoch) (endTime epoch) (prizePool epoch)
                       (burnAmount epoch) (treasuryAmount epoch) true
                       (humanWinner epoch) (agentWinner epoch)
                       (humanTopScore epoch) (agentTopScore epoch)) in
  (* Split prize pool: 50/50 between human and agent winner *)
  do prizes <- settlePrizes (this w) epoch (dug w);
  let '(t1, humanPrize, agentPrize) := prizes in
  (* Burn and treasury *)
  do t2 <- (if 0 <? burnAmount epoch
            then do t' <- DugToken.mint (this w) t1 (this w) (burnAmount epoch);
                 DugToken.burn (this w) t' (burnAmount epoch)
            else Ok t1);
  do tg <- (if 0 <? treasuryAmount epoch
            then do t' <- DugToken.mint (this w) t2 (treasury g1) (treasuryAmount epoch);
                 do b <- checked_add (treasuryBalance g1) (treasuryAmount epoch);
                 Ok (t', setTreasuryBalance g1 b)
            else Ok (t2, g1));
  let w1 := with_game (with_dug w (fst tg)) (snd tg) in
  let w2 := emit w1 (EpochSettled (currentEpoch g) (humanWinner epoch) humanPrize
                                  (agentWinner epoch) agentPrize) in
  _startNewEpoch now w2.

(** *** Score submission *)

Definition _distributeEntryFee (g : state) (fee : uint256) : result state :=
  let epoch := getEpoch g (currentEpoch g) in
  do p <- checked_mul fee PRIZE_POOL_BPS;
  let toPrize := p / BPS_DENOM in
  do b <- checked_mul fee BURN_BPS;
  let toBurn := b / BPS_DENOM in
  do t <- checked_mul fee TREASURY_BPS;
  let toTreasury := t / BPS_DENOM in
  do prize' <- checked_add (prizePool epoch) toPrize;
  do burn' <- checked_add (burnAmount epoch) toBurn;
  do treasury' <- checked_add (treasuryAmount epoch) toTreasury;
  Ok (setEpoch g (currentEpoch g)
        (mkEpoch (id epoch) (startTime epoch) (endTime epoch) prize' burn' treasury'
                 (settled epoch) (humanWinner epoch) (agentWinner epoch)
                 (humanTopScore epoch) (agentTopScore epoch))).

(** The amount [_mintGameplayRewards] computes before it mints. *)
Definition gameplayReward (kills_ round_ : uint256) : result uint256 :=
  do killReward <- checked_mul kills_ REWARD_PER_KILL;
  do roundReward <- checked_mul round_ REWARD_PER_ROUND;
  do total <- checked_add killReward roundReward;
  (* Milestone bonuses *)
  do total <- (if 5 <=? round_ then checked_add total REWARD_MILESTONE else Ok total);
  do total <- (if 10 <=? round_ then checked_add total (REWARD_MILESTONE * 2)
               else Ok total);
  do total <- (if 20 <=? round_ then checked_add total (REWARD_MILESTONE * 5)
               else Ok total);
  Ok total.

Definition _mintGameplayRewards (w : World) (player_ : address)
    (kills_ round_ : uint256) : result World :=
  do total <- gameplayReward kills_ round_;
  if 0 <? total then
    do t <- DugToken.mint (this w) (dug w) player_ total;
    Ok (emit (with_dug w t) (RewardMinted player_ total "gameplay"))
  else Ok w.

(** The search loop of [_updateLeaderboard],
    [for (uint8 i = 0; i < count; i++) if (score > lb[i].score) { insertAt = i; break; }],
    from index [i] with [n = count - i] iterations left; [LB_SIZE] when
    the loop ends without a [break]. *)
Fixpoint findInsertAt (lb : list ScoreEntry) (score_ : uint256) (i n : nat) : nat :=
  match n with
  | O => N.to_nat LB_SIZE
  | S n' =>
      if score (lbAt lb i) <? score_ then i
      else findInsertAt lb score_ (S i) n'
  end.

(** The shift loop of [_updateLeaderboard],
    [for (uint8 j = LB_SIZE - 1; j > insertAt; j--) lb[j] = lb[j - 1];],
    entered with the loop variable equal to [j]. *)
Fixpoint shiftDown (lb : list ScoreEntry) (insertAt j : nat) : list ScoreEntry :=
  match j with
  | O => lb
  | S j' =>
      if (insertAt <? j)%nat
      then shiftDown (<[j := lbAt lb j']> lb) insertAt j'
      else lb
  end.

Definition _updateLeaderboard (now : uint256) (lb : list ScoreEntry)
    (currentCount : uint256) (player_ : address) (score_ round_ kills_ : uint256)
    (isAgent_ : bool) (sessionId_ : bytes32) : list ScoreEntry * list Event :=
  (* Find insertion point *)
  let count := if currentCount <? LB_SIZE then currentCount else LB_SIZE in
  let found := findInsertAt lb score_ 0 (N.to_nat count) in
  let insertAt :=
    if (found =? N.to_nat LB_SIZE)%nat && (count <? LB_SIZE)
    then N.to_nat count else found in
  if (insertAt <? N.to_nat LB_SIZE)%nat then
    (* Shift down *)
    let lb1 := shiftDown lb insertAt (N.to_nat LB_SIZE - 1) in
    let lb2 := <[insertAt := mkEntry player_ score_ round_ kills_ isAgent_ now
                                     sessionId_]> lb1 in
    (lb2, [LeaderboardUpdated isAgent_ insertAt player_ score_])
  else (lb, []).

Section Submission.
Context `{SignatureScheme}.

Definition submitScore (sender now : uint256) (w : World)
    (score_ round_ kills_ : uint256) (sessionId_ : bytes32) (signedAt : uint256)
    (signature : list Byte.byte) : result World :=
  let g := game w in
  (* 1. Replay protection *)
  do _ <- require (negb (sessionUsed g sessionId_)) "Game: session already used";
  do deadline <- checked_add signedAt 300;
  do _ <- require (now <=? deadline) "Game: signature expired";
  (* 2. Verify server signature *)
  let msgHash := keccak256_packed sender score_ round_ kills_ sessionId_ signedAt
                                  (chainid w) in
  let ethHash := toEthSignedMessageHash msgHash in
  do recovered <- recover ethHash signature;
  do _ <- require (recovered =? scoreSigner g) "Game: invalid signature";
  (* 3. Mark session used *)
  let w := with_game w (markSession g sessionId_) in
  (* 4. Determine if agent *)
  let profile := AgentRegistry.getProfile (registry w) sender in
  let isAgent_ := AgentRegistry.isAgent profile in
  (* 5. Entry fee burns into prize pool *)
  let fee := if isAgent_ then agentEntryFee (game w) else humanEntryFee (game w) in
  do w <- (if fee <=? DugToken.allowance (dug w) sender (this w) then
             do t <- DugToken.transferFrom (this w) (dug w) sender (this w) fee;
             do g' <- _distributeEntryFee (game w) fee;
             Ok (with_game (with_dug w t) g')
           else Ok w);
  (* 6. Update registry *)
  do r <- AgentRegistry.recordGame (this w) (registry w) sender score_;
  let w := with_registry w r in
  (* 7. Mint gameplay rewards *)
  do w <- _mintGameplayRewards w sender kills_ round_;
  (* 8. Update leaderboard *)
  let g := game w in
  let w :=
    if isAgent_ then
      let '(lb, evs) := _updateLeaderboard now (agentLeaderboard g) (agentLBCount g)
                          sender score_ round_ kills_ true sessionId_ in
      let n := if agentLBCount g <? LB_SIZE then agentLBCount g + 1
               else agentLBCount g in
      mkWorld (dug w) (registry w) (setAgentLB g lb n) (this w) (chainid w)
              (events w ++ evs)
    else
      let '(lb, evs) := _updateLeaderboard now (humanLeaderboard g) (humanLBCount g)
                          sender score_ round_ kills_ false sessionId_ in
      let n := if humanLBCount g <? LB_SIZE then humanLBCount g + 1
               else humanLBCount g in
      mkWorld (dug w) (registry w) (setHumanLB g lb n) (this w) (chainid w)
              (events w ++ evs) in
  (* 9. Update epoch top scores *)
  let g := game w in
  let epoch := getEpoch g (currentEpoch g) in
  let g :=
    if isAgent_ && (agentTopScore epoch <? score_) then
      setEpoch g (currentEpoch g)
        (mkEpoch (id epoch) (startTime epoch) (endTime epoch) (prizePool epoch)
                 (burnAmount epoch) (treasuryAmount epoch) (settled epoch)
                 (humanWinner epoch) sender (humanTopScore epoch) score_)
    else g in
  let epoch := getEpoch g (currentEpoch g) in
  let g :=
    if negb isAgent_ && (humanTopScore epoch <? score_) then
      setEpoch g (currentEpoch g)
        (mkEpoch (id epoch) (startTime epoch) (endTime epoch) (prizePool epoch)
                 (burnAmount epoch) (treasuryAmount epoch) (settled epoch)
                 sender (agentWinner epoch) score_ (agentTopScore epoch))
    else g in
  Ok (emit (with_game w g)
           (ScoreSubmitted sender score_ round_ kills_ isAgent_
                           (currentEpoch g) sessionId_)).

End Submission.

(** *** Admin *)

Definition setScoreSigner (sender : address) (w : World) (_signer : address)
  : result World :=
  let g := game w in
  if negb (sender =? owner g) then Err OwnableUnauthorizedAccount
  else Ok (with_game w
    (mk _signer (humanEntryFee g) (agentEntryFee g)
        (humanLeaderboard g) (agentLeaderboard g) (humanLBCount g) (agentLBCount g)
        (epochs g) (currentEpoch g) (epochDuration g)
        (usedSessions g) (treasury g) (treasuryBalance g) (owner g))).

Definition setFees (sender : address) (w : World) (_humanFee _agentFee : uint256)
  : result World :=
  let g := game w in
  if negb (sender =? owner g) then Err OwnableUnauthorizedAccount
  else Ok (with_game w
    (mk (scoreSigner g) _humanFee _agentFee
        (humanLeaderboard g) (agentLeaderboard g) (humanLBCount g) (agentLBCount g)
        (epochs g) (currentEpoch g) (epochDuration g)
        (usedSessions g) (treasury g) (treasuryBalance g) (owner g))).

Definition setEpochDuration (sender : address) (w : World) (_duration : uint256)
  : result World :=
  let g := game w in
  if negb (sender =? owner g) then Err OwnableUnauthorizedAccount
  else Ok (with_game w
    (mk (scoreSigner g) (humanEntryFee g) (agentEntryFee g)
        (humanLeaderboard g) (agentLeaderboard g) (humanLBCount g) (agentLBCount g)
        (epochs g) (currentEpoch g) _duration
        (usedSessions g) (treasury g) (treasuryBalance g) (owner g))).

Definition setTreasury (sender : address) (w : World) (_treasury : address)
  : result World :=
  let g := game w in
  if negb (sender =? owner g) then Err OwnableUnauthorizedAccount
  else Ok (with_game w
    (mk (scoreSigner g) (humanEntryFee g) (agentEntryFee g)
        (humanLeaderboard g) (agentLeaderboard g) (humanLBCount g) (agentLBCount g)
        (epochs g) (currentEpoch g) (epochDuration g)
        (usedSessions g) _treasury (treasuryBalance g) (owner g))).

(** *** Deployment and transactions *)

(** The three constructors, in the order of the deployment notes at the
    end of the source: the token, the registry, then the game, whose
    constructor opens epoch 1. [self] is the address the game contract is
    created at. *)
Definition deploy (deployer self chain now : uint256)
    (_scoreSigner _treasury : address) : result World :=
  do t <- DugToken.constructor deployer;
  do r <- AgentRegistry.constructor deployer;
  let g := mk _scoreSigner (10 * 10 ^ 18) (5 * 10 ^ 18)
              (replicate (N.to_nat LB_SIZE) zeroEntry)
              (replicate (N.to_nat LB_SIZE) zeroEntry) 0 0
              ∅ 0 86400 ∅ _treasury 0 deployer in
  _startNewEpoch now (mkWorld t r g self chain []).

(** The external functions a transaction can call. *)
Inductive Call : Type :=
| SubmitScore (score_ round_ kills_ : uint256) (sessionId_ : bytes32)
              (signedAt : uint256) (signature : list Byte.byte)
| SettleEpoch
| SetScoreSigner (_signer : address)
| SetFees (_humanFee _agentFee : uint256)
| SetEpochDuration (_duration : uint256)
| SetTreasury (_treasury : address)
| TokenSetGameContract (_game : address)
| TokenMint (to : address) (amount : uint256)
| TokenApprove (spender : address) (value : uint256)
| TokenTransfer (to : address) (value : uint256)
| TokenBurn (value : uint256)
| RegistryRegister (agentId_ : bytes32) (name_ : string) (isAgent_ : bool)
| RegistryRecordGame (player_ : address) (score_ : uint256)
| RegistryTransferOwnership (newOwner : address).

Section Transactions.
Context `{SignatureScheme}.

(** One transaction sent by [sender] in a block with timestamp [now]. *)
Definition exec (sender now : uint256) (c : Call) (w : World) : result World :=
  match c with
  | SubmitScore sc rd kl sid sAt sig => submitScore sender now w sc rd kl sid sAt sig
  | SettleEpoch => settleEpoch now w
  | SetScoreSigner a => setScoreSigner sender w a
  | SetFees h a => setFees sender w h a
  | SetEpochDuration d => setEpochDuration sender w d
  | SetTreasury a => setTreasury sender w a
  | TokenSetGameContract a =>
      do t <- DugToken.setGameContract sender (dug w) a; Ok (with_dug w t)
  | TokenMint to amount =>
      do t <- DugToken.mint sender (dug w) to amount; Ok (with_dug w t)
  | TokenApprove sp v =>
      do t <- DugToken.approve sender (dug w) sp v; Ok (with_dug w t)
  | TokenTransfer to v =>
      do t <- DugToken.transfer sender (dug w) to v; Ok (with_dug w t)
  | TokenBurn v =>
      do t <- DugToken.burn sender (dug w) v; Ok (with_dug w t)
  | RegistryRegister a n b =>
      do r <- AgentRegistry.register sender now (registry w) a n b;
      Ok (with_registry w r)
  | RegistryRecordGame p sc =>
      do r <- AgentRegistry.recordGame sender (registry w) p sc;
      Ok (with_registry w r)
  | RegistryTransferOwnership a =>
      do r <- AgentRegistry.transferOwnership sender (registry w) a;
      Ok (with_registry w r)
  end.

(** A transaction that reverts leaves the world as it was. *)
Definition run (sender now : uint256) (c : Call) (w : World)
  : World * option Failure :=
  match exec sender now c w with
  | Ok w' => (w', None)
  | Err f => (w, Some f)
  end.

(** The worlds a deployment followed by any transactions can reach. *)
Inductive reachable : World -> Prop :=
| reachable_deploy deployer self chain now signer treasury_ w :
    deploy deployer self chain now signer treasury_ = Ok w ->
    reachable w
| reachable_exec sender now c w w' :
    reachable w ->
    exec sender now c w = Ok w' ->
    reachable w'.

(** A run of transactions, each with its sender and timestamp; reverted
    transactions are skipped. *)
Fixpoint runAll (txs : list (uint256 * uint256 * Call)) (w : World) : World :=
  match txs with
  | [] => w
  | (sender, now, c) :: rest => runAll rest (fst (run sender now c w))
  end.

End Transactions.

End ClawDugGame.

Import ClawDugGame.

(** ** The steps of [submitScore], named

    [submitScore] is one function in the source; the definitions below name
    its numbered steps so that lemmas can speak about them.
    [submitScore_steps] shows that they compose to [submitScore]. *)

Section Steps.
Context `{SignatureScheme}.

(** Steps 1 and 2: the three checks before any write. *)
Definition verifySubmission (sender now : uint256) (w : World)
    (score_ round_ kills_ : uint256) (sessionId_ : bytes32) (signedAt : uint256)
    (signature : list Byte.byte) : result unit :=
  do _ <- require (negb (sessionUsed (game w) sessionId_)) "Game: session already used";
  do deadline <- checked_add signedAt 300;
  do _ <- require (now <=? deadline) "Game: signature expired";
  do recovered <- recover (toEthSignedMessageHash
                    (keccak256_packed sender score_ round_ kills_ sessionId_ signedAt
                                      (chainid w))) signature;
  require (recovered =? scoreSigner (game w)) "Game: invalid signature".

(** Step 4. *)
Definition isAgentOf (w : World) (a : address) : bool :=
  AgentRegistry.isAgent (AgentRegistry.getProfile (registry w) a).

Definition entryFee (w : World) (a : address) : uint256 :=
  if isAgentOf w a then agentEntryFee (game w) else humanEntryFee (game w).

(** Step 5. *)
Definition payEntryFee (sender : address) (w : World) : result World :=
  let fee := entryFee w sender in
  if fee <=? DugToken.allowance (dug w) sender (this w) then
    do t <- DugToken.transferFrom (this w) (dug w) sender (this w) fee;
    do g' <- _distributeEntryFee (game w) fee;
    Ok (with_game (with_dug w t) g')
  else Ok w.

(** Step 8. *)
Definition placeScore (sender now : uint256) (w : World) (isAgent_ : bool)
    (score_ round_ kills_ : uint256) (sessionId_ : bytes32) : World :=
  let g := game w in
  if isAgent_ then
    let '(lb, evs) := _updateLeaderboard now (agentLeaderboard g) (agentLBCount g)
                        sender score_ round_ kills_ true sessionId_ in
    let n := if agentLBCount g <? LB_SIZE then agentLBCount g + 1
             else agentLBCount g in
    mkWorld (dug w) (registry w) (setAgentLB g lb n) (this w) (chainid w)
            (events w ++ evs)
  else
    let '(lb, evs) := _updateLeaderboard now (humanLeaderboard g) (humanLBCount g)
                        sender score_ round_ kills_ false sessionId_ in
    let n := if humanLBCount g <? LB_SIZE then humanLBCount g + 1
             else humanLBCount g in
    mkWorld (dug w) (registry w) (setHumanLB g lb n) (this w) (chainid w)
            (events w ++ evs).

(** Step 9. *)
Definition recordTopScore (sender : address) (g : state) (isAgent_ : bool)
    (score_ : uint256) : state :=
  let epoch := getEpoch g (currentEpoch g) in
  let g :=
    if isAgent_ && (agentTopScore epoch <? score_) then
      setEpoch g (currentEpoch g)
        (mkEpoch (id epoch) (startTime epoch) (endTime epoch) (prizePool epoch)
                 (burnAmount epoch) (treasuryAmount epoch) (settled epoch)
                 (humanWinner epoch) sender (humanTopScore epoch) score_)
    else g in
  let epoch := getEpoch g (currentEpoch g) in
  if negb isAgent_ && (humanTopScore epoch <? score_) then
    setEpoch g (currentEpoch g)
      (mkEpoch (id epoch) (startTime epoch) (endTime epoch) (prizePool epoch)
               (burnAmount epoch) (treasuryAmount epoch) (settled epoch)
               sender (agentWinner epoch) score_ (agentTopScore epoch))
  else g.

(** Steps 8 and 9 and the final event. *)
Definition finishSubmit (sender now : uint256) (w : World) (isAgent_ : bool)
    (score_ round_ kills_ : uint256) (sessionId_ : bytes32) : World :=
  let w1 := placeScore sender now w isAgent_ score_ round_ kills_ sessionId_ in
  let g := recordTopScore sender (game w1) isAgent_ score_ in
  emit (with_game w1 g)
       (ScoreSubmitted sender score_ round_ kills_ isAgent_ (currentEpoch g) sessionId_).

(** Steps 3 to 6: everything between the checks and the reward mint. *)
Definition enterSubmission (sender : address) (w : World) (score_ : uint256)
    (sessionId_ : bytes32) : result World :=
  let w0 := with_game w (markSession (game w) sessionId_) in
  do w1 <- payEntryFee sender w0;
  do r <- AgentRegistry.recordGame (this w1) (registry w1) sender score_;
  Ok (with_registry w1 r).

End Steps.

(** ** Specification-level quantities *)

(** What an epoch has accumulated from entry fees. *)
Definition poolSum (e : Epoch) : N :=
  prizePool e + burnAmount e + treasuryAmount e.

(** The units of a fee that the truncating basis-point split does not
    allocate to any pool. *)
Definition splitDust (fee : N) : N :=
  fee - (fee * PRIZE_POOL_BPS / BPS_DENOM + fee * BURN_BPS / BPS_DENOM
         + fee * TREASURY_BPS / BPS_DENOM).

Definition sumN (l : list N) : N := foldr N.add 0 l.

(** [_distributeEntryFee] applied to a series of fees, all in the same epoch. *)
Fixpoint distributeAll (g : state) (fees : list N) : result state :=
  match fees with
  | [] => Ok g
  | fee :: rest => do g' <- _distributeEntryFee g fee; distributeAll g' rest
  end.

(** The reward formula of the specification's RewardCalculator, over
    unbounded naturals: kills and rounds at their rates plus every milestone
    bonus whose threshold the round meets. *)
Definition rewardAmount (kills_ round_ : N) : N :=
  kills_ * REWARD_PER_KILL + round_ * REWARD_PER_ROUND
  + (if 5 <=? round_ then REWARD_MILESTONE else 0)
  + (if 10 <=? round_ then REWARD_MILESTONE * 2 else 0)
  + (if 20 <=? round_ then REWARD_MILESTONE * 5 else 0).

(** The entry a submission writes into a leaderboard. *)
Definition entryOf (sender now score_ round_ kills_ : uint256) (isAgent_ : bool)
    (sessionId_ : bytes32) : ScoreEntry :=
  mkEntry sender score_ round_ kills_ isAgent_ now sessionId_.

(** The leaderboard of a category and its count. *)
Definition boardOf (g : state) (isAgent_ : bool) : list ScoreEntry :=
  if isAgent_ then agentLeaderboard g else humanLeaderboard g.

Definition countOf (g : state) (isAgent_ : bool) : uint256 :=
  if isAgent_ then agentLBCount g else humanLBCount g.

(** The occupied entries of a leaderboard: the first [count] slots. *)
Definition occupied (lb : list ScoreEntry) (count : uint256) : list ScoreEntry :=
  take (N.to_nat count) lb.

(** The fields of an epoch that only [_startNewEpoch] and [settleEpoch]
    write. *)
Definition epochHeader (e : Epoch) : N * N * N * bool :=
  (id e, startTime e, endTime e, settled e).

(** The epoch as [settleEpoch] leaves it: only the flag changes. *)
Definition markSettled (e : Epoch) : Epoch :=
  mkEpoch (id e) (startTime e) (endTime e) (prizePool e) (burnAmount e)
          (treasuryAmount e) true (humanWinner e) (agentWinner e)
          (humanTopScore e) (agentTopScore e).

(** ** Invariants *)

(** The token's supply is under its cap. *)
Definition supplyOk (t : DugToken.state) : Prop :=
  DugToken.totalSupply t <= DugToken.MAX_SUPPLY.


(** A leaderboard array [lb] with [count] occupied slots, in a game whose
    session registry is [g]'s. *)
Record boardOk (g : state) (lb : list ScoreEntry) (count : uint256) : Prop := {
  board_length : length lb = N.to_nat LB_SIZE;
  board_count  : count <= LB_SIZE;
  board_tail   : forall i, (N.to_nat count <= i)%nat -> lbAt lb i = zeroEntry;
  board_sorted : forall i j, (i <= j)%nat -> (j < N.to_nat count)%nat ->
                   score (lbAt lb j) <= score (lbAt lb i);
  board_nodup  : forall i j, (i < N.to_nat count)%nat -> (j < N.to_nat count)%nat ->
                   sessionId (lbAt lb i) = sessionId (lbAt lb j) -> i = j;
  board_used   : forall i, (i < N.to_nat count)%nat ->
                   sessionUsed g (sessionId (lbAt lb i)) = true
}.

Record worldOk (w : World) : Prop := {
  ok_human     : boardOk (game w) (humanLeaderboard (game w)) (humanLBCount (game w));
  ok_agent     : boardOk (game w) (agentLeaderboard (game w)) (agentLBCount (game w));
  ok_supply    : DugToken.totalSupply (dug w) <= DugToken.MAX_SUPPLY;
  ok_unsettled : settled (getEpoch (game w) (currentEpoch (game w))) = false;
  ok_epoch_id  : id (getEpoch (game w) (currentEpoch (game w))) = currentEpoch (game w)
}.

(** The game storage after steps 3 to 6: the session is marked and, if the
    fee was paid, the pools of the current epoch have grown. *)
Definition entered (g : state) (sid : bytes32) (g1 : state) : Prop :=
  g1 = markSession g sid
  \/ exists fee,
      let e := getEpoch g (currentEpoch g) in
      g1 = setEpoch (markSession g sid) (currentEpoch g)
             (mkEpoch (id e) (startTime e) (endTime e)
                (prizePool e + fee * PRIZE_POOL_BPS / BPS_DENOM)
                (burnAmount e + fee * BURN_BPS / BPS_DENOM)
                (treasuryAmount e + fee * TREASURY_BPS / BPS_DENOM)
                (settled e) (humanWinner e) (agentWinner e)
                (humanTopScore e) (agentTopScore e)).

(** Where [_updateLeaderboard] puts a score: [Some k] for slot [k], [None]
    when the board is full and the score exceeds no entry. *)
Definition insertAtOf (lb : list ScoreEntry) (currentCount score_ : uint256)
  : option nat :=
  let count := if currentCount <? LB_SIZE then currentCount else LB_SIZE in
  let found := findInsertAt lb score_ 0 (N.to_nat count) in
  let insertAt :=
    if (found =? N.to_nat LB_SIZE)%nat && (count <? LB_SIZE)
    then N.to_nat count else found in
  if (insertAt <? N.to_nat LB_SIZE)%nat then Some insertAt else None.

(** ** Sample data

    A toy signature scheme (a one-byte signature recovers to the address
    that byte denotes) and a few concrete worlds: deployer 1, game contract
    at address 100, score signer 7, treasury 9, an agent at address 50
    and a human at address 60. *)

Definition sampleScheme : SignatureScheme := {|
  keccak256_packed := fun _ _ _ _ sessionId_ _ _ => sessionId_;
  toEthSignedMessageHash := fun h => h;
  recover := fun _ sig =>
    match sig with
    | [b] => Ok (Byte.to_N b)
    | _ => Err ECDSAInvalidSignature
    end
|}.

Definition emptyWorld : World :=
  mkWorld (DugToken.mk 0 ∅ ∅ 0 0) (AgentRegistry.mk ∅ ∅ [] 0)
          (mk 0 0 0 [] [] 0 0 ∅ 0 0 ∅ 0 0 0) 0 0 [].

Definition worldOf (r : result World) : World :=
  match r with
  | Ok w => w
  | Err _ => emptyWorld
  end.

Definition signedBy7 : list Byte.byte := [Byte.x07].

(** Deployed at time 0, then wired as the deployment notes say, and the
    agent registered. *)
Definition deployed : World := worldOf (deploy 1 100 8453 0 7 9).

Definition wired : World :=
  @runAll sampleScheme
    [ (1, 1, TokenSetGameContract 100);
      (1, 2, RegistryTransferOwnership 100);
      (50, 3, RegistryRegister 77 "bot" true) ] deployed.

(** The agent has played once (3 kills, session 1000) at time 10. *)
Definition playedOnce : World :=
  @runAll sampleScheme [ (50, 10, SubmitScore 100 0 3 1000 10 signedBy7) ] wired.

(** The owner has set the fees to 10 and 5 units; the agent has approved
    5 units and played a second time, paying the fee of 5. *)
Definition oddPool : World :=
  @runAll sampleScheme
    [ (1, 11, SetFees 10 5);
      (50, 12, TokenApprove 100 5);
      (50, 13, SubmitScore 120 0 0 1001 13 signedBy7) ] playedOnce.

(** The agent has minted the whole supply in one game of 50 million kills. *)
Definition supplyFull : World :=
  @runAll sampleScheme [ (50, 10, SubmitScore 100 0 50000000 1000 10 signedBy7) ] wired.

(** The first epoch settled at its end time. *)
Definition settledOnce : World :=
  @runAll sampleScheme [ (60, 86400, SettleEpoch) ] deployed.

(** The agent has played twenty games, all with score 50, in sessions
    1000 to 1019: the agent leaderboard is full. *)
Definition twentyGames : list (N * N * Call) :=
  (fun i => (50, 10, SubmitScore 50 0 0 (1000 + N.of_nat i) 10 signedBy7))
    <$> seq 0 20.

Definition fullBoard : World := @runAll sampleScheme twentyGames wired.

(** The owner has set the epoch duration to the largest [uint256]; nobody
    has played. *)
Definition hugeDuration : World :=
  @runAll sampleScheme [ (1, 1, SetEpochDuration MAX_UINT256) ] deployed.


(** * Further definitions

    Read functions, the deployment script, the agent API server, and the
    quantities and invariants the further properties speak about. *)

(** ** Read functions and the deployment script *)

(** [function timeUntilEpochEnd() external view returns (uint256)] *)
Definition timeUntilEpochEnd (now : uint256) (g : state) : uint256 :=
  let epoch := getEpoch g (currentEpoch g) in
  if endTime epoch <=? now then 0 else endTime epoch - now.

(** [function agentCount() external view returns (uint256)] of the registry. *)
Definition agentCount (r : AgentRegistry.state) : uint256 :=
  N.of_nat (length (AgentRegistry.agentList r)).

(** The script [Deploy.s.sol] that [deploy.sh] writes: the three
    constructors, then [dug.setGameContract(address(game))] and
    [registry.transferOwnership(address(game))], all sent by the deployer. *)
Definition deployScript (deployer self chain now : uint256)
    (_scoreSigner _treasury : address) : result World :=
  do w <- deploy deployer self chain now _scoreSigner _treasury;
  do t <- DugToken.setGameContract deployer (dug w) self;
  do r <- AgentRegistry.transferOwnership deployer (registry w) self;
  Ok (with_registry (with_dug w t) r).

(** ** Further quantities *)

(** The tokens [settlePrizes] mints, by the winners an epoch has. *)
Definition prizesMinted (e : Epoch) : N :=
  if 0 <? prizePool e then
    (if negb (humanWinner e =? 0) then prizePool e / 2 else 0)
    + (if negb (agentWinner e =? 0) then prizePool e / 2 else 0)
    + (if (humanWinner e =? 0) && negb (agentWinner e =? 0) then prizePool e / 2 else 0)
    + (if (agentWinner e =? 0) && negb (humanWinner e =? 0) then prizePool e / 2 else 0)
  else 0.

(** What the prize block of [settleEpoch] mints to the account [x]. *)
Definition prizeMintedTo (e : Epoch) (x : address) : N :=
  if 0 <? prizePool e then
    (if negb (humanWinner e =? 0) && (x =? humanWinner e) then prizePool e / 2 else 0)
    + (if negb (agentWinner e =? 0) && (x =? agentWinner e) then prizePool e / 2 else 0)
    + (if (humanWinner e =? 0) && negb (agentWinner e =? 0) && (x =? agentWinner e)
       then prizePool e / 2 else 0)
    + (if (agentWinner e =? 0) && negb (humanWinner e =? 0) && (x =? humanWinner e)
       then prizePool e / 2 else 0)
  else 0.

(** The top score and the winner of a category in an epoch. *)
Definition topScoreOf (e : Epoch) (isAgent_ : bool) : uint256 :=
  if isAgent_ then agentTopScore e else humanTopScore e.

Definition winnerOf (e : Epoch) (isAgent_ : bool) : address :=
  if isAgent_ then agentWinner e else humanWinner e.

(** The fee [submitScore] collects from [sender]: the category's entry fee
    when the allowance given to the game covers it, nothing otherwise. *)
Definition feePaid (w : World) (sender : address) : uint256 :=
  if entryFee w sender <=? DugToken.allowance (dug w) sender (this w)
  then entryFee w sender else 0.

(** The identity fields of a profile: those [recordGame] does not write. *)
Definition profileIdentity (p : AgentRegistry.AgentProfile)
  : bytes32 * string * address * bool * uint256 :=
  (AgentRegistry.agentId p, AgentRegistry.name p, AgentRegistry.wallet p,
   AgentRegistry.isAgent p, AgentRegistry.registeredAt p).

(** The settings of the game that its four admin functions write. *)
Definition settings (g : state) : address * uint256 * uint256 * uint256 * address :=
  (scoreSigner g, humanEntryFee g, agentEntryFee g, epochDuration g, treasury g).

(** The settings together with the owner. *)
Definition config (g : state) : address * uint256 * uint256 * uint256 * address * address :=
  (scoreSigner g, humanEntryFee g, agentEntryFee g, epochDuration g, treasury g, owner g).

(** The treasury shares of the epochs before the current one, summed. *)
Definition settledTreasury (g : state) : N :=
  sumN ((fun k => treasuryAmount (getEpoch g (N.of_nat k)))
          <$> seq 1 (N.to_nat (currentEpoch g) - 1)).

(** Whether the prize block of [settleEpoch] calls [mint]: the pool is not
    empty and a category has a winner (the amount minted can still be 0,
    for a pool of one unit). *)
Definition mintsPrize (e : Epoch) : bool :=
  (0 <? prizePool e) && negb ((humanWinner e =? 0) && (agentWinner e =? 0)).

(** When [settleEpoch] can go through at time [now]: the epoch has ended
    and is not settled; whatever is minted is minted by a game that the token
    has as its [gameContract]; the supply stays under the cap at each mint,
    the burn share included at the moment it is minted; the burn share is
    minted to a nonzero game address; the treasury share goes to a nonzero
    treasury and its counter does not overflow; and the next epoch's id and
    end time fit in a [uint256]. *)
Definition settleable (now : uint256) (w : World) : Prop :=
  let g := game w in
  let e := getEpoch g (currentEpoch g) in
  let t := dug w in
  endTime e <= now /\ settled e = false
  /\ (mintsPrize e = true ->
      this w = DugToken.gameContract t
      /\ DugToken.totalSupply t + prizesMinted e <= DugToken.MAX_SUPPLY)
  /\ (0 < burnAmount e ->
      this w = DugToken.gameContract t /\ this w <> 0
      /\ DugToken.totalSupply t + prizesMinted e + burnAmount e <= DugToken.MAX_SUPPLY)
  /\ (0 < treasuryAmount e ->
      this w = DugToken.gameContract t /\ treasury g <> 0
      /\ DugToken.totalSupply t + prizesMinted e + treasuryAmount e
         <= DugToken.MAX_SUPPLY
      /\ treasuryBalance g + treasuryAmount e <= MAX_UINT256)
  /\ currentEpoch g + 1 <= MAX_UINT256
  /\ now + epochDuration g <= MAX_UINT256.

(** ** Further invariants *)

(** The epochs of a game: ids start at 1, every epoch before the current
    one is settled, and no epoch exists beyond the current one. *)
Record historyOk (g : state) : Prop := {
  hist_current : 1 <= currentEpoch g;
  hist_present : forall k, 1 <= k <= currentEpoch g ->
                   id (getEpoch g k) = k
                   /\ startTime (getEpoch g k) <= endTime (getEpoch g k);
  hist_settled : forall k, 1 <= k < currentEpoch g -> settled (getEpoch g k) = true;
  hist_absent  : forall k, k = 0 \/ currentEpoch g < k -> epochs g !! k = None
}.

(** The profiles of a registry: the statistics are consistent and an agent
    id belongs to one wallet. *)
Record registryOk (r : AgentRegistry.state) : Prop := {
  reg_best  : forall a,
                AgentRegistry.bestScore (AgentRegistry.getProfile r a)
                <= AgentRegistry.totalScore (AgentRegistry.getProfile r a);
  reg_total : forall a,
                AgentRegistry.totalScore (AgentRegistry.getProfile r a)
                <= AgentRegistry.gamesPlayed (AgentRegistry.getProfile r a)
                   * AgentRegistry.bestScore (AgentRegistry.getProfile r a);
  reg_ids   : forall a,
                a <> 0 ->
                AgentRegistry.isAgent (AgentRegistry.getProfile r a) = true ->
                default 0 (AgentRegistry.agentIdToWallet r
                             !! AgentRegistry.agentId (AgentRegistry.getProfile r a)) = a
}.

(** The two leaderboards hold entries of their own category, and an epoch's
    top score never exceeds the score at the head of the category's board. *)
Record categoriesOk (g : state) : Prop := {
  cat_board : forall a i, (i < N.to_nat (countOf g a))%nat ->
                isAgent (lbAt (boardOf g a) i) = a;
  cat_human : humanTopScore (getEpoch g (currentEpoch g))
              <= score (lbAt (humanLeaderboard g) 0);
  cat_agent : agentTopScore (getEpoch g (currentEpoch g))
              <= score (lbAt (agentLeaderboard g) 0)
}.

(** The three together. *)
Record worldOk2 (w : World) : Prop := {
  ok2_history    : historyOk (game w);
  ok2_registry   : registryOk (registry w);
  ok2_categories : categoriesOk (game w)
}.

(** * The agent API server

    [src/clawdug-agent-api.js]: the server-side game session and the parts
    of the HTTP routes that decide what is signed and shown. JavaScript
    numbers that the code keeps integral are integers here; a missing
    array element ([undefined]) is [None]. *)

From Stdlib Require DecimalString.

Module AgentApi.

(** [const CHAIN_ID = 8453] *)
Definition CHAIN_ID : N := 8453.

Module Player.
Record t : Type := mk {
  x : Z; y : Z; tileR : Z; tileC : Z; dir : Z;
  alive : bool; invincible : bool; hasPump : bool
}.
End Player.

Module Enemy.
Record t : Type := mk {
  type : string; x : Z; y : Z; tileR : Z; tileC : Z;
  alive : bool; ghost : bool; pumped : bool; inflate : Z
}.
End Enemy.

Module Rock.
Record t : Type := mk {
  r : Z; c : Z; x : Z; y : Z; falling : bool; active : bool
}.
End Rock.

Module GameState.
Record t : Type := mk {
  frame   : Z;
  score   : Z;
  lives   : Z;
  round   : Z;
  player  : Player.t;
  enemies : list Enemy.t;
  rocks   : list Rock.t;
  grid    : list (list (option Z));
  actions : list string
}.
End GameState.

(** What [tick] is called with: one of the strings its [switch] handles,
    any other truthy value (the routes let ['noop'] through), or a falsy
    value (the broadcast loop calls [tick(null)]). *)
Inductive Action : Type :=
| move_up | move_down | move_left | move_right | fire_pump | release_pump
| other_action.

(** The fields of [GameSession] that [tick], [signScore] and the routes
    read or write; times are milliseconds as [Date.now()] gives them. *)
Record GameSession : Type := mkSession {
  sessionId     : bytes32;
  agentAddress  : address;
  agentId       : string;
  isAgent       : bool;
  startTime     : Z;
  lastAction    : Z;
  gameState     : GameState.t;
  actionQueue   : list Action;
  score         : N;
  kills         : N;
  round         : N;
  alive         : bool;
  scoreVerified : bool
}.

(** [Array(17).fill(null).map((_, r) => Array(15).fill(r < 1 ? 0 : 1))] *)
Definition initialGrid : list (list (option Z)) :=
  (fun r => replicate 15 (Some (if (r <? 1)%nat then 0 else 1)%Z)) <$> seq 0 17.

Definition _initialState : GameState.t :=
  GameState.mk 0 0 3 1
    (Player.mk 32 32 1 1 1 true false false)
    [ Enemy.mk "POOKA" 384 128 4 12 true false false 0;
      Enemy.mk "POOKA" 320 192 6 10 true false false 0;
      Enemy.mk "FYGAR" 256 256 8 8 true false false 0;
      Enemy.mk "POOKA" 352 320 10 11 true false false 0;
      Enemy.mk "FYGAR" 64 192 6 2 true false false 0 ]
    [ Rock.mk 3 5 160 96 false true;
      Rock.mk 5 7 224 160 false true;
      Rock.mk 7 2 64 224 false true ]
    initialGrid
    ["move_up"; "move_down"; "move_left"; "move_right"; "fire_pump";
     "release_pump"]%string.

(** [new GameSession(agentAddress, agentId, isAgent)] with the random
    session id and the two clock readings it draws. *)
Definition constructor (randomId : bytes32) (startMs lastMs : Z)
    (agentAddress_ : address) (agentId_ : string) (isAgent_ : bool) : GameSession :=
  mkSession randomId agentAddress_ agentId_ isAgent_ startMs lastMs _initialState []
            0 0 1 true false.

(** [Math.round(v / 32)] for an integral [v]: the quotient rounded to the
    nearest integer, a half rounded up. *)
Definition round32 (v : Z) : Z := ((v + 16) / 32)%Z.

(** [a[i] = v] on a JavaScript array: an index past the end extends the
    array, leaving holes. *)
Definition arraySet {A : Type} (a : list (option A)) (i : nat) (v : A)
  : list (option A) :=
  if (i <? length a)%nat then <[i := Some v]> a
  else a ++ replicate (i - length a) None ++ [Some v].

(** The [switch (action)] of [tick]. *)
Definition applyAction (p : Player.t) (action : Action) : Player.t :=
  match action with
  | move_right =>
      Player.mk (Z.min (Player.x p + 4) 448) (Player.y p) (Player.tileR p)
                (Player.tileC p) 1 (Player.alive p) (Player.invincible p)
                (Player.hasPump p)
  | move_left =>
      Player.mk (Z.max (Player.x p - 4) 0) (Player.y p) (Player.tileR p)
                (Player.tileC p) 3 (Player.alive p) (Player.invincible p)
                (Player.hasPump p)
  | move_down =>
      Player.mk (Player.x p) (Z.min (Player.y p + 4) 528) (Player.tileR p)
                (Player.tileC p) 2 (Player.alive p) (Player.invincible p)
                (Player.hasPump p)
  | move_up =>
      Player.mk (Player.x p) (Z.max (Player.y p - 4) 0) (Player.tileR p)
                (Player.tileC p) 0 (Player.alive p) (Player.invincible p)
                (Player.hasPump p)
  | fire_pump =>
      Player.mk (Player.x p) (Player.y p) (Player.tileR p) (Player.tileC p)
                (Player.dir p) (Player.alive p) (Player.invincible p) true
  | release_pump =>
      Player.mk (Player.x p) (Player.y p) (Player.tileR p) (Player.tileC p)
                (Player.dir p) (Player.alive p) (Player.invincible p) false
  | other_action => p
  end.

Definition with_state (s : GameSession) (nowMs : Z) (gs : GameState.t) : GameSession :=
  mkSession (sessionId s) (agentAddress s) (agentId s) (isAgent s) (startTime s)
            nowMs gs (actionQueue s) (score s) (kills s) (round s) (alive s)
            (scoreVerified s).

(** [tick(action)] at clock reading [nowMs]. [None]: the statement
    [this.gameState.grid[player.tileR][player.tileC] = 0] throws a
    [TypeError] because the row is [undefined]. *)
Definition tick (nowMs : Z) (s : GameSession) (action : option Action)
  : option GameSession :=
  let gs := gameState s in
  let frame' := (GameState.frame gs + 1)%Z in
  match action with
  | None =>
      Some (with_state s nowMs
              (GameState.mk frame' (GameState.score gs) (GameState.lives gs)
                 (GameState.round gs) (GameState.player gs) (GameState.enemies gs)
                 (GameState.rocks gs) (GameState.grid gs) (GameState.actions gs)))
  | Some a =>
      let p1 := applyAction (GameState.player gs) a in
      let p2 := Player.mk (Player.x p1) (Player.y p1)
                          (round32 (Player.y p1)) (round32 (Player.x p1))
                          (Player.dir p1) (Player.alive p1) (Player.invincible p1)
                          (Player.hasPump p1) in
      (* Undig tile *)
      if ((1 <=? Player.tileR p2) && (Player.tileR p2 <? 17)
          && (0 <=? Player.tileC p2) && (Player.tileC p2 <? 15))%Z
      then
        match GameState.grid gs !! Z.to_nat (Player.tileR p2) with
        | Some row =>
            Some (with_state s nowMs
                    (GameState.mk frame' (GameState.score gs) (GameState.lives gs)
                       (GameState.round gs) p2 (GameState.enemies gs)
                       (GameState.rocks gs)
                       (<[Z.to_nat (Player.tileR p2) :=
                            arraySet row (Z.to_nat (Player.tileC p2)) 0%Z]>
                          (GameState.grid gs))
                       (GameState.actions gs)))
        | None => None
        end
      else
        Some (with_state s nowMs
                (GameState.mk frame' (GameState.score gs) (GameState.lives gs)
                   (GameState.round gs) p2 (GameState.enemies gs)
                   (GameState.rocks gs) (GameState.grid gs) (GameState.actions gs)))
  end.

(** A series of [tick] calls, each with its clock reading. *)
Fixpoint ticks (calls : list (Z * option Action)) (s : GameSession)
  : option GameSession :=
  match calls with
  | [] => Some s
  | (nowMs, a) :: rest =>
      match tick nowMs s a with
      | Some s' => ticks rest s'
      | None => None
      end
  end.

(** The cell [grid[r][c]] of a session. *)
Definition cell (s : GameSession) (r c : nat) : option Z :=
  match GameState.grid (gameState s) !! r with
  | Some row => default None (row !! c)
  | None => None
  end.

(** A session whose player is inside the field, whose tile is the one
    [tick] computes from the position, and whose grid has 17 rows of 15
    cells, each 0 (dug) or 1, the top row dug. *)
Record sessionOk (s : GameSession) : Prop := {
  ok_x     : (0 <= Player.x (GameState.player (gameState s)) <= 448)%Z;
  ok_y     : (0 <= Player.y (GameState.player (gameState s)) <= 528)%Z;
  ok_tileR : Player.tileR (GameState.player (gameState s))
             = round32 (Player.y (GameState.player (gameState s)));
  ok_tileC : Player.tileC (GameState.player (gameState s))
             = round32 (Player.x (GameState.player (gameState s)));
  ok_rows  : length (GameState.grid (gameState s)) = 17%nat;
  ok_cols  : forall r row, GameState.grid (gameState s) !! r = Some row ->
               length row = 15%nat;
  ok_cells : forall r c, (r < 17)%nat -> (c < 15)%nat ->
               cell s r c = Some 0%Z \/ cell s r c = Some 1%Z;
  ok_sky   : forall c, (c < 15)%nat -> cell s 0 c = Some 0%Z
}.

(** [String(n)] for a non-negative integer [n] below 10^21. *)
Definition numberToString (n : N) : string :=
  DecimalString.NilZero.string_of_uint (N.to_uint n).

(** [k.includes(s)] *)
Definition includes (k s : string) : bool :=
  match String.index 0 s k with
  | Some _ => true
  | None => false
  end.

(** The [Map] of the rate limiter, in insertion order: [get] and [set]. *)
Fixpoint mapGet (k : string) (m : list (string * N)) : option N :=
  match m with
  | [] => None
  | (k', v) :: m' => if String.eqb k' k then Some v else mapGet k m'
  end.

Fixpoint mapSet (k : string) (v : N) (m : list (string * N)) : list (string * N) :=
  match m with
  | [] => [(k, v)]
  | (k', v') :: m' =>
      if String.eqb k' k then (k', v) :: m' else (k', v') :: mapSet k v m'
  end.

(** The key of an address in a window: [`${ip}:${window}`]. *)
Definition rateKey (ip window : string) : string :=
  String.append ip (String.append ":" window).

(** [rateLimit(ip, limit, windowMs)] at clock reading [nowMs] (for a
    positive [windowMs]): whether the request is let through, and the table
    afterwards. *)
Definition rateLimit (nowMs : N) (rateLimits : list (string * N))
    (ip : string) (limit windowMs : N) : bool * list (string * N) :=
  let window := numberToString (nowMs / windowMs) in
  let key := rateKey ip window in
  let count := default 0 (mapGet key rateLimits) + 1 in
  let rateLimits1 := mapSet key count rateLimits in
  if limit <? count then (false, rateLimits1)
  else
    (* Cleanup old keys *)
    (true,
     if 10000 <? N.of_nat (length rateLimits1)
     then filter (fun kv => includes kv.1 window = true) rateLimits1
     else rateLimits1).

(** A series of requests, each with its address and clock reading, under
    one limit and window length. *)
Fixpoint rateLimitAll (limit windowMs : N) (requests : list (string * N))
    (rateLimits : list (string * N)) : list bool * list (string * N) :=
  match requests with
  | [] => ([], rateLimits)
  | (ip, nowMs) :: rest =>
      let '(ok, m1) := rateLimit nowMs rateLimits ip limit windowMs in
      let '(oks, m2) := rateLimitAll limit windowMs rest m1 in
      (ok :: oks, m2)
  end.

(** How many of the requests come from [ip]. *)
Definition requestsFrom (ip : string) (requests : list (string * N)) : N :=
  N.of_nat (length (List.filter (fun rq => String.eqb rq.1 ip) requests)).

(** The wallet of the score signer: [new ethers.Wallet(SCORE_SIGNER_PK)].
    [signMessage] signs the Ethereum signed-message hash of the 32 bytes it
    is given. *)
Class Wallet : Type := {
  walletAddress : address;
  signMessage   : bytes32 -> list Byte.byte
}.

(** What [signScore] returns. *)
Record SignedScore : Type := mkSigned {
  signed_sessionId : bytes32;
  signed_score     : N;
  signed_round     : N;
  signed_kills     : N;
  signedAt         : N;
  signature        : list Byte.byte;
  mock             : bool
}.

Section Signing.
Context `{SignatureScheme} `{Wallet}.

(** [signScore()] at clock reading [nowMs]; [randomBytes] is what
    [crypto.randomBytes(65)] draws in mock mode. Returns the payload and the
    session, whose [scoreVerified] flag is set when the payload is signed.
    The exceptions [ethers] raises on values that are not [uint256] are not
    modelled: [score], [round] and [kills] are naturals here. *)
Definition signScore (chainReady : bool) (randomBytes : list Byte.byte) (nowMs : N)
    (s : GameSession) : SignedScore * GameSession :=
  if negb chainReady then
    (mkSigned (sessionId s) (score s) (round s) (kills s) (nowMs / 1000)
              randomBytes true, s)
  else
    let signedAt_ := nowMs / 1000 in
    let msgHash := keccak256_packed (agentAddress s) (score s) (round s) (kills s)
                                    (sessionId s) signedAt_ CHAIN_ID in
    let signature_ := signMessage msgHash in
    (mkSigned (sessionId s) (score s) (round s) (kills s) signedAt_ signature_ false,
     mkSession (sessionId s) (agentAddress s) (agentId s) (isAgent s) (startTime s)
               (lastAction s) (gameState s) (actionQueue s) (score s) (kills s)
               (round s) (alive s) true).

(** The answers of [POST /agent/submit-score]. *)
Inductive SubmitScoreResponse : Type :=
| NotFound                                  (* 404 session not found *)
| NoScore                                   (* 400 no score to submit *)
| Signed (payload : SignedScore)            (* the calldata for [submitScore] *)
| Mocked (payload : SignedScore).

(** [POST /agent/submit-score] over the table of active sessions: the
    response and the table afterwards. *)
Definition submitScoreRoute (chainReady : bool) (randomBytes : list Byte.byte)
    (nowMs : N) (activeSessions : gmap N GameSession) (sessionId_ : bytes32)
  : SubmitScoreResponse * gmap N GameSession :=
  match activeSessions !! sessionId_ with
  | None => (NotFound, activeSessions)
  | Some session =>
      if score session =? 0 then (NoScore, activeSessions)
      else
        let '(signed, session') := signScore chainReady randomBytes nowMs session in
        let sessions' := <[sessionId_ := session']> activeSessions in
        if chainReady && negb (mock signed) then (Signed signed, sessions')
        else (Mocked signed, sessions')
  end.

End Signing.

(** *** The leaderboard routes

    The three routes read the boards with [getAgentLeaderboard] and
    [getHumanLeaderboard] (the reads are taken to succeed); [ethers] returns
    every [uint256] field of an entry as a [BigInt]. *)

(** [entries.filter(e => e.player !== ethers.ZeroAddress)], the expression
    the three routes start from. *)
Definition nonZeroEntries (entries : list ScoreEntry) : list ScoreEntry :=
  filter (fun e => ClawDugGame.player e <> 0) entries.

(** [Number(n)] for a [BigInt] [n >= 0]: the nearest double, a tie going to
    the even significand. Below 2^53 the value is [n] itself; from there on
    53 significant bits are kept. *)
Definition toNumber (n : N) : N :=
  if n <? 2 ^ 53 then n
  else
    let k := N.log2 n - 52 in
    let q := n / 2 ^ k in
    let r := n mod 2 ^ k in
    let half := 2 ^ (k - 1) in
    let q' := if (half <? r) || ((r =? half) && N.odd q) then q + 1 else q in
    q' * 2 ^ k.

(** An entry as [fmt] shows it. *)
Record ShownEntry : Type := mkShown {
  shown_player    : address;
  shown_score     : N;
  shown_round     : N;
  shown_kills     : N;
  shown_isAgent   : bool;
  shown_timestamp : N
}.

(** The object [fmt] makes of an entry: every number through [Number];
    the time stamp is [Number(e.timestamp) * 1000], a product of doubles. *)
Definition showEntry (e : ScoreEntry) : ShownEntry :=
  mkShown (ClawDugGame.player e)
          (toNumber (ClawDugGame.score e))
          (toNumber (ClawDugGame.round e))
          (toNumber (ClawDugGame.kills e))
          (ClawDugGame.isAgent e)
          (toNumber (toNumber (ClawDugGame.timestamp e) * 1000)).

(** The [fmt] of [GET /leaderboard]: the filter, then the map. *)
Definition fmt (entries : list ScoreEntry) : list ShownEntry :=
  showEntry <$> nonZeroEntries entries.

(** What a leaderboard route answers: a body, the mock data of a server
    without a chain connection, or status 500 from its [catch]. *)
Inductive RouteAnswer (A : Type) : Type :=
| Answer (body : A)
| MockAnswer
| ServerError.
Arguments Answer {A} body.
Arguments MockAnswer {A}.
Arguments ServerError {A}.

(** [GET /leaderboard]: the [agents] and [humans] fields of the body (the
    [epoch] summary beside them is not modelled). *)
Definition leaderboardRoute (chainReady : bool) (w : World)
  : RouteAnswer (list ShownEntry * list ShownEntry) :=
  if negb chainReady then MockAnswer
  else Answer (fmt (agentLeaderboard (game w)), fmt (humanLeaderboard (game w))).

(** [res.json({ ok: true, entries: board.filter(...) })] of the two category
    routes: the filtered entries are passed on as [ethers] returned them,
    and [JSON.stringify] throws a [TypeError] on the first [BigInt] it meets,
    so the body can be sent only when no entry is left. *)
Definition categoryRoute (chainReady : bool) (board : list ScoreEntry)
  : RouteAnswer (list ScoreEntry) :=
  if negb chainReady then MockAnswer
  else
    match nonZeroEntries board with
    | [] => Answer []
    | _ :: _ => ServerError
    end.

(** [GET /leaderboard/agents] *)
Definition leaderboardAgentsRoute (chainReady : bool) (w : World)
  : RouteAnswer (list ScoreEntry) :=
  categoryRoute chainReady (agentLeaderboard (game w)).

(** [GET /leaderboard/humans] *)
Definition leaderboardHumansRoute (chainReady : bool) (w : World)
  : RouteAnswer (list ScoreEntry) :=
  categoryRoute chainReady (humanLeaderboard (game w)).

End AgentApi.

(** ** More sample data *)

(** The fees are 10 and 5 units and the agent has approved 5 units: the
    world just before the agent's paid game of [oddPool]. *)
Definition feeReady : World :=
  @runAll sampleScheme
    [ (1, 11, SetFees 10 5);
      (50, 12, TokenApprove 100 5) ] playedOnce.

(** After [oddPool] the human at address 60 has played too (score 70,
    session 1002, no fee paid): both categories have a winner and the prize
    pool holds 3 units. *)
Definition bothWinners : World :=
  @runAll sampleScheme [ (60, 14, SubmitScore 70 0 0 1002 14 signedBy7) ] oddPool.

(** [bothWinners] settled after the end of the first epoch. *)
Definition settledPaid : World :=
  @runAll sampleScheme [ (60, 86401, SettleEpoch) ] bothWinners.

(** The agent has approved the default agent fee without holding any
    token. *)
Definition approvedOnly : World :=
  @runAll sampleScheme [ (50, 4, TokenApprove 100 (5 * 10 ^ 18)) ] wired.

(** A second agent, at address 51, has registered with agent id 78. *)
Definition twoAgents : World :=
  @runAll sampleScheme [ (51, 4, RegistryRegister 78 "bot2" true) ] wired.

(** A sample wallet for the toy signature scheme: the score signer at
    address 7, whose signature is the one byte 7. *)
Definition sampleWallet : AgentApi.Wallet := {|
  AgentApi.walletAddress := 7;
  AgentApi.signMessage := fun _ => signedBy7
|}.

(** A session of the agent at address 50 with session id 1000, score 100
    and 3 kills, and the table that holds it. *)
Definition sampleSession : AgentApi.GameSession :=
  AgentApi.mkSession 1000 50 "bot" true 0 0 AgentApi._initialState [] 100 3 1 true false.

Definition sampleSessions : gmap N AgentApi.GameSession := {[ 1000 := sampleSession ]}.


(** * Proofs *)

Ltac Zify.zify_post_hook ::= Z.to_euclidean_division_equations.

(** ** The result monad and checked arithmetic *)

Lemma bind_Ok {A B : Type} (r : result A) (k : A -> result B) (b : B) :
  bind r k = Ok b -> exists a, r = Ok a /\ k a = Ok b.
Proof. destruct r as [a|f]; simpl; [eauto | discriminate]. Qed.

Lemma bind_Err {A B : Type} (r : result A) (k : A -> result B) (f : Failure) :
  bind r k = Err f -> r = Err f \/ exists a, r = Ok a /\ k a = Err f.
Proof. destruct r as [a|f']; simpl; [eauto | intros [= ->]; auto]. Qed.

Lemma require_Ok (c : bool) (s : string) (u : unit) : require c s = Ok u -> c = true.
Proof. destruct c; [reflexivity | discriminate]. Qed.

Lemma require_true (s : string) : require true s = Ok tt.
Proof. reflexivity. Qed.

Lemma require_Err (c : bool) (s : string) (f : Failure) :
  require c s = Err f -> c = false /\ f = Revert s.
Proof. destruct c; [discriminate | intros [= <-]; auto]. Qed.

Lemma checked_add_Ok (a b c : N) :
  checked_add a b = Ok c -> c = a + b /\ a + b <= MAX_UINT256.
Proof.
  unfold checked_add. destruct (N.leb_spec (a + b) MAX_UINT256); [|discriminate].
  intros [= <-]; auto.
Qed.

Lemma checked_add_fits (a b : N) :
  a + b <= MAX_UINT256 -> checked_add a b = Ok (a + b).
Proof. intros Hle. unfold checked_add. apply N.leb_le in Hle. now rewrite Hle. Qed.

Lemma checked_add_Err (a b : N) (f : Failure) :
  checked_add a b = Err f -> f = Panic /\ MAX_UINT256 < a + b.
Proof.
  unfold checked_add. destruct (N.leb_spec (a + b) MAX_UINT256); [discriminate|].
  intros [= <-]; auto.
Qed.

Lemma checked_mul_Ok (a b c : N) :
  checked_mul a b = Ok c -> c = a * b /\ a * b <= MAX_UINT256.
Proof.
  unfold checked_mul. destruct (N.leb_spec (a * b) MAX_UINT256); [|discriminate].
  intros [= <-]; auto.
Qed.

Lemma checked_mul_fits (a b : N) :
  a * b <= MAX_UINT256 -> checked_mul a b = Ok (a * b).
Proof. intros Hle. unfold checked_mul. apply N.leb_le in Hle. now rewrite Hle. Qed.

Lemma checked_mul_Err (a b : N) (f : Failure) :
  checked_mul a b = Err f -> f = Panic /\ MAX_UINT256 < a * b.
Proof.
  unfold checked_mul. destruct (N.leb_spec (a * b) MAX_UINT256); [discriminate|].
  intros [= <-]; auto.
Qed.

(** Case analysis on a failed chain of binds, for goals that say which
    failure it cannot be. *)
Ltac which_failure :=
  repeat match goal with
  | H : bind _ _ = Err _ |- _ =>
      let a := fresh "a" in
      let E := fresh "E" in
      apply bind_Err in H; destruct H as [H | (a & E & H)]
  | H : require _ _ = Err _ |- _ =>
      apply require_Err in H; destruct H as [_ ->]; discriminate
  | H : checked_add _ _ = Err _ |- _ =>
      apply checked_add_Err in H; destruct H as [-> _]; discriminate
  | H : checked_mul _ _ = Err _ |- _ =>
      apply checked_mul_Err in H; destruct H as [-> _]; discriminate
  | H : (if ?c then _ else _) = Err _ |- _ => destruct c
  | H : Err _ = Err _ |- _ => injection H as <-; discriminate
  | H : Ok _ = Err _ |- _ => discriminate H
  end.

(** Break a successful chain of binds into its steps. *)
Ltac inv_ok :=
  repeat match goal with
  | H : bind _ _ = Ok _ |- _ =>
      let a := fresh "a" in
      let E := fresh "E" in
      apply bind_Ok in H; destruct H as (a & E & H)
  | H : require _ _ = Ok _ |- _ => apply require_Ok in H
  | H : checked_add _ _ = Ok _ |- _ =>
      let L := fresh "L" in apply checked_add_Ok in H; destruct H as [H L]
  | H : checked_mul _ _ = Ok _ |- _ =>
      let L := fresh "L" in apply checked_mul_Ok in H; destruct H as [H L]
  | H : Ok _ = Ok _ |- _ => injection H as H
  | H : Err _ = Ok _ |- _ => discriminate H
  end.

Section Properties.
Context `{SignatureScheme}.

Lemma submitScore_steps sender now w sc rd kl sid sAt sig :
  submitScore sender now w sc rd kl sid sAt sig =
  do _ <- verifySubmission sender now w sc rd kl sid sAt sig;
  do w1 <- enterSubmission sender w sc sid;
  do w2 <- _mintGameplayRewards w1 sender kl rd;
  Ok (finishSubmit sender now w2 (isAgentOf w sender) sc rd kl sid).
Proof.
  unfold submitScore, verifySubmission, enterSubmission, payEntryFee, entryFee,
    isAgentOf.
  destruct (require (negb (sessionUsed (game w) sid)) _); [|reflexivity].
  cbn [bind]. destruct (checked_add sAt 300) as [deadline|]; [|reflexivity].
  cbn [bind]. destruct (require (now <=? deadline) _); [|reflexivity].
  cbn [bind]. destruct (recover _ sig) as [recovered|]; [|reflexivity].
  cbn [bind].
  destruct (require (recovered =? scoreSigner (game w)) _); [|reflexivity].
  cbn [bind with_game registry game dug this].
  destruct (_ <=? DugToken.allowance _ _ _).
  - destruct (DugToken.transferFrom _ _ _ _ _); [|reflexivity].
    cbn [bind]. destruct (_distributeEntryFee _ _); [|reflexivity].
    cbn [bind with_game with_dug registry game dug this].
    destruct (AgentRegistry.recordGame _ _ _ _); [|reflexivity].
    cbn [bind]. destruct (_mintGameplayRewards _ _ _ _); reflexivity.
  - cbn [bind with_game registry game dug this].
    destruct (AgentRegistry.recordGame _ _ _ _); [|reflexivity].
    cbn [bind]. destruct (_mintGameplayRewards _ _ _ _); reflexivity.
Qed.


(** ** Entry-fee split *)

Lemma distributeEntryFee_Ok g fee g' :
  _distributeEntryFee g fee = Ok g' ->
  let e := getEpoch g (currentEpoch g) in
  g' = setEpoch g (currentEpoch g)
         (mkEpoch (id e) (startTime e) (endTime e)
            (prizePool e + fee * PRIZE_POOL_BPS / BPS_DENOM)
            (burnAmount e + fee * BURN_BPS / BPS_DENOM)
            (treasuryAmount e + fee * TREASURY_BPS / BPS_DENOM)
            (settled e) (humanWinner e) (agentWinner e)
            (humanTopScore e) (agentTopScore e)).
Proof.
  unfold _distributeEntryFee. intros Hd. inv_ok. subst. reflexivity.
Qed.

Lemma getEpoch_setEpoch g k e : getEpoch (setEpoch g k e) k = e.
Proof. unfold getEpoch, setEpoch. simpl. now rewrite lookup_insert_eq. Qed.

Lemma getEpoch_setEpoch_ne g k k' e :
  k <> k' -> getEpoch (setEpoch g k e) k' = getEpoch g k'.
Proof. intros Hne. unfold getEpoch, setEpoch. simpl. now rewrite lookup_insert_ne. Qed.

Lemma splitDust_bounds fee :
  fee * PRIZE_POOL_BPS / BPS_DENOM + fee * BURN_BPS / BPS_DENOM
    + fee * TREASURY_BPS / BPS_DENOM + splitDust fee = fee
  /\ splitDust fee <= 2
  /\ (splitDust fee = 0 <-> fee mod 10 = 0).
Proof.
  unfold splitDust, PRIZE_POOL_BPS, BURN_BPS, TREASURY_BPS, BPS_DENOM. lia.
Qed.

Lemma distributeEntryFee_pools g fee g' :
  _distributeEntryFee g fee = Ok g' ->
  let e := getEpoch g (currentEpoch g) in
  let e' := getEpoch g' (currentEpoch g') in
  currentEpoch g' = currentEpoch g
  /\ prizePool e' = prizePool e + fee * PRIZE_POOL_BPS / BPS_DENOM
  /\ burnAmount e' = burnAmount e + fee * BURN_BPS / BPS_DENOM
  /\ treasuryAmount e' = treasuryAmount e + fee * TREASURY_BPS / BPS_DENOM.
Proof.
  intros Hd. apply distributeEntryFee_Ok in Hd. cbv zeta in *. subst g'.
  cbn [currentEpoch setEpoch]. rewrite getEpoch_setEpoch. cbn. auto.
Qed.

Lemma distributeAll_pools g fees g' :
  distributeAll g fees = Ok g' ->
  currentEpoch g' = currentEpoch g
  /\ poolSum (getEpoch g' (currentEpoch g')) + sumN (splitDust <$> fees)
     = poolSum (getEpoch g (currentEpoch g)) + sumN fees.
Proof.
  revert g. induction fees as [|fee rest IH]; intros g Hd; simpl in Hd.
  - injection Hd as <-. simpl. split; [reflexivity | lia].
  - apply bind_Ok in Hd. destruct Hd as (g1 & Hfee & Hrest).
    apply IH in Hrest. destruct Hrest as [Hcur Hsum].
    apply distributeEntryFee_pools in Hfee. cbv zeta in Hfee.
    destruct Hfee as (Hcur1 & Hp & Hb & Ht).
    split; [congruence|].
    pose proof (splitDust_bounds fee) as (Hdust & _ & _).
    unfold poolSum in *. rewrite Hp, Hb, Ht in Hsum.
    cbn [fmap list_fmap sumN foldr]. fold (sumN (splitDust <$> rest)).
    fold (sumN rest). lia.
Qed.

(** C3, as amended. Each fee [F] the entry-fee split processes increases
    the three pools of the current epoch by [F*7000/10000], [F*1000/10000]
    and [F*2000/10000], each rounded down. The increments sum to [F] less
    the rounding dust, which is at most 2 units and is zero exactly when
    [F] is a multiple of 10; hence an epoch's
    [prizePool + burnAmount + treasuryAmount] never exceeds the sum of the
    fees allocated to it, and equals it when every fee is a multiple
    of 10. *)
Theorem fee_split_accounting :
  (forall g fee g',
      _distributeEntryFee g fee = Ok g' ->
      let e := getEpoch g (currentEpoch g) in
      let e' := getEpoch g' (currentEpoch g') in
      prizePool e' = prizePool e + fee * 7000 / 10000
      /\ burnAmount e' = burnAmount e + fee * 1000 / 10000
      /\ treasuryAmount e' = treasuryAmount e + fee * 2000 / 10000
      /\ poolSum e' + splitDust fee = poolSum e + fee
      /\ splitDust fee <= 2
      /\ (poolSum e' = poolSum e + fee <-> fee mod 10 = 0))
  /\ (forall g fees g',
      distributeAll g fees = Ok g' ->
      let e := getEpoch g (currentEpoch g) in
      let e' := getEpoch g' (currentEpoch g') in
      poolSum e' + sumN (splitDust <$> fees) = poolSum e + sumN fees
      /\ poolSum e' <= poolSum e + sumN fees
      /\ (Forall (fun fee => fee mod 10 = 0) fees ->
          poolSum e' = poolSum e + sumN fees)).
Proof.
  split.
  - intros g fee g' Hd. cbv zeta.
    apply distributeEntryFee_pools in Hd. cbv zeta in Hd.
    destruct Hd as (_ & Hp & Hb & Ht).
    pose proof (splitDust_bounds fee) as (Hdust & Hle & Hzero).
    unfold PRIZE_POOL_BPS, BURN_BPS, TREASURY_BPS, BPS_DENOM in *.
    unfold poolSum. rewrite Hp, Hb, Ht.
    repeat split; try reflexivity; try lia.
  - intros g fees g' Hd. cbv zeta.
    apply distributeAll_pools in Hd. destruct Hd as [_ Hsum].
    split; [exact Hsum|]. split; [lia|].
    intros Hall.
    assert (sumN (splitDust <$> fees) = 0) as Hz.
    { clear Hsum. induction Hall as [|fee rest Hfee _ IH]; [reflexivity|].
      cbn [fmap list_fmap sumN foldr]. fold (sumN (splitDust <$> rest)).
      pose proof (splitDust_bounds fee) as (_ & _ & Hzero).
      apply Hzero in Hfee. lia. }
    lia.
Qed.

(** ** Verification: steps 1 and 2 of [submitScore] *)

Lemma submitScore_verify_Err sender now w sc rd kl sid sAt sig f :
  verifySubmission sender now w sc rd kl sid sAt sig = Err f ->
  submitScore sender now w sc rd kl sid sAt sig = Err f.
Proof. intros Hv. rewrite submitScore_steps, Hv. reflexivity. Qed.

Lemma verify_replayed sender now w sc rd kl sid sAt sig :
  sessionUsed (game w) sid = true ->
  verifySubmission sender now w sc rd kl sid sAt sig = Err ReplayedSession.
Proof. intros Hu. unfold verifySubmission. rewrite Hu. reflexivity. Qed.

(** What the checks return for a session not yet consumed. *)
Lemma verify_fresh_session sender now w sc rd kl sid sAt sig :
  sessionUsed (game w) sid = false ->
  verifySubmission sender now w sc rd kl sid sAt sig =
  if MAX_UINT256 <? sAt + 300 then Err Panic
  else if sAt + 300 <? now then Err ExpiredSignature
  else match recover (toEthSignedMessageHash
               (keccak256_packed sender sc rd kl sid sAt (chainid w))) sig with
       | Err f => Err f
       | Ok a => if a =? scoreSigner (game w) then Ok tt else Err InvalidSignature
       end.
Proof.
  intros Hu. unfold verifySubmission, checked_add. rewrite Hu. cbn [negb require bind].
  rewrite (N.ltb_antisym (sAt + 300) MAX_UINT256).
  destruct (sAt + 300 <=? MAX_UINT256); cbn [negb bind]; [|reflexivity].
  rewrite (N.ltb_antisym now (sAt + 300)).
  destruct (now <=? sAt + 300); cbn [negb require bind]; [|reflexivity].
  destruct (recover _ sig) as [a|f]; cbn [bind]; [|reflexivity].
  destruct (a =? scoreSigner (game w)); reflexivity.
Qed.

Lemma verify_Ok sender now w sc rd kl sid sAt sig u :
  verifySubmission sender now w sc rd kl sid sAt sig = Ok u ->
  sessionUsed (game w) sid = false
  /\ now <= sAt + 300 /\ sAt + 300 <= MAX_UINT256
  /\ recover (toEthSignedMessageHash
        (keccak256_packed sender sc rd kl sid sAt (chainid w))) sig
     = Ok (scoreSigner (game w)).
Proof.
  intros Hv. destruct (sessionUsed (game w) sid) eqn:Hu.
  - rewrite verify_replayed in Hv by assumption. discriminate.
  - rewrite verify_fresh_session in Hv by assumption.
    destruct (N.ltb_spec MAX_UINT256 (sAt + 300)); [discriminate|].
    destruct (N.ltb_spec (sAt + 300) now); [discriminate|].
    destruct (recover _ sig) as [a|f]; [|discriminate].
    destruct (N.eqb_spec a (scoreSigner (game w))); [|discriminate].
    subst a. auto.
Qed.

Lemma verify_passes sender now w sc rd kl sid sAt sig :
  sessionUsed (game w) sid = false ->
  now <= sAt + 300 -> sAt + 300 <= MAX_UINT256 ->
  recover (toEthSignedMessageHash
     (keccak256_packed sender sc rd kl sid sAt (chainid w))) sig
  = Ok (scoreSigner (game w)) ->
  verifySubmission sender now w sc rd kl sid sAt sig = Ok tt.
Proof.
  intros Hu Hnow Hmax Hrec. rewrite verify_fresh_session by assumption.
  destruct (N.ltb_spec MAX_UINT256 (sAt + 300)); [lia|].
  destruct (N.ltb_spec (sAt + 300) now); [lia|].
  rewrite Hrec, N.eqb_refl. reflexivity.
Qed.

(** ** The token *)

Lemma MAX_SUPPLY_fits : DugToken.MAX_SUPPLY <= MAX_UINT256.
Proof. unfold DugToken.MAX_SUPPLY, MAX_UINT256. lia. Qed.

Lemma mint_Ok s t to amount t' :
  DugToken.mint s t to amount = Ok t' ->
  s = DugToken.gameContract t
  /\ DugToken.totalSupply t + amount <= DugToken.MAX_SUPPLY
  /\ to <> 0
  /\ t' = DugToken.mk (DugToken.totalSupply t + amount)
            (<[to := DugToken.balanceOf t to + amount]> (DugToken.balances t))
            (DugToken.allowances t) (DugToken.gameContract t) (DugToken.owner t).
Proof.
  unfold DugToken.mint, DugToken._mint. intros Hm. inv_ok.
  destruct (N.eqb_spec to 0); [discriminate|]. inv_ok. subst.
  apply N.eqb_eq in E. apply N.leb_le in E1. auto.
Qed.

Lemma mint_succeeds s t to amount :
  s = DugToken.gameContract t ->
  DugToken.totalSupply t + amount <= DugToken.MAX_SUPPLY ->
  to <> 0 ->
  DugToken.mint s t to amount =
  Ok (DugToken.mk (DugToken.totalSupply t + amount)
        (<[to := DugToken.balanceOf t to + amount]> (DugToken.balances t))
        (DugToken.allowances t) (DugToken.gameContract t) (DugToken.owner t)).
Proof.
  intros -> Hle Hto. pose proof MAX_SUPPLY_fits.
  unfold DugToken.mint, DugToken._mint.
  rewrite N.eqb_refl. cbn [require bind].
  rewrite checked_add_fits by lia. cbn [bind].
  apply N.leb_le in Hle. rewrite Hle. cbn [require bind].
  apply N.eqb_neq in Hto. rewrite Hto. reflexivity.
Qed.

Lemma mint_exceeds s t to amount :
  s = DugToken.gameContract t ->
  DugToken.MAX_SUPPLY < DugToken.totalSupply t + amount ->
  DugToken.totalSupply t + amount <= MAX_UINT256 ->
  DugToken.mint s t to amount = Err SupplyExceeded.
Proof.
  intros -> Hgt Hfit. unfold DugToken.mint.
  rewrite N.eqb_refl. cbn [require bind].
  rewrite checked_add_fits by lia. cbn [bind].
  apply N.leb_gt in Hgt. rewrite Hgt. reflexivity.
Qed.

Lemma mint_over_cap_fails s t to amount :
  DugToken.MAX_SUPPLY < DugToken.totalSupply t + amount ->
  exists f, DugToken.mint s t to amount = Err f.
Proof.
  intros Hgt. destruct (DugToken.mint s t to amount) as [t'|f] eqn:Hm; [|eauto].
  apply mint_Ok in Hm. lia.
Qed.

Lemma burn_Ok s t value t' :
  DugToken.burn s t value = Ok t' ->
  value <= DugToken.balanceOf t s
  /\ t' = DugToken.mk (DugToken.totalSupply t - value)
            (<[s := DugToken.balanceOf t s - value]> (DugToken.balances t))
            (DugToken.allowances t) (DugToken.gameContract t) (DugToken.owner t).
Proof.
  unfold DugToken.burn. destruct (s =? 0); [discriminate|].
  destruct (N.ltb_spec (DugToken.balanceOf t s) value); [discriminate|].
  intros [= <-]. auto.
Qed.

Lemma transfer_supply t from to value t' :
  DugToken._transfer t from to value = Ok t' ->
  DugToken.totalSupply t' = DugToken.totalSupply t
  /\ DugToken.gameContract t' = DugToken.gameContract t.
Proof.
  unfold DugToken._transfer.
  destruct (from =? 0); [discriminate|]. destruct (to =? 0); [discriminate|].
  destruct (_ <? value); [discriminate|]. intros [= <-]. auto.
Qed.

Lemma transferFrom_supply s t from to value t' :
  DugToken.transferFrom s t from to value = Ok t' ->
  DugToken.totalSupply t' = DugToken.totalSupply t
  /\ DugToken.gameContract t' = DugToken.gameContract t.
Proof.
  unfold DugToken.transferFrom. intros Ht. apply bind_Ok in Ht.
  destruct Ht as (t1 & Hspend & Hmove). apply transfer_supply in Hmove.
  assert (DugToken.totalSupply t1 = DugToken.totalSupply t
          /\ DugToken.gameContract t1 = DugToken.gameContract t) as [E1 E2].
  { destruct (_ <? MAX_UINT256); [|injection Hspend as <-; auto].
    destruct (_ <? value); [discriminate|].
    destruct (from =? 0); [discriminate|]. destruct (s =? 0); [discriminate|].
    injection Hspend as <-. auto. }
  destruct Hmove. split; congruence.
Qed.

(** ** Steps 3 to 9 of [submitScore] *)

Lemma payEntryFee_Ok sender w w' :
  payEntryFee sender w = Ok w' ->
  (DugToken.allowance (dug w) sender (this w) < entryFee w sender /\ w' = w)
  \/ (entryFee w sender <= DugToken.allowance (dug w) sender (this w)
      /\ exists t g',
          DugToken.transferFrom (this w) (dug w) sender (this w) (entryFee w sender)
          = Ok t
          /\ _distributeEntryFee (game w) (entryFee w sender) = Ok g'
          /\ w' = with_game (with_dug w t) g').
Proof.
  unfold payEntryFee. cbv zeta.
  destruct (N.leb_spec (entryFee w sender) (DugToken.allowance (dug w) sender (this w))).
  - intros Hp. inv_ok. subst. right. eauto 6.
  - intros [= <-]. left. auto.
Qed.

Lemma payEntryFee_skipped sender w :
  DugToken.allowance (dug w) sender (this w) < entryFee w sender ->
  payEntryFee sender w = Ok w.
Proof.
  intros Hlt. unfold payEntryFee. cbv zeta.
  apply N.leb_gt in Hlt. rewrite Hlt. reflexivity.
Qed.

Lemma recordGame_Ok s r p sc r' :
  AgentRegistry.recordGame s r p sc = Ok r' ->
  s = AgentRegistry.owner r /\ AgentRegistry.owner r' = AgentRegistry.owner r.
Proof.
  unfold AgentRegistry.recordGame.
  destruct (N.eqb_spec s (AgentRegistry.owner r)); [|discriminate].
  cbn [negb]. intros Hr. inv_ok. subst. auto.
Qed.

Lemma recordGame_succeeds s r p sc :
  s = AgentRegistry.owner r ->
  AgentRegistry.gamesPlayed (AgentRegistry.getProfile r p) + 1 <= MAX_UINT256 ->
  AgentRegistry.totalScore (AgentRegistry.getProfile r p) + sc <= MAX_UINT256 ->
  exists r', AgentRegistry.recordGame s r p sc = Ok r'.
Proof.
  intros -> Hg Ht. unfold AgentRegistry.recordGame.
  rewrite N.eqb_refl. cbn [negb]. cbv zeta.
  rewrite !checked_add_fits by assumption. cbn [bind]. eauto.
Qed.

Lemma mintGameplayRewards_Ok w p kl rd w' :
  _mintGameplayRewards w p kl rd = Ok w' ->
  exists total, gameplayReward kl rd = Ok total
  /\ ((total = 0 /\ w' = w)
      \/ (0 < total /\ exists t, DugToken.mint (this w) (dug w) p total = Ok t
          /\ w' = emit (with_dug w t) (RewardMinted p total "gameplay"))).
Proof.
  unfold _mintGameplayRewards. intros Hm. apply bind_Ok in Hm.
  destruct Hm as (total & Hr & Hm). exists total. split; [assumption|].
  destruct (N.ltb_spec 0 total).
  - right. inv_ok. subst. eauto.
  - left. injection Hm as <-. split; [lia | reflexivity].
Qed.

Lemma gameplayReward_Ok kl rd total :
  gameplayReward kl rd = Ok total -> total = rewardAmount kl rd.
Proof.
  unfold gameplayReward, rewardAmount. intros Hg.
  apply bind_Ok in Hg. destruct Hg as (k & Hk & Hg).
  apply bind_Ok in Hg. destruct Hg as (r & Hr & Hg).
  apply bind_Ok in Hg. destruct Hg as (t0 & H0 & Hg).
  apply bind_Ok in Hg. destruct Hg as (t1 & H1 & Hg).
  apply bind_Ok in Hg. destruct Hg as (t2 & H2 & Hg).
  apply bind_Ok in Hg. destruct Hg as (t3 & H3 & Hg).
  injection Hg as <-.
  apply checked_mul_Ok in Hk, Hr. apply checked_add_Ok in H0.
  destruct Hk as [-> _], Hr as [-> _], H0 as [-> _].
  destruct (5 <=? rd); [apply checked_add_Ok in H1; destruct H1 as [-> _]
                       | injection H1 as <-];
  (destruct (10 <=? rd); [apply checked_add_Ok in H2; destruct H2 as [-> _]
                         | injection H2 as <-]);
  (destruct (20 <=? rd); [apply checked_add_Ok in H3; destruct H3 as [-> _]
                         | injection H3 as <-]); lia.
Qed.

Lemma gameplayReward_fits kl rd :
  rewardAmount kl rd <= MAX_UINT256 ->
  gameplayReward kl rd = Ok (rewardAmount kl rd).
Proof.
  unfold gameplayReward, rewardAmount. intros Hfit.
  assert (REWARD_MILESTONE * 2 = 100000000000000000000) as E2 by reflexivity.
  assert (REWARD_MILESTONE * 5 = 250000000000000000000) as E5 by reflexivity.
  rewrite E2, E5 in *.
  rewrite !checked_mul_fits by (destruct (5 <=? rd), (10 <=? rd), (20 <=? rd); lia).
  cbn [bind].
  rewrite checked_add_fits by (destruct (5 <=? rd), (10 <=? rd), (20 <=? rd); lia).
  cbn [bind].
  destruct (5 <=? rd), (10 <=? rd), (20 <=? rd); cbn [bind];
    rewrite ?checked_add_fits by lia; cbn [bind];
    rewrite ?checked_add_fits by lia; cbn [bind];
    rewrite ?checked_add_fits by lia; cbn [bind]; f_equal; lia.
Qed.

(** ** The leaderboard *)

Lemma lbAt_insert (lb : list ScoreEntry) (i j : nat) (e : ScoreEntry) :
  (i < length lb)%nat ->
  lbAt (<[i := e]> lb) j = if (j =? i)%nat then e else lbAt lb j.
Proof.
  intros Hi. unfold lbAt. destruct (Nat.eqb_spec j i) as [->|Hne].
  - now rewrite list_lookup_insert_eq.
  - now rewrite list_lookup_insert_ne by congruence.
Qed.

Lemma lbAt_beyond (lb : list ScoreEntry) (i : nat) :
  (length lb <= i)%nat -> lbAt lb i = zeroEntry.
Proof. intros Hi. unfold lbAt. now rewrite lookup_ge_None_2. Qed.

Lemma lbAt_lookup (lb : list ScoreEntry) (i : nat) :
  (i < length lb)%nat -> lb !! i = Some (lbAt lb i).
Proof.
  intros Hi. unfold lbAt. destruct (lookup_lt_is_Some_2 lb i Hi) as [e ->].
  reflexivity.
Qed.

Lemma findInsertAt_spec lb s i n :
  let r := findInsertAt lb s i n in
  (r = N.to_nat LB_SIZE
   /\ forall x, (i <= x < i + n)%nat -> s <= score (lbAt lb x))
  \/ ((i <= r < i + n)%nat
      /\ score (lbAt lb r) < s
      /\ forall x, (i <= x < r)%nat -> s <= score (lbAt lb x)).
Proof.
  revert i. induction n as [|n IH]; intros i; cbn [findInsertAt].
  - left. split; [reflexivity | lia].
  - destruct (N.ltb_spec (score (lbAt lb i)) s) as [Hlt|Hge].
    + right. split; [lia|]. split; [assumption | lia].
    + destruct (IH (S i)) as [[Heq Hall] | (Hr & Hlt & Hall)].
      * left. split; [assumption|]. intros x Hx.
        destruct (Nat.eq_dec x i) as [->|]; [assumption | apply Hall; lia].
      * right. split; [lia|]. split; [assumption|]. intros x Hx.
        destruct (Nat.eq_dec x i) as [->|]; [assumption | apply Hall; lia].
Qed.

Lemma shiftDown_length lb k j : length (shiftDown lb k j) = length lb.
Proof.
  revert lb. induction j as [|j IH]; intros lb; cbn [shiftDown]; [reflexivity|].
  destruct (k <? S j)%nat; [|reflexivity]. now rewrite IH, length_insert.
Qed.

Lemma shiftDown_lookup lb k j idx :
  (j < length lb)%nat ->
  lbAt (shiftDown lb k j) idx =
  if (k <? idx)%nat && (idx <=? j)%nat then lbAt lb (idx - 1) else lbAt lb idx.
Proof.
  revert lb. induction j as [|j IH]; intros lb Hj; cbn [shiftDown].
  - destruct (Nat.ltb_spec k idx), (Nat.leb_spec idx 0); cbn [andb];
      try reflexivity; lia.
  - destruct (Nat.ltb_spec k (S j)) as [Hk|Hk].
    + rewrite IH by (rewrite length_insert; lia).
      rewrite !lbAt_insert by lia.
      destruct (Nat.ltb_spec k idx), (Nat.leb_spec idx j), (Nat.leb_spec idx (S j));
        cbn [andb]; try lia;
        destruct (Nat.eqb_spec (idx - 1) (S j)), (Nat.eqb_spec idx (S j));
        try lia; try reflexivity.
      subst idx. f_equal. lia.
    + destruct (Nat.ltb_spec k idx), (Nat.leb_spec idx (S j)); cbn [andb];
        try reflexivity; lia.
Qed.

Lemma updateLeaderboard_insertAtOf now lb c p s r k a sid :
  _updateLeaderboard now lb c p s r k a sid =
  match insertAtOf lb c s with
  | Some i => (<[i := entryOf p now s r k a sid]> (shiftDown lb i (N.to_nat LB_SIZE - 1)),
               [LeaderboardUpdated a i p s])
  | None => (lb, [])
  end.
Proof.
  unfold _updateLeaderboard, insertAtOf. cbv zeta.
  destruct (_ <? N.to_nat LB_SIZE)%nat; reflexivity.
Qed.

Lemma insertAtOf_spec lb c s :
  c <= LB_SIZE ->
  match insertAtOf lb c s with
  | None => c = LB_SIZE
            /\ forall x, (x < N.to_nat LB_SIZE)%nat -> s <= score (lbAt lb x)
  | Some i => (i <= N.to_nat c)%nat /\ (i < N.to_nat LB_SIZE)%nat
              /\ (forall x, (x < i)%nat -> s <= score (lbAt lb x))
              /\ ((i < N.to_nat c)%nat -> score (lbAt lb i) < s)
  end.
Proof.
  intros Hc. unfold insertAtOf. cbv zeta.
  assert ((if c <? LB_SIZE then c else LB_SIZE) = c) as ->
    by (destruct (N.ltb_spec c LB_SIZE); lia).
  pose proof (findInsertAt_spec lb s 0 (N.to_nat c)) as Hf. cbv zeta in Hf.
  unfold LB_SIZE in *.
  destruct Hf as [[Heq Hall] | (Hr & Hlt & Hall)].
  - rewrite Heq. rewrite Nat.eqb_refl. cbn [andb].
    destruct (N.ltb_spec c 20) as [Hlt|Hge].
    + destruct (Nat.ltb_spec (N.to_nat c) (N.to_nat 20)); [|lia].
      split; [lia|]. split; [lia|]. split; [|lia].
      intros x Hx. apply Hall. lia.
    + destruct (Nat.ltb_spec (N.to_nat 20) (N.to_nat 20)); [lia|].
      split; [lia|]. intros x Hx. apply Hall. lia.
  - destruct (Nat.eqb_spec (findInsertAt lb s 0 (N.to_nat c)) (N.to_nat 20));
      [lia|]. cbn [andb].
    destruct (Nat.ltb_spec (findInsertAt lb s 0 (N.to_nat c)) (N.to_nat 20)); [|lia].
    split; [lia|]. split; [lia|]. split; [|intros _; assumption].
    intros x Hx. apply Hall. lia.
Qed.

(** The board after an insertion at slot [i]: the entries before [i] stay,
    the new entry sits at [i], the entries from [i] on move down by one and
    the last one is dropped. *)
Lemma inserted_lookup lb i e idx :
  length lb = N.to_nat LB_SIZE -> (i < N.to_nat LB_SIZE)%nat ->
  lbAt (<[i := e]> (shiftDown lb i (N.to_nat LB_SIZE - 1))) idx =
  if (idx <? i)%nat then lbAt lb idx
  else if (idx =? i)%nat then e
  else if (idx <? N.to_nat LB_SIZE)%nat then lbAt lb (idx - 1)
  else zeroEntry.
Proof.
  intros Hlen Hi.
  rewrite lbAt_insert by (rewrite shiftDown_length; lia).
  rewrite shiftDown_lookup by lia.
  destruct (Nat.ltb_spec idx i), (Nat.eqb_spec idx i); try lia; try reflexivity.
  - destruct (Nat.ltb_spec i idx); [lia|]. reflexivity.
  - destruct (Nat.ltb_spec i idx); [|lia].
    destruct (Nat.leb_spec idx (N.to_nat LB_SIZE - 1)),
             (Nat.ltb_spec idx (N.to_nat LB_SIZE)); cbn [andb];
      try lia; try reflexivity.
    apply lbAt_beyond. lia.
Qed.

Lemma boardOk_mono g g' lb c :
  boardOk g lb c ->
  (forall x, sessionUsed g x = true -> sessionUsed g' x = true) ->
  boardOk g' lb c.
Proof.
  intros [Hlen Hc Htail Hsorted Hnodup Hused] Hmono.
  split; auto.
Qed.

Lemma boardOk_insert g g' now lb c p s r k a sid :
  boardOk g lb c ->
  sessionUsed g sid = false ->
  (forall x, sessionUsed g x = true -> sessionUsed g' x = true) ->
  sessionUsed g' sid = true ->
  boardOk g' (fst (_updateLeaderboard now lb c p s r k a sid))
          (if c <? LB_SIZE then c + 1 else c).
Proof.
  intros Hok Hfresh Hmono Hsid.
  rewrite updateLeaderboard_insertAtOf.
  pose proof (insertAtOf_spec lb c s (board_count _ _ _ Hok)) as Hspec.
  destruct (insertAtOf lb c s) as [i|].
  - destruct Hok as [Hlen Hc Htail Hsorted Hnodup Hused].
    destruct Hspec as (Hic & Hi & Hbefore & Hat).
    cbn [fst]. set (e := entryOf p now s r k a sid).
    assert (forall idx, lbAt (<[i := e]> (shiftDown lb i (N.to_nat LB_SIZE - 1))) idx =
              if (idx <? i)%nat then lbAt lb idx
              else if (idx =? i)%nat then e
              else if (idx <? N.to_nat LB_SIZE)%nat then lbAt lb (idx - 1)
              else zeroEntry) as Hlk
      by (intros idx; apply inserted_lookup; assumption).
    set (c' := if c <? LB_SIZE then c + 1 else c).
    assert ((N.to_nat c' <= 20)%nat /\ (N.to_nat c' <= S (N.to_nat c))%nat
            /\ (N.to_nat c <= N.to_nat c')%nat
            /\ ((N.to_nat c < 20)%nat -> N.to_nat c' = S (N.to_nat c)))
      as (Hc20 & HcS & Hcc & Hc').
    { unfold c', LB_SIZE in *. destruct (N.ltb_spec c 20); lia. }
    change (N.to_nat LB_SIZE) with 20%nat in *.
    assert (N.to_nat c <= 20)%nat as Hn by (unfold LB_SIZE in Hc; lia).
    split.
    + rewrite length_insert, shiftDown_length. assumption.
    + unfold c', LB_SIZE in *. destruct (N.ltb_spec c 20); lia.
    + intros idx Hidx. rewrite Hlk.
      destruct (Nat.ltb_spec idx i), (Nat.eqb_spec idx i), (Nat.ltb_spec idx 20);
        try lia; try reflexivity.
      apply Htail. lia.
    + intros x y Hxy Hy. rewrite !Hlk.
      destruct (Nat.ltb_spec x i), (Nat.eqb_spec x i), (Nat.ltb_spec x 20);
        destruct (Nat.ltb_spec y i), (Nat.eqb_spec y i), (Nat.ltb_spec y 20);
        try lia; subst; cbn [score e entryOf].
      * apply Hsorted; lia.
      * apply Hbefore. assumption.
      * apply Hsorted; lia.
      * assert (score (lbAt lb i) < s) by (apply Hat; lia).
        assert (score (lbAt lb (y - 1)) <= score (lbAt lb i))
          by (apply Hsorted; lia).
        lia.
      * apply Hsorted; lia.
    + intros x y Hx Hy. rewrite !Hlk.
      assert (forall z, (z < N.to_nat c)%nat -> sessionId (lbAt lb z) <> sid) as Hnew.
      { intros z Hz Heq. specialize (Hused z Hz). rewrite Heq in Hused. congruence. }
      destruct (Nat.ltb_spec x i), (Nat.eqb_spec x i), (Nat.ltb_spec x 20);
        destruct (Nat.ltb_spec y i), (Nat.eqb_spec y i), (Nat.ltb_spec y 20);
        try lia; subst; cbn [sessionId e entryOf]; intros Heq;
        try (exfalso; eapply Hnew; [|eassumption]; lia);
        try (exfalso; eapply Hnew; [|symmetry; eassumption]; lia);
        try (apply Hnodup in Heq; lia).
    + intros x Hx. rewrite Hlk.
      destruct (Nat.ltb_spec x i), (Nat.eqb_spec x i), (Nat.ltb_spec x 20);
        try lia; subst; cbn [sessionId e entryOf]; try assumption;
        apply Hmono, Hused; lia.
  - destruct Hspec as [Hfull _]. cbn [fst]. subst c.
    change (LB_SIZE <? LB_SIZE) with false. cbv iota.
    eapply boardOk_mono; eassumption.
Qed.

(** ** What each step of [submitScore] leaves alone *)

Lemma sessionUsed_markSession g sid x :
  sessionUsed (markSession g sid) x = if x =? sid then true else sessionUsed g x.
Proof.
  unfold sessionUsed, markSession. cbn [usedSessions].
  destruct (N.eqb_spec x sid) as [->|Hne].
  - now rewrite lookup_insert_eq.
  - now rewrite lookup_insert_ne by congruence.
Qed.

Lemma sessionUsed_ext g g' x :
  usedSessions g' = usedSessions g -> sessionUsed g' x = sessionUsed g x.
Proof. unfold sessionUsed. now intros ->. Qed.

Lemma enterSubmission_Ok sender w sc sid w1 :
  enterSubmission sender w sc sid = Ok w1 ->
  exists t r g1,
    w1 = mkWorld t r g1 (this w) (chainid w) (events w)
    /\ DugToken.totalSupply t = DugToken.totalSupply (dug w)
    /\ DugToken.gameContract t = DugToken.gameContract (dug w)
    /\ this w = AgentRegistry.owner (registry w)
    /\ entered (game w) sid g1.
Proof.
  unfold enterSubmission. cbv zeta. intros He.
  apply bind_Ok in He. destruct He as (w0 & Hpay & He).
  apply bind_Ok in He. destruct He as (r & Hrec & He).
  injection He as <-.
  apply recordGame_Ok in Hrec. destruct Hrec as [Hown _].
  apply payEntryFee_Ok in Hpay.
  destruct Hpay as [[_ ->] | (_ & t & g' & Ht & Hd & ->)].
  - exists (dug w), r, (markSession (game w) sid).
    cbn in *. repeat split; try assumption. left. reflexivity.
  - apply transferFrom_supply in Ht. destruct Ht as [Hs Hg].
    apply distributeEntryFee_Ok in Hd. cbv zeta in Hd.
    exists t, r, g'. cbn in *. repeat split; try assumption.
    right. eexists. exact Hd.
Qed.

Lemma currentEpoch_setEpoch g k e : currentEpoch (setEpoch g k e) = currentEpoch g.
Proof. reflexivity. Qed.

Lemma entered_frame g sid g1 :
  entered g sid g1 ->
  usedSessions g1 = <[sid := true]> (usedSessions g)
  /\ humanLeaderboard g1 = humanLeaderboard g
  /\ agentLeaderboard g1 = agentLeaderboard g
  /\ humanLBCount g1 = humanLBCount g
  /\ agentLBCount g1 = agentLBCount g
  /\ currentEpoch g1 = currentEpoch g
  /\ epochHeader (getEpoch g1 (currentEpoch g1))
     = epochHeader (getEpoch g (currentEpoch g)).
Proof.
  intros [-> | [fee ->]].
  - repeat split; reflexivity.
  - cbv zeta. rewrite currentEpoch_setEpoch.
    change (currentEpoch (markSession g sid)) with (currentEpoch g).
    rewrite getEpoch_setEpoch.
    repeat split; reflexivity.
Qed.

Lemma recordTopScore_frame sender g a sc :
  let g' := recordTopScore sender g a sc in
  usedSessions g' = usedSessions g
  /\ humanLeaderboard g' = humanLeaderboard g
  /\ agentLeaderboard g' = agentLeaderboard g
  /\ humanLBCount g' = humanLBCount g
  /\ agentLBCount g' = agentLBCount g
  /\ currentEpoch g' = currentEpoch g
  /\ epochHeader (getEpoch g' (currentEpoch g'))
     = epochHeader (getEpoch g (currentEpoch g))
  /\ prizePool (getEpoch g' (currentEpoch g')) = prizePool (getEpoch g (currentEpoch g))
  /\ burnAmount (getEpoch g' (currentEpoch g')) = burnAmount (getEpoch g (currentEpoch g))
  /\ treasuryAmount (getEpoch g' (currentEpoch g'))
     = treasuryAmount (getEpoch g (currentEpoch g)).
Proof.
  unfold recordTopScore. cbv zeta.
  destruct (a && _); rewrite ?currentEpoch_setEpoch, ?getEpoch_setEpoch;
    (destruct (negb a && _); rewrite ?currentEpoch_setEpoch, ?getEpoch_setEpoch);
    repeat split; reflexivity.
Qed.

Lemma placeScore_frame sender now w a sc rd kl sid :
  let w' := placeScore sender now w a sc rd kl sid in
  dug w' = dug w /\ registry w' = registry w /\ this w' = this w
  /\ chainid w' = chainid w
  /\ usedSessions (game w') = usedSessions (game w)
  /\ currentEpoch (game w') = currentEpoch (game w)
  /\ epochs (game w') = epochs (game w)
  /\ boardOf (game w') a
     = fst (_updateLeaderboard now (boardOf (game w) a) (countOf (game w) a)
              sender sc rd kl a sid)
  /\ countOf (game w') a
     = (if countOf (game w) a <? LB_SIZE then countOf (game w) a + 1
        else countOf (game w) a)
  /\ boardOf (game w') (negb a) = boardOf (game w) (negb a)
  /\ countOf (game w') (negb a) = countOf (game w) (negb a).
Proof.
  unfold placeScore. cbv zeta. destruct a; cbn [boardOf countOf negb].
  - destruct (_updateLeaderboard now (agentLeaderboard (game w)) _ _ _ _ _ _ _).
    repeat split; reflexivity.
  - destruct (_updateLeaderboard now (humanLeaderboard (game w)) _ _ _ _ _ _ _).
    repeat split; reflexivity.
Qed.

Lemma submitScore_Ok sender now w sc rd kl sid sAt sig w' :
  submitScore sender now w sc rd kl sid sAt sig = Ok w' ->
  verifySubmission sender now w sc rd kl sid sAt sig = Ok tt
  /\ exists w1 w2,
      enterSubmission sender w sc sid = Ok w1
      /\ _mintGameplayRewards w1 sender kl rd = Ok w2
      /\ w' = finishSubmit sender now w2 (isAgentOf w sender) sc rd kl sid.
Proof.
  rewrite submitScore_steps. intros Hs.
  apply bind_Ok in Hs. destruct Hs as ([] & Hv & Hs).
  apply bind_Ok in Hs. destruct Hs as (w1 & He & Hs).
  apply bind_Ok in Hs. destruct Hs as (w2 & Hm & Hs).
  injection Hs as <-. eauto 6.
Qed.

Lemma mintGameplayRewards_frame w p kl rd w' :
  _mintGameplayRewards w p kl rd = Ok w' ->
  game w' = game w /\ registry w' = registry w /\ this w' = this w
  /\ chainid w' = chainid w
  /\ (DugToken.totalSupply (dug w) <= DugToken.MAX_SUPPLY ->
      DugToken.totalSupply (dug w') <= DugToken.MAX_SUPPLY).
Proof.
  intros Hm. apply mintGameplayRewards_Ok in Hm.
  destruct Hm as (total & _ & [[_ ->] | (_ & t & Hmint & ->)]).
  - repeat split; auto.
  - apply mint_Ok in Hmint. destruct Hmint as (_ & Hle & _ & ->).
    repeat split; auto.
Qed.

(** The game storage a successful submission leaves, board by board. *)
Lemma submitScore_game sender now w sc rd kl sid sAt sig w' :
  submitScore sender now w sc rd kl sid sAt sig = Ok w' ->
  let a := isAgentOf w sender in
  let g := game w in
  let g' := game w' in
  sessionUsed g sid = false
  /\ usedSessions g' = <[sid := true]> (usedSessions g)
  /\ currentEpoch g' = currentEpoch g
  /\ epochHeader (getEpoch g' (currentEpoch g'))
     = epochHeader (getEpoch g (currentEpoch g))
  /\ boardOf g' a
     = fst (_updateLeaderboard now (boardOf g a) (countOf g a) sender sc rd kl a sid)
  /\ countOf g' a = (if countOf g a <? LB_SIZE then countOf g a + 1 else countOf g a)
  /\ boardOf g' (negb a) = boardOf g (negb a)
  /\ countOf g' (negb a) = countOf g (negb a)
  /\ (DugToken.totalSupply (dug w) <= DugToken.MAX_SUPPLY ->
      DugToken.totalSupply (dug w') <= DugToken.MAX_SUPPLY).
Proof.
  intros Hs. cbv zeta.
  apply submitScore_Ok in Hs. destruct Hs as (Hv & w1 & w2 & He & Hm & ->).
  apply verify_Ok in Hv. destruct Hv as (Hfresh & _).
  apply enterSubmission_Ok in He.
  destruct He as (t & r & g1 & -> & Hsup & _ & _ & Hent).
  apply entered_frame in Hent.
  destruct Hent as (Hused & Hh & Ha & Hhc & Hac & Hcur & Hset).
  apply mintGameplayRewards_frame in Hm. cbn [game dug] in Hm.
  destruct Hm as (Hg2 & _ & _ & _ & Hsup2).
  unfold finishSubmit. cbv zeta. cbn [game emit with_game].
  pose proof (recordTopScore_frame sender
    (game (placeScore sender now w2 (isAgentOf w sender) sc rd kl sid))
    (isAgentOf w sender) sc) as Hrt. cbv zeta in Hrt.
  destruct Hrt as (Ru & Rh & Ra & Rhc & Rac & Rcur & Rset & _).
  pose proof (placeScore_frame sender now w2 (isAgentOf w sender) sc rd kl sid) as Hps.
  cbv zeta in Hps.
  destruct Hps as (Pd & _ & _ & _ & Pu & Pcur & Pep & Pb & Pc & Pnb & Pnc).
  assert (forall b, boardOf (recordTopScore sender
            (game (placeScore sender now w2 (isAgentOf w sender) sc rd kl sid))
            (isAgentOf w sender) sc) b
          = boardOf (game (placeScore sender now w2 (isAgentOf w sender) sc rd kl sid)) b)
    as Rb by (intros []; cbn [boardOf]; assumption).
  assert (forall b, countOf (recordTopScore sender
            (game (placeScore sender now w2 (isAgentOf w sender) sc rd kl sid))
            (isAgentOf w sender) sc) b
          = countOf (game (placeScore sender now w2 (isAgentOf w sender) sc rd kl sid)) b)
    as Rc by (intros []; cbn [countOf]; assumption).
  assert (forall b, boardOf (game w2) b = boardOf (game w) b) as Bb
    by (intros []; cbn [boardOf]; rewrite Hg2; assumption).
  assert (forall b, countOf (game w2) b = countOf (game w) b) as Bc
    by (intros []; cbn [countOf]; rewrite Hg2; assumption).
  split; [assumption|].
  split; [rewrite Ru, Pu, Hg2; assumption|].
  split; [rewrite Rcur, Pcur, Hg2; assumption|].
  split.
  { rewrite Rset. unfold getEpoch. rewrite Pep, Pcur, Hg2. exact Hset. }
  split; [rewrite Rb, Pb, Bb, Bc; reflexivity|].
  split; [rewrite Rc, Pc, Bc; reflexivity|].
  split; [rewrite Rb, Pnb, Bb; reflexivity|].
  split; [rewrite Rc, Pnc, Bc; reflexivity|].
  cbn [dug emit with_game]. rewrite Pd. intros Hle. apply Hsup2. rewrite Hsup. exact Hle.
Qed.

(** ** Settlement *)

Lemma startNewEpoch_Ok now w w' :
  _startNewEpoch now w = Ok w' ->
  let g := game w in
  let cur := currentEpoch g + 1 in
  cur <= MAX_UINT256 /\ now + epochDuration g <= MAX_UINT256
  /\ w' = emit (with_game w
                 (setEpoch (setCurrentEpoch g cur) cur
                    (mkEpoch cur now (now + epochDuration g) 0 0 0 false 0 0 0 0)))
               (EpochStarted cur now (now + epochDuration g)).
Proof.
  unfold _startNewEpoch. cbv zeta. intros Hs.
  apply bind_Ok in Hs. destruct Hs as (cur & Hcur & Hs).
  apply bind_Ok in Hs. destruct Hs as (endT & Hend & Hs).
  apply checked_add_Ok in Hcur, Hend.
  destruct Hcur as [-> ?], Hend as [-> ?]. injection Hs as <-. auto.
Qed.

Lemma startNewEpoch_succeeds now w :
  currentEpoch (game w) + 1 <= MAX_UINT256 ->
  now + epochDuration (game w) <= MAX_UINT256 ->
  _startNewEpoch now w =
  Ok (emit (with_game w
              (setEpoch (setCurrentEpoch (game w) (currentEpoch (game w) + 1))
                 (currentEpoch (game w) + 1)
                 (mkEpoch (currentEpoch (game w) + 1) now
                          (now + epochDuration (game w)) 0 0 0 false 0 0 0 0)))
           (EpochStarted (currentEpoch (game w) + 1) now
                         (now + epochDuration (game w)))).
Proof.
  intros Hc Hn. unfold _startNewEpoch. cbv zeta.
  rewrite !checked_add_fits by assumption. reflexivity.
Qed.

Lemma settleEpoch_Ok now w w' :
  settleEpoch now w = Ok w' ->
  let g := game w in
  let e := getEpoch g (currentEpoch g) in
  let g1 := setEpoch g (currentEpoch g) (markSettled e) in
  endTime e <= now /\ settled e = false
  /\ exists t1 humanPrize agentPrize t2 t3 g2,
      settlePrizes (this w) e (dug w) = Ok (t1, humanPrize, agentPrize)
      /\ (if 0 <? burnAmount e
          then do t' <- DugToken.mint (this w) t1 (this w) (burnAmount e);
               DugToken.burn (this w) t' (burnAmount e)
          else Ok t1) = Ok t2
      /\ (if 0 <? treasuryAmount e
          then do t' <- DugToken.mint (this w) t2 (treasury g1) (treasuryAmount e);
               do b <- checked_add (treasuryBalance g1) (treasuryAmount e);
               Ok (t', setTreasuryBalance g1 b)
          else Ok (t2, g1)) = Ok (t3, g2)
      /\ _startNewEpoch now
           (emit (with_game (with_dug w t3) g2)
                 (EpochSettled (currentEpoch g) (humanWinner e) humanPrize
                               (agentWinner e) agentPrize)) = Ok w'.
Proof.
  unfold settleEpoch. cbv zeta. intros Hs.
  apply bind_Ok in Hs. destruct Hs as (? & Hend & Hs).
  apply bind_Ok in Hs. destruct Hs as (? & Hset & Hs).
  apply bind_Ok in Hs. destruct Hs as ([[t1 hp] ap] & Hprz & Hs).
  apply bind_Ok in Hs. destruct Hs as (t2 & Hburn & Hs).
  apply bind_Ok in Hs. destruct Hs as ([t3 g2] & Htre & Hs).
  apply require_Ok in Hend, Hset.
  apply N.leb_le in Hend. apply negb_true_iff in Hset.
  split; [assumption|]. split; [assumption|].
  exists t1, hp, ap, t2, t3, g2. auto.
Qed.

Lemma mint_supplyOk s t to amount t' :
  DugToken.mint s t to amount = Ok t' -> supplyOk t'.
Proof.
  intros Hm. apply mint_Ok in Hm. destruct Hm as (_ & Hle & _ & ->). exact Hle.
Qed.

Lemma burn_supplyOk s t value t' :
  supplyOk t -> DugToken.burn s t value = Ok t' -> supplyOk t'.
Proof.
  unfold supplyOk. intros Hok Hb. apply burn_Ok in Hb. destruct Hb as (_ & ->).
  cbn. lia.
Qed.

Lemma settlePrizes_supplyOk self e t t1 hp ap :
  supplyOk t -> settlePrizes self e t = Ok (t1, hp, ap) -> supplyOk t1.
Proof.
  unfold settlePrizes. intros Hok Hs.
  destruct (0 <? prizePool e); [|injection Hs as <- _ _; assumption].
  cbv zeta in Hs.
  apply bind_Ok in Hs. destruct Hs as ([ta pa] & H1 & Hs).
  apply bind_Ok in Hs. destruct Hs as ([tb pb] & H2 & Hs).
  apply bind_Ok in Hs. destruct Hs as ([tc pc] & H3 & Hs).
  apply bind_Ok in Hs. destruct Hs as ([td pd] & H4 & Hs).
  cbn [fst snd] in *. injection Hs as <- _ _.
  assert (supplyOk ta) as Ha.
  { destruct (negb (humanWinner e =? 0)); [|injection H1 as <- _; assumption].
    apply bind_Ok in H1. destruct H1 as (t' & Hm & H1). injection H1 as <- _.
    eapply mint_supplyOk; eassumption. }
  assert (supplyOk tb) as Hb.
  { destruct (negb (agentWinner e =? 0)); [|injection H2 as <- _; assumption].
    apply bind_Ok in H2. destruct H2 as (t' & Hm & H2). injection H2 as <- _.
    eapply mint_supplyOk; eassumption. }
  assert (supplyOk tc) as Hc.
  { destruct ((humanWinner e =? 0) && negb (agentWinner e =? 0));
      [|injection H3 as <- _; assumption].
    apply bind_Ok in H3. destruct H3 as (t' & Hm & H3). injection H3 as <- _.
    eapply mint_supplyOk; eassumption. }
  destruct ((agentWinner e =? 0) && negb (humanWinner e =? 0));
    [|injection H4 as <- _; assumption].
  apply bind_Ok in H4. destruct H4 as (t' & Hm & H4). injection H4 as <- _.
  eapply mint_supplyOk; eassumption.
Qed.

(** What a successful settlement leaves: the boards and the session
    registry as they were, the settled epoch flagged, a fresh epoch
    current, and the supply still under the cap. *)
Lemma settleEpoch_game now w w' :
  settleEpoch now w = Ok w' ->
  let g := game w in
  let g' := game w' in
  let e := getEpoch g (currentEpoch g) in
  usedSessions g' = usedSessions g
  /\ humanLeaderboard g' = humanLeaderboard g
  /\ agentLeaderboard g' = agentLeaderboard g
  /\ humanLBCount g' = humanLBCount g
  /\ agentLBCount g' = agentLBCount g
  /\ epochDuration g' = epochDuration g
  /\ currentEpoch g' = currentEpoch g + 1
  /\ getEpoch g' (currentEpoch g') =
     mkEpoch (currentEpoch g + 1) now (now + epochDuration g) 0 0 0 false 0 0 0 0
  /\ getEpoch g' (currentEpoch g) = markSettled e
  /\ this w' = this w
  /\ (supplyOk (dug w) -> supplyOk (dug w')).
Proof.
  intros Hs. cbv zeta. apply settleEpoch_Ok in Hs. cbv zeta in Hs.
  destruct Hs as (_ & _ & t1 & hp & ap & t2 & t3 & g2 & Hprz & Hburn & Htre & Hnew).
  apply startNewEpoch_Ok in Hnew. cbv zeta in Hnew.
  cbn [game emit with_game with_dug] in Hnew.
  destruct Hnew as (_ & _ & ->). cbn [game dug this emit with_game with_dug].
  set (g1 := setEpoch (game w) (currentEpoch (game w))
               (markSettled (getEpoch (game w) (currentEpoch (game w))))) in *.
  assert (g2 = g1 \/ exists b, g2 = setTreasuryBalance g1 b) as Hg2.
  { destruct (0 <? treasuryAmount _).
    - apply bind_Ok in Htre. destruct Htre as (t' & _ & Htre).
      apply bind_Ok in Htre. destruct Htre as (b & _ & Htre).
      injection Htre as _ <-. eauto.
    - injection Htre as _ <-. auto. }
  assert (supplyOk (dug w) -> supplyOk t3) as Hsup.
  { intros Hok.
    assert (supplyOk t1) as H1 by (eapply settlePrizes_supplyOk; eassumption).
    assert (supplyOk t2) as H2.
    { destruct (0 <? burnAmount _); [|injection Hburn as <-; assumption].
      apply bind_Ok in Hburn. destruct Hburn as (t' & Hm & Hb).
      eapply burn_supplyOk; [|eassumption]. eapply mint_supplyOk; eassumption. }
    destruct (0 <? treasuryAmount _); [|injection Htre as <- _; assumption].
    apply bind_Ok in Htre. destruct Htre as (t' & Hm & Htre).
    apply bind_Ok in Htre. destruct Htre as (b & _ & Htre).
    injection Htre as <- _. eapply mint_supplyOk; eassumption. }
  assert (currentEpoch g2 = currentEpoch (game w)) as Hcur
    by (destruct Hg2 as [-> | [b ->]]; reflexivity).
  assert (epochDuration g2 = epochDuration (game w)) as Hdur
    by (destruct Hg2 as [-> | [b ->]]; reflexivity).
  rewrite !currentEpoch_setEpoch, getEpoch_setEpoch. cbn [currentEpoch setCurrentEpoch].
  rewrite Hcur, Hdur.
  repeat split; try (destruct Hg2 as [-> | [b ->]]; reflexivity); try assumption.
  rewrite getEpoch_setEpoch_ne by lia.
  destruct Hg2 as [-> | [b ->]]; unfold getEpoch; cbn [epochs setCurrentEpoch
    setTreasuryBalance]; fold (getEpoch g1 (currentEpoch (game w)));
    apply getEpoch_setEpoch.
Qed.

(** ** Invariants of the reachable worlds *)

Lemma sessionUsed_inserted g g' sid x :
  usedSessions g' = <[sid := true]> (usedSessions g) ->
  sessionUsed g' x = if x =? sid then true else sessionUsed g x.
Proof.
  intros Hu. unfold sessionUsed. rewrite Hu.
  destruct (N.eqb_spec x sid) as [->|Hne].
  - now rewrite lookup_insert_eq.
  - now rewrite lookup_insert_ne by congruence.
Qed.

Lemma worldOk_frame w w' :
  worldOk w ->
  usedSessions (game w') = usedSessions (game w) ->
  humanLeaderboard (game w') = humanLeaderboard (game w) ->
  agentLeaderboard (game w') = agentLeaderboard (game w) ->
  humanLBCount (game w') = humanLBCount (game w) ->
  agentLBCount (game w') = agentLBCount (game w) ->
  settled (getEpoch (game w') (currentEpoch (game w'))) = false ->
  id (getEpoch (game w') (currentEpoch (game w'))) = currentEpoch (game w') ->
  supplyOk (dug w') ->
  worldOk w'.
Proof.
  intros [Hh Ha Hs Hu Hid] Eu Eh Ea Ehc Eac Hset Hid' Hsup.
  split; try assumption.
  - rewrite Eh, Ehc. eapply boardOk_mono; [eassumption|].
    intros x. now rewrite (sessionUsed_ext _ _ x Eu).
  - rewrite Ea, Eac. eapply boardOk_mono; [eassumption|].
    intros x. now rewrite (sessionUsed_ext _ _ x Eu).
Qed.

Lemma submitScore_ok sender now w sc rd kl sid sAt sig w' :
  worldOk w -> submitScore sender now w sc rd kl sid sAt sig = Ok w' -> worldOk w'.
Proof.
  intros [Hh Ha Hs Hu Hid] Hsub. apply submitScore_game in Hsub. cbv zeta in Hsub.
  destruct Hsub as (Hfresh & Eu & Ecur & Eset & Eb & Ec & Enb & Enc & Hsup).
  unfold epochHeader in Eset. injection Eset as Eid _ _ Eset.
  assert (forall x, sessionUsed (game w) x = true -> sessionUsed (game w') x = true)
    as Hmono.
  { intros x Hx. rewrite (sessionUsed_inserted _ _ _ _ Eu), Hx.
    now destruct (x =? sid). }
  assert (sessionUsed (game w') sid = true) as Hsid.
  { rewrite (sessionUsed_inserted _ _ _ _ Eu), N.eqb_refl. reflexivity. }
  split.
  - destruct (isAgentOf w sender); cbn [boardOf countOf negb] in *.
    + rewrite Enb, Enc. eapply boardOk_mono; eassumption.
    + rewrite Eb, Ec. eapply boardOk_insert; eassumption.
  - destruct (isAgentOf w sender); cbn [boardOf countOf negb] in *.
    + rewrite Eb, Ec. eapply boardOk_insert; eassumption.
    + rewrite Enb, Enc. eapply boardOk_mono; eassumption.
  - apply Hsup. assumption.
  - rewrite Eset. assumption.
  - rewrite Eid, Ecur. assumption.
Qed.

Lemma settleEpoch_ok now w w' :
  worldOk w -> settleEpoch now w = Ok w' -> worldOk w'.
Proof.
  intros Hok Hs. apply settleEpoch_game in Hs. cbv zeta in Hs.
  destruct Hs as (Eu & Eh & Ea & Ehc & Eac & _ & Ecur & Enew & _ & _ & Hsup).
  eapply worldOk_frame; try eassumption.
  - rewrite Enew. reflexivity.
  - rewrite Enew, Ecur. reflexivity.
  - apply Hsup. apply (ok_supply _ Hok).
Qed.

Lemma exec_ok sender now c w w' :
  worldOk w -> exec sender now c w = Ok w' -> worldOk w'.
Proof.
  intros Hok Hex.
  assert (forall w1, game w1 = game w -> supplyOk (dug w1) -> worldOk w1) as Hsame.
  { intros w1 Eg Hsup. eapply worldOk_frame; try exact Hok; try assumption;
      rewrite Eg; try reflexivity;
      [exact (ok_unsettled _ Hok) | exact (ok_epoch_id _ Hok)]. }
  assert (forall g1,
            usedSessions g1 = usedSessions (game w) ->
            humanLeaderboard g1 = humanLeaderboard (game w) ->
            agentLeaderboard g1 = agentLeaderboard (game w) ->
            humanLBCount g1 = humanLBCount (game w) ->
            agentLBCount g1 = agentLBCount (game w) ->
            epochs g1 = epochs (game w) ->
            currentEpoch g1 = currentEpoch (game w) ->
            worldOk (with_game w g1)) as Hadmin.
  { intros g1 Eu Eh Ea Ehc Eac Ee Ec.
    eapply worldOk_frame; try exact Hok; try assumption.
    - unfold getEpoch. cbn [game with_game]. rewrite Ee, Ec.
      exact (ok_unsettled _ Hok).
    - unfold getEpoch. cbn [game with_game]. rewrite Ee, Ec.
      exact (ok_epoch_id _ Hok).
    - exact (ok_supply _ Hok). }
  pose proof (ok_supply _ Hok) as Hsup.
  destruct c; cbn [exec] in Hex.
  - eapply submitScore_ok; eassumption.
  - eapply settleEpoch_ok; eassumption.
  - unfold setScoreSigner in Hex. destruct (negb _); [discriminate|].
    injection Hex as <-. apply Hadmin; reflexivity.
  - unfold setFees in Hex. destruct (negb _); [discriminate|].
    injection Hex as <-. apply Hadmin; reflexivity.
  - unfold setEpochDuration in Hex. destruct (negb _); [discriminate|].
    injection Hex as <-. apply Hadmin; reflexivity.
  - unfold setTreasury in Hex. destruct (negb _); [discriminate|].
    injection Hex as <-. apply Hadmin; reflexivity.
  - apply bind_Ok in Hex. destruct Hex as (t & Ht & Hex). injection Hex as <-.
    unfold DugToken.setGameContract in Ht. destruct (negb _); [discriminate|].
    injection Ht as <-. apply Hsame; [reflexivity | exact Hsup].
  - apply bind_Ok in Hex. destruct Hex as (t & Ht & Hex). injection Hex as <-.
    apply mint_supplyOk in Ht. apply Hsame; [reflexivity | exact Ht].
  - apply bind_Ok in Hex. destruct Hex as (t & Ht & Hex). injection Hex as <-.
    unfold DugToken.approve in Ht.
    destruct (sender =? 0); [discriminate|]. destruct (spender =? 0); [discriminate|].
    injection Ht as <-. apply Hsame; [reflexivity | exact Hsup].
  - apply bind_Ok in Hex. destruct Hex as (t & Ht & Hex). injection Hex as <-.
    apply transfer_supply in Ht. destruct Ht as [Ht _].
    apply Hsame; [reflexivity|]. unfold supplyOk. cbn [dug with_dug].
    rewrite Ht. exact Hsup.
  - apply bind_Ok in Hex. destruct Hex as (t & Ht & Hex). injection Hex as <-.
    apply Hsame; [reflexivity|]. eapply burn_supplyOk; eassumption.
  - apply bind_Ok in Hex. destruct Hex as (r & _ & Hex). injection Hex as <-.
    apply Hsame; [reflexivity | exact Hsup].
  - apply bind_Ok in Hex. destruct Hex as (r & _ & Hex). injection Hex as <-.
    apply Hsame; [reflexivity | exact Hsup].
  - apply bind_Ok in Hex. destruct Hex as (r & _ & Hex). injection Hex as <-.
    apply Hsame; [reflexivity | exact Hsup].
Qed.

Lemma lbAt_replicate n i : lbAt (replicate n zeroEntry) i = zeroEntry.
Proof.
  unfold lbAt. destruct (replicate n zeroEntry !! i) as [e|] eqn:E; [|reflexivity].
  apply lookup_replicate in E. destruct E as [-> _]. reflexivity.
Qed.

Lemma deploy_ok deployer self chain now signer treasury_ w :
  deploy deployer self chain now signer treasury_ = Ok w -> worldOk w.
Proof.
  unfold deploy. intros Hd.
  apply bind_Ok in Hd. destruct Hd as (t & Ht & Hd).
  apply bind_Ok in Hd. destruct Hd as (r & Hr & Hd).
  unfold DugToken.constructor in Ht. destruct (deployer =? 0); [discriminate|].
  injection Ht as <-.
  apply startNewEpoch_Ok in Hd. cbv zeta in Hd. destruct Hd as (_ & _ & ->).
  assert (forall g, boardOk g (replicate (N.to_nat LB_SIZE) zeroEntry) 0) as Hb.
  { intros g. split.
    - apply length_replicate.
    - unfold LB_SIZE. lia.
    - intros i _. apply lbAt_replicate.
    - intros i j _ Hj. lia.
    - intros i j Hi. lia.
    - intros i Hi. lia. }
  split; cbn [game dug emit with_game].
  - apply Hb.
  - apply Hb.
  - cbn. unfold DugToken.MAX_SUPPLY. lia.
  - rewrite currentEpoch_setEpoch, getEpoch_setEpoch. reflexivity.
  - rewrite currentEpoch_setEpoch, getEpoch_setEpoch. reflexivity.
Qed.

Lemma reachable_ok w : reachable w -> worldOk w.
Proof.
  induction 1 as [? ? ? ? ? ? w Hd | sender now c w w' _ IH Hex].
  - eapply deploy_ok; eassumption.
  - eapply exec_ok; eassumption.
Qed.

(** A consumed session stays consumed, whatever is called. *)
Lemma exec_sessions sender now c w w' x :
  exec sender now c w = Ok w' ->
  sessionUsed (game w) x = true -> sessionUsed (game w') x = true.
Proof.
  intros Hex Hx. destruct c; cbn [exec] in Hex.
  - apply submitScore_game in Hex. cbv zeta in Hex. destruct Hex as (_ & Eu & _).
    rewrite (sessionUsed_inserted _ _ _ _ Eu), Hx. now destruct (x =? _).
  - apply settleEpoch_game in Hex. cbv zeta in Hex. destruct Hex as (Eu & _).
    now rewrite (sessionUsed_ext _ _ x Eu).
  - unfold setScoreSigner in Hex. destruct (negb _); [discriminate|].
    injection Hex as <-. exact Hx.
  - unfold setFees in Hex. destruct (negb _); [discriminate|].
    injection Hex as <-. exact Hx.
  - unfold setEpochDuration in Hex. destruct (negb _); [discriminate|].
    injection Hex as <-. exact Hx.
  - unfold setTreasury in Hex. destruct (negb _); [discriminate|].
    injection Hex as <-. exact Hx.
  - apply bind_Ok in Hex. destruct Hex as (t & _ & Hex). injection Hex as <-. exact Hx.
  - apply bind_Ok in Hex. destruct Hex as (t & _ & Hex). injection Hex as <-. exact Hx.
  - apply bind_Ok in Hex. destruct Hex as (t & _ & Hex). injection Hex as <-. exact Hx.
  - apply bind_Ok in Hex. destruct Hex as (t & _ & Hex). injection Hex as <-. exact Hx.
  - apply bind_Ok in Hex. destruct Hex as (t & _ & Hex). injection Hex as <-. exact Hx.
  - apply bind_Ok in Hex. destruct Hex as (r & _ & Hex). injection Hex as <-. exact Hx.
  - apply bind_Ok in Hex. destruct Hex as (r & _ & Hex). injection Hex as <-. exact Hx.
  - apply bind_Ok in Hex. destruct Hex as (r & _ & Hex). injection Hex as <-. exact Hx.
Qed.

Lemma run_sessions sender now c w x :
  sessionUsed (game w) x = true ->
  sessionUsed (game (fst (run sender now c w))) x = true.
Proof.
  intros Hx. unfold run. destruct (exec sender now c w) as [w'|f] eqn:Hex; cbn [fst].
  - eapply exec_sessions; eassumption.
  - exact Hx.
Qed.

Lemma runAll_sessions txs w x :
  sessionUsed (game w) x = true -> sessionUsed (game (runAll txs w)) x = true.
Proof.
  revert w. induction txs as [|[[sender now] c] rest IH]; intros w Hx; cbn [runAll].
  - exact Hx.
  - apply IH, run_sessions, Hx.
Qed.

Lemma run_reachable sender now c w :
  reachable w -> reachable (fst (run sender now c w)).
Proof.
  intros Hr. unfold run. destruct (exec sender now c w) as [w'|f] eqn:Hex; cbn [fst].
  - eapply reachable_exec; eassumption.
  - exact Hr.
Qed.

Lemma runAll_reachable txs w : reachable w -> reachable (runAll txs w).
Proof.
  revert w. induction txs as [|[[sender now] c] rest IH]; intros w Hr; cbn [runAll].
  - exact Hr.
  - apply IH, run_reachable, Hr.
Qed.

(** ** Replay protection *)

(** C6. Once a [submitScore] call with a session id has succeeded, every
    later [submitScore] call carrying the same session id (after any
    further transactions, by any sender, at any time, with any payload)
    reverts with [ReplayedSession], and the reverted call leaves the world,
    with the leaderboards and epochs the first call wrote, as it was. *)
Theorem replayed_session_rejected sender now w sc rd kl sid sAt sig w1 :
  submitScore sender now w sc rd kl sid sAt sig = Ok w1 ->
  forall txs sender' now' sc' rd' kl' sAt' sig',
    let w2 := runAll txs w1 in
    run sender' now' (SubmitScore sc' rd' kl' sid sAt' sig') w2
    = (w2, Some ReplayedSession).
Proof.
  intros Hs txs sender' now' sc' rd' kl' sAt' sig'. cbv zeta.
  apply submitScore_game in Hs. cbv zeta in Hs. destruct Hs as (_ & Eu & _).
  assert (sessionUsed (game w1) sid = true) as Hused.
  { rewrite (sessionUsed_inserted _ _ _ _ Eu), N.eqb_refl. reflexivity. }
  apply (runAll_sessions txs) in Hused.
  unfold run. cbn [exec].
  rewrite (submitScore_verify_Err _ _ _ _ _ _ _ _ _ ReplayedSession);
    [reflexivity|].
  apply verify_replayed. exact Hused.
Qed.

(** ** Order of the checks *)

Lemma later_steps_not_verification sender w sc sid kl rd f :
  (enterSubmission sender w sc sid = Err f
   \/ exists w1, _mintGameplayRewards w1 sender kl rd = Err f) ->
  f <> ExpiredSignature /\ f <> InvalidSignature /\ f <> ReplayedSession.
Proof.
  unfold ExpiredSignature, InvalidSignature, ReplayedSession.
  intros [He | [w1 Hm]].
  - unfold enterSubmission, payEntryFee, DugToken.transferFrom, DugToken._transfer,
      _distributeEntryFee, AgentRegistry.recordGame in He. cbv zeta in He.
    repeat split; which_failure.
  - unfold _mintGameplayRewards, gameplayReward, DugToken.mint, DugToken._mint in Hm.
    repeat split; which_failure.
Qed.

Lemma submitScore_verified_Err sender now w sc rd kl sid sAt sig f :
  verifySubmission sender now w sc rd kl sid sAt sig = Ok tt ->
  submitScore sender now w sc rd kl sid sAt sig = Err f ->
  f <> ExpiredSignature /\ f <> InvalidSignature /\ f <> ReplayedSession.
Proof.
  intros Hv Hs. rewrite submitScore_steps, Hv in Hs. cbn [bind] in Hs.
  apply bind_Err in Hs. destruct Hs as [He | (w1 & He & Hs)].
  - apply (later_steps_not_verification sender w sc sid kl rd). left. exact He.
  - apply bind_Err in Hs. destruct Hs as [Hm | (w2 & _ & Hs)]; [|discriminate].
    apply (later_steps_not_verification sender w sc sid kl rd). right. eauto.
Qed.


(** C9, as amended. For a validly signed submission whose session id has
    not been consumed, [submitScore] fails with [ExpiredSignature] exactly
    when the current time exceeds [signedAt + 300]: a payload signed 301
    seconds ago fails with [ExpiredSignature], one signed 299 seconds ago
    passes the checks (the timestamp being below the largest [uint256],
    so that [signedAt + 300] does not overflow), and the call is accepted
    by the freshness check exactly when [now <= signedAt + 300]. *)
Theorem freshness_window sender now w sc rd kl sid sAt sig :
  sessionUsed (game w) sid = false ->
  recover (toEthSignedMessageHash
     (keccak256_packed sender sc rd kl sid sAt (chainid w))) sig
  = Ok (scoreSigner (game w)) ->
  now <= MAX_UINT256 ->
  let call := submitScore sender now w sc rd kl sid sAt sig in
  (call = Err ExpiredSignature <-> sAt + 300 < now)
  /\ (now = sAt + 301 -> call = Err ExpiredSignature)
  /\ (now = sAt + 299 -> now < MAX_UINT256 ->
      verifySubmission sender now w sc rd kl sid sAt sig = Ok tt
      /\ call <> Err ExpiredSignature).
Proof.
  intros Hu Hrec Hnow. cbv zeta.
  assert (submitScore sender now w sc rd kl sid sAt sig = Err ExpiredSignature
          <-> sAt + 300 < now) as Hiff.
  { split.
    - intros Hs.
      destruct (verifySubmission sender now w sc rd kl sid sAt sig) as [[]|f] eqn:Hv.
      + apply (submitScore_verified_Err _ _ _ _ _ _ _ _ _ _ Hv) in Hs.
        destruct Hs as [Hne _]. contradiction.
      + rewrite (submitScore_verify_Err _ _ _ _ _ _ _ _ _ _ Hv) in Hs.
        injection Hs as ->.
        rewrite verify_fresh_session in Hv by assumption.
        destruct (N.ltb_spec MAX_UINT256 (sAt + 300)); [discriminate|].
        destruct (N.ltb_spec (sAt + 300) now); [assumption|].
        rewrite Hrec, N.eqb_refl in Hv. discriminate.
    - intros Hlate. apply submitScore_verify_Err.
      rewrite verify_fresh_session by assumption.
      destruct (N.ltb_spec MAX_UINT256 (sAt + 300)); [lia|].
      destruct (N.ltb_spec (sAt + 300) now); [reflexivity | lia]. }
  split; [exact Hiff|]. split.
  - intros ->. apply Hiff. lia.
  - intros -> Hlt. split.
    + apply verify_passes; try assumption; lia.
    + intros Hs. apply Hiff in Hs. lia.
Qed.

(** ** Settling twice *)



(** ** Settling an epoch with empty pools *)

(** C10, as amended. In a reachable world, [settleEpoch] called at or after
    the current epoch's end time on an epoch whose three pools are zero
    succeeds when the new epoch's id and end time fit in a [uint256]: the
    epoch is marked settled and otherwise unchanged, the token is untouched
    (nothing minted or burned), [EpochSettled] is emitted with both prizes
    zero, and a new epoch is opened with id = previous id + 1, start time
    [now] and end time [now + epochDuration]. When one of the two does not
    fit (the owner can set [epochDuration] to any value), the call reverts
    with the arithmetic panic of [_startNewEpoch] and the world is left as
    it was. *)
Theorem empty_epoch_settles now w :
  reachable w ->
  let g := game w in
  let e := getEpoch g (currentEpoch g) in
  endTime e <= now ->
  prizePool e = 0 -> burnAmount e = 0 -> treasuryAmount e = 0 ->
  (currentEpoch g + 1 <= MAX_UINT256 ->
   now + epochDuration g <= MAX_UINT256 ->
   exists w',
     settleEpoch now w = Ok w'
     /\ dug w' = dug w
     /\ events w' = events w ++
          [EpochSettled (currentEpoch g) (humanWinner e) 0 (agentWinner e) 0;
           EpochStarted (id e + 1) now (now + epochDuration g)]
     /\ getEpoch (game w') (currentEpoch g) = markSettled e
     /\ currentEpoch (game w') = id e + 1
     /\ getEpoch (game w') (currentEpoch (game w'))
        = mkEpoch (id e + 1) now (now + epochDuration g) 0 0 0 false 0 0 0 0)
  /\ (MAX_UINT256 < currentEpoch g + 1 \/ MAX_UINT256 < now + epochDuration g ->
      forall sender, run sender now SettleEpoch w = (w, Some Panic)).
Proof.
  intros Hreach g e Hend Hp Hb Ht.
  apply reachable_ok in Hreach. destruct Hreach as [_ _ _ Hunset Hid].
  fold g in Hunset, Hid. fold e in Hunset, Hid.
  assert (settleEpoch now w =
          _startNewEpoch now
            (emit (with_game w (setEpoch g (currentEpoch g) (markSettled e)))
                  (EpochSettled (currentEpoch g) (humanWinner e) 0
                                (agentWinner e) 0))) as Hs.
  { unfold settleEpoch, settlePrizes. cbv zeta. fold g. fold e.
    apply N.leb_le in Hend. rewrite Hend, Hunset, Hp, Hb, Ht.
    cbn [negb require bind N.ltb N.compare fst snd].
    unfold markSettled. rewrite Hp, Hb, Ht. reflexivity. }
  split.
  - intros Hcur Hdur.
    rewrite Hs, startNewEpoch_succeeds by assumption.
    cbn [game emit with_game]. rewrite !currentEpoch_setEpoch. fold g.
    eexists. split; [reflexivity|].
    cbn [dug events game emit with_game]. rewrite Hid.
    split; [reflexivity|]. split; [rewrite <- app_assoc; reflexivity|].
    rewrite !currentEpoch_setEpoch. cbn [currentEpoch setCurrentEpoch].
    rewrite getEpoch_setEpoch.
    split; [|split; reflexivity].
    rewrite getEpoch_setEpoch_ne by lia.
    unfold getEpoch. cbn [epochs setCurrentEpoch].
    fold (getEpoch (setEpoch g (currentEpoch g) (markSettled e)) (currentEpoch g)).
    apply getEpoch_setEpoch.
  - intros Hover sender. unfold run. cbn [exec]. rewrite Hs.
    unfold _startNewEpoch. cbv zeta. cbn [game emit with_game].
    change (currentEpoch (setEpoch g (currentEpoch g) (markSettled e)))
      with (currentEpoch g).
    change (epochDuration (setEpoch g (currentEpoch g) (markSettled e)))
      with (epochDuration g).
    unfold checked_add.
    destruct (N.leb_spec (currentEpoch g + 1) MAX_UINT256) as [Hc|Hc];
      [|reflexivity].
    cbn [bind].
    destruct (N.leb_spec (now + epochDuration g) MAX_UINT256) as [Hd|Hd];
      [|reflexivity].
    lia.
Qed.

(** ** The prize of a sole winner *)

Lemma default_Some (d x : N) : default d (Some x) = x.
Proof. reflexivity. Qed.

(** When only the agent category has a winner, [settleEpoch] mints the
    half-pool to that winner twice and reports the whole pool as the prize. *)
Lemma settlePrizes_sole_agent self e t t1 hp ap :
  0 < prizePool e -> humanWinner e = 0 -> agentWinner e <> 0 ->
  settlePrizes self e t = Ok (t1, hp, ap) ->
  hp = 0 /\ ap = prizePool e
  /\ DugToken.totalSupply t1 = DugToken.totalSupply t + 2 * (prizePool e / 2)
  /\ DugToken.balanceOf t1 (agentWinner e)
     = DugToken.balanceOf t (agentWinner e) + 2 * (prizePool e / 2).
Proof.
  intros Hpos Hh Ha Hs. unfold settlePrizes in Hs.
  apply N.ltb_lt in Hpos. rewrite Hpos, Hh in Hs.
  apply N.eqb_neq in Ha. rewrite Ha in Hs. cbv zeta in Hs.
  cbn [N.eqb negb andb bind fst snd] in Hs.
  apply bind_Ok in Hs. destruct Hs as ([ta pa] & H1 & Hs).
  apply bind_Ok in H1. destruct H1 as (t' & Hm1 & H1). injection H1 as <- <-.
  cbn [fst snd bind] in Hs.
  apply bind_Ok in Hs. destruct Hs as ([tb pb] & H2 & Hs).
  apply bind_Ok in H2. destruct H2 as (t'' & Hm2 & H2). injection H2 as <- <-.
  cbn [fst snd bind] in Hs. injection Hs as <- <- <-.
  apply mint_Ok in Hm1. destruct Hm1 as (_ & _ & _ & ->).
  apply mint_Ok in Hm2. destruct Hm2 as (_ & _ & _ & ->).
  unfold DugToken.balanceOf. cbn [DugToken.totalSupply DugToken.balances].
  rewrite lookup_insert_eq, default_Some, lookup_insert_eq, default_Some.
  repeat split; try reflexivity; lia.
Qed.

(** The human-only case is symmetric. *)
Lemma settlePrizes_sole_human self e t t1 hp ap :
  0 < prizePool e -> agentWinner e = 0 -> humanWinner e <> 0 ->
  settlePrizes self e t = Ok (t1, hp, ap) ->
  ap = 0 /\ hp = prizePool e
  /\ DugToken.totalSupply t1 = DugToken.totalSupply t + 2 * (prizePool e / 2)
  /\ DugToken.balanceOf t1 (humanWinner e)
     = DugToken.balanceOf t (humanWinner e) + 2 * (prizePool e / 2).
Proof.
  intros Hpos Ha Hh Hs. unfold settlePrizes in Hs.
  apply N.ltb_lt in Hpos. rewrite Hpos, Ha in Hs.
  apply N.eqb_neq in Hh. rewrite Hh in Hs. cbv zeta in Hs.
  cbn [N.eqb negb andb bind fst snd] in Hs.
  apply bind_Ok in Hs. destruct Hs as ([ta pa] & H1 & Hs).
  apply bind_Ok in H1. destruct H1 as (t' & Hm1 & H1). injection H1 as <- <-.
  cbn [fst snd bind] in Hs.
  apply bind_Ok in Hs. destruct Hs as ([tb pb] & H2 & Hs).
  apply bind_Ok in H2. destruct H2 as (t'' & Hm2 & H2). injection H2 as <- <-.
  cbn [fst snd bind] in Hs. injection Hs as <- <- <-.
  apply mint_Ok in Hm1. destruct Hm1 as (_ & _ & _ & ->).
  apply mint_Ok in Hm2. destruct Hm2 as (_ & _ & _ & ->).
  unfold DugToken.balanceOf. cbn [DugToken.totalSupply DugToken.balances].
  rewrite lookup_insert_eq, default_Some, lookup_insert_eq, default_Some.
  repeat split; try reflexivity; lia.
Qed.

(** Twice the half-pool is the pool exactly when the pool is even. *)
Lemma twice_half_pool p : 2 * (p / 2) = p <-> p mod 2 = 0.
Proof. lia. Qed.

(** ** The leaderboards of the reachable worlds *)

Lemma StronglySorted_of_lookup {A : Type} (R : A -> A -> Prop) (l : list A) :
  (forall i j x y, (i < j)%nat -> l !! i = Some x -> l !! j = Some y -> R x y) ->
  StronglySorted R l.
Proof.
  induction l as [|a l IH]; intros Hl; constructor.
  - apply IH. intros i j x y Hij Hx Hy. apply (Hl (S i) (S j) x y); [lia | |]; assumption.
  - apply Forall_lookup_2. intros i x Hx. apply (Hl 0%nat (S i) a x); [lia | |];
      [reflexivity | assumption].
Qed.

Lemma occupied_lookup g lb c i x :
  boardOk g lb c -> occupied lb c !! i = Some x ->
  (i < N.to_nat c)%nat /\ x = lbAt lb i.
Proof.
  intros Hok Hx. unfold occupied in Hx.
  apply lookup_take_Some in Hx. destruct Hx as [Hx Hi].
  split; [assumption|]. unfold lbAt. rewrite Hx. reflexivity.
Qed.

Lemma boardOk_occupied g lb c :
  boardOk g lb c ->
  StronglySorted (fun x y => score y <= score x) (occupied lb c)
  /\ length (occupied lb c) = N.to_nat c
  /\ (length (occupied lb c) <= 20)%nat
  /\ NoDup (sessionId <$> occupied lb c).
Proof.
  intros Hok. pose proof Hok as [Hlen Hc _ Hsorted Hnodup _].
  unfold LB_SIZE in *.
  assert (length (occupied lb c) = N.to_nat c) as Hocc.
  { unfold occupied. rewrite length_take_le; lia. }
  split; [|split; [assumption | split; [lia|]]].
  - apply StronglySorted_of_lookup. intros i j x y Hij Hx Hy.
    apply (occupied_lookup _ _ _ _ _ Hok) in Hx, Hy.
    destruct Hx as [_ ->], Hy as [Hj ->]. apply Hsorted; lia.
  - apply NoDup_alt. intros i j s Hi Hj.
    rewrite list_lookup_fmap in Hi, Hj.
    destruct (occupied lb c !! i) as [x|] eqn:Hx; [|discriminate].
    destruct (occupied lb c !! j) as [y|] eqn:Hy; [|discriminate].
    apply (occupied_lookup _ _ _ _ _ Hok) in Hx, Hy.
    destruct Hx as [Hi' ->], Hy as [Hj' ->].
    cbn in Hi, Hj. injection Hi as Hi. injection Hj as Hj.
    apply Hnodup; congruence.
Qed.

Lemma worldOk_board w a :
  worldOk w -> boardOk (game w) (boardOf (game w) a) (countOf (game w) a).
Proof. intros Hok. destruct a; cbn [boardOf countOf]; apply Hok. Qed.

(** C5. After any sequence of transactions, each of the two leaderboards
    holds at most 20 occupied entries, sorted by non-increasing score and
    with pairwise distinct session ids. A successful submission leaves every
    occupied entry whose score is at least the new score (in particular
    every entry with an equal score) in its slot, the new entry, if
    placed, ranking below it; when the board is full and the new score
    strictly exceeds no entry, the board is left as it was. Once the
    reward is minted nothing in the leaderboard update can make the call
    fail. *)
Theorem leaderboards_stay_ordered :
  (forall w a,
      reachable w ->
      let lb := occupied (boardOf (game w) a) (countOf (game w) a) in
      StronglySorted (fun x y => score y <= score x) lb
      /\ length lb = N.to_nat (countOf (game w) a)
      /\ (length lb <= 20)%nat
      /\ NoDup (sessionId <$> lb))
  /\ (forall w sender now sc rd kl sid sAt sig w',
      reachable w ->
      submitScore sender now w sc rd kl sid sAt sig = Ok w' ->
      let a := isAgentOf w sender in
      let lb := boardOf (game w) a in
      let count := countOf (game w) a in
      let lb' := boardOf (game w') a in
      (forall i, (i < N.to_nat count)%nat -> sc <= score (lbAt lb i) ->
                 lbAt lb' i = lbAt lb i
                 /\ forall k, insertAtOf lb count sc = Some k -> (i < k)%nat)
      /\ (count = LB_SIZE ->
          (forall i, (i < N.to_nat LB_SIZE)%nat -> sc <= score (lbAt lb i)) ->
          lb' = lb)
      /\ boardOf (game w') (negb a) = boardOf (game w) (negb a))
  /\ (forall w sender now sc rd kl sid sAt sig w1 w2,
      verifySubmission sender now w sc rd kl sid sAt sig = Ok tt ->
      enterSubmission sender w sc sid = Ok w1 ->
      _mintGameplayRewards w1 sender kl rd = Ok w2 ->
      submitScore sender now w sc rd kl sid sAt sig
      = Ok (finishSubmit sender now w2 (isAgentOf w sender) sc rd kl sid)).
Proof.
  split; [|split].
  - intros w a Hreach. cbv zeta.
    apply boardOk_occupied with (g := game w).
    apply worldOk_board, reachable_ok, Hreach.
  - intros w sender now sc rd kl sid sAt sig w' Hreach Hs. cbv zeta.
    apply reachable_ok in Hreach.
    pose proof (worldOk_board w (isAgentOf w sender) Hreach) as Hb.
    apply submitScore_game in Hs. cbv zeta in Hs.
    destruct Hs as (_ & _ & _ & _ & Eb & _ & Enb & _).
    rewrite Eb, updateLeaderboard_insertAtOf.
    pose proof (insertAtOf_spec (boardOf (game w) (isAgentOf w sender)) _ sc
                  (board_count _ _ _ Hb)) as Hspec.
    destruct (insertAtOf (boardOf (game w) (isAgentOf w sender))
                (countOf (game w) (isAgentOf w sender)) sc) as [k|] eqn:Hk;
      cbn [fst].
    + destruct Hspec as (Hkc & Hk20 & Hbefore & Hat).
      split; [|split; [|exact Enb]].
      * intros i Hi Hge.
        assert (i < k)%nat as Hik.
        { destruct (Nat.lt_ge_cases i k) as [|Hki]; [assumption|].
          assert (score (lbAt (boardOf (game w) (isAgentOf w sender)) k) < sc)
            by (apply Hat; lia).
          pose proof (board_sorted _ _ _ Hb k i Hki Hi). lia. }
        split.
        -- rewrite inserted_lookup by (try apply Hb; assumption).
           destruct (Nat.ltb_spec i k); [reflexivity | lia].
        -- intros k' [= <-]. exact Hik.
      * intros Hfull Hall. exfalso.
        assert (score (lbAt (boardOf (game w) (isAgentOf w sender)) k) < sc)
          by (apply Hat; rewrite Hfull; exact Hk20).
        specialize (Hall k Hk20). lia.
    + split; [|split; [|exact Enb]].
      * intros i Hi Hge. split; [reflexivity | discriminate].
      * reflexivity.
  - intros w sender now sc rd kl sid sAt sig w1 w2 Hv He Hm.
    rewrite submitScore_steps, Hv. cbn [bind]. rewrite He. cbn [bind].
    rewrite Hm. reflexivity.
Qed.

(** ** The supply cap *)

Lemma rewardAmount_u64 kl rd :
  kl < 2 ^ 64 -> rd < 2 ^ 64 ->
  rewardAmount kl rd + DugToken.MAX_SUPPLY <= MAX_UINT256.
Proof.
  intros Hk Hr. unfold rewardAmount, REWARD_PER_KILL, REWARD_PER_ROUND,
    REWARD_MILESTONE, DugToken.MAX_SUPPLY, MAX_UINT256.
  assert (2 ^ 64 = 18446744073709551616) as E by reflexivity. rewrite E in *.
  destruct (5 <=? rd), (10 <=? rd), (20 <=? rd); lia.
Qed.

Lemma mintGameplayRewards_over_cap w p kl rd :
  supplyOk (dug w) ->
  DugToken.MAX_SUPPLY < DugToken.totalSupply (dug w) + rewardAmount kl rd ->
  (exists f, _mintGameplayRewards w p kl rd = Err f)
  /\ (DugToken.gameContract (dug w) = this w ->
      DugToken.totalSupply (dug w) + rewardAmount kl rd <= MAX_UINT256 ->
      _mintGameplayRewards w p kl rd = Err SupplyExceeded).
Proof.
  unfold supplyOk. intros Hok Hover. split.
  - unfold _mintGameplayRewards.
    destruct (gameplayReward kl rd) as [total|f] eqn:Hg; cbn [bind]; [|eauto].
    apply gameplayReward_Ok in Hg. subst total.
    destruct (N.ltb_spec 0 (rewardAmount kl rd)); [|lia].
    destruct (mint_over_cap_fails (this w) (dug w) p _ Hover) as [f ->].
    cbn [bind]. eauto.
  - intros Hgame Hfit. unfold _mintGameplayRewards.
    rewrite gameplayReward_fits by lia. cbn [bind].
    destruct (N.ltb_spec 0 (rewardAmount kl rd)); [|lia].
    rewrite (mint_exceeds _ _ p _ (eq_sym Hgame) Hover Hfit). reflexivity.
Qed.

(** C7. The token's total supply never exceeds [MAX_SUPPLY] in a reachable
    world. A [submitScore] call whose gameplay reward would push the total
    supply above [MAX_SUPPLY] fails as a whole and changes nothing: supply,
    leaderboards, session registry and epochs are as before the call. When
    the call gets as far as the reward mint, the failure is
    [SupplyExceeded], the game being the token's minter and the sum fitting
    in a [uint256], which it does for all 64-bit kill and round counts. *)
Theorem supply_cap_enforced :
  (forall w, reachable w -> DugToken.totalSupply (dug w) <= DugToken.MAX_SUPPLY)
  /\ (forall w sender now sc rd kl sid sAt sig,
      reachable w ->
      DugToken.MAX_SUPPLY < DugToken.totalSupply (dug w) + rewardAmount kl rd ->
      (exists f, run sender now (SubmitScore sc rd kl sid sAt sig) w = (w, Some f))
      /\ (forall w1,
          verifySubmission sender now w sc rd kl sid sAt sig = Ok tt ->
          enterSubmission sender w sc sid = Ok w1 ->
          DugToken.gameContract (dug w) = this w ->
          DugToken.totalSupply (dug w) + rewardAmount kl rd <= MAX_UINT256 ->
          run sender now (SubmitScore sc rd kl sid sAt sig) w
          = (w, Some SupplyExceeded))
      /\ (kl < 2 ^ 64 -> rd < 2 ^ 64 ->
          DugToken.totalSupply (dug w) + rewardAmount kl rd <= MAX_UINT256)).
Proof.
  split.
  - intros w Hreach. apply reachable_ok in Hreach. apply Hreach.
  - intros w sender now sc rd kl sid sAt sig Hreach Hover.
    apply reachable_ok in Hreach. pose proof (ok_supply _ Hreach) as Hsup.
    assert (forall w1,
              enterSubmission sender w sc sid = Ok w1 ->
              (exists f, _mintGameplayRewards w1 sender kl rd = Err f)
              /\ (DugToken.gameContract (dug w) = this w ->
                  DugToken.totalSupply (dug w) + rewardAmount kl rd <= MAX_UINT256 ->
                  _mintGameplayRewards w1 sender kl rd = Err SupplyExceeded))
      as Hmint.
    { intros w1 He. apply enterSubmission_Ok in He.
      destruct He as (t & r & g1 & -> & Es & Eg & _ & _).
      pose proof (mintGameplayRewards_over_cap
                    (mkWorld t r g1 (this w) (chainid w) (events w)) sender kl rd)
        as Hm.
      unfold supplyOk in Hm. cbn [dug this] in Hm. rewrite Es, Eg in Hm.
      apply Hm; assumption. }
    unfold run. cbn [exec]. rewrite submitScore_steps.
    split; [|split].
    + destruct (verifySubmission sender now w sc rd kl sid sAt sig) as [u|f];
        cbn [bind]; [|eauto].
      destruct (enterSubmission sender w sc sid) as [w1|f] eqn:He; cbn [bind]; [|eauto].
      destruct (Hmint w1 eq_refl) as [[f ->] _]. cbn [bind]. eauto.
    + intros w1 Hv He Hgame Hfit. rewrite Hv. cbn [bind]. rewrite He. cbn [bind].
      destruct (Hmint w1 He) as [_ ->]; try assumption. reflexivity.
    + intros Hk Hr. pose proof (rewardAmount_u64 kl rd Hk Hr). lia.
Qed.

(** ** The tolerant entry fee *)

Lemma recordTopScore_top sender g a sc :
  let e := getEpoch g (currentEpoch g) in
  let g' := recordTopScore sender g a sc in
  let e' := getEpoch g' (currentEpoch g') in
  agentTopScore e' = (if a && (agentTopScore e <? sc) then sc else agentTopScore e)
  /\ agentWinner e' = (if a && (agentTopScore e <? sc) then sender else agentWinner e)
  /\ humanTopScore e'
     = (if negb a && (humanTopScore e <? sc) then sc else humanTopScore e)
  /\ humanWinner e'
     = (if negb a && (humanTopScore e <? sc) then sender else humanWinner e).
Proof.
  unfold recordTopScore. cbv zeta.
  destruct a; cbn [negb andb].
  - destruct (agentTopScore _ <? sc);
      rewrite ?currentEpoch_setEpoch, ?getEpoch_setEpoch; repeat split; reflexivity.
  - destruct (humanTopScore _ <? sc);
      rewrite ?currentEpoch_setEpoch, ?getEpoch_setEpoch; repeat split; reflexivity.
Qed.

Lemma enterSubmission_skipped sender w sc sid :
  DugToken.allowance (dug w) sender (this w) < entryFee w sender ->
  enterSubmission sender w sc sid =
  do r <- AgentRegistry.recordGame (this w) (registry w) sender sc;
  Ok (with_registry (with_game w (markSession (game w) sid)) r).
Proof.
  intros Hlow. unfold enterSubmission. cbv zeta.
  rewrite payEntryFee_skipped by exact Hlow. reflexivity.
Qed.

(** With the allowance below the fee, the pools are left alone, the token
    changes by the reward mint only, and the call succeeds whenever its
    other steps do. *)
Lemma low_allowance_frame sender now w sc rd kl sid sAt sig :
  DugToken.allowance (dug w) sender (this w) < entryFee w sender ->
  let a := isAgentOf w sender in
  let g := game w in
  let e := getEpoch g (currentEpoch g) in
  let call := submitScore sender now w sc rd kl sid sAt sig in
  let profile := AgentRegistry.getProfile (registry w) sender in
  (forall w',
      call = Ok w' ->
      let e' := getEpoch (game w') (currentEpoch (game w')) in
      prizePool e' = prizePool e
      /\ burnAmount e' = burnAmount e
      /\ treasuryAmount e' = treasuryAmount e
      /\ ((rewardAmount kl rd = 0 /\ dug w' = dug w)
          \/ (0 < rewardAmount kl rd
              /\ DugToken.mint (this w) (dug w) sender (rewardAmount kl rd)
                 = Ok (dug w')))
      /\ boardOf (game w') a
         = fst (_updateLeaderboard now (boardOf g a) (countOf g a)
                  sender sc rd kl a sid)
      /\ agentTopScore e'
         = (if a && (agentTopScore e <? sc) then sc else agentTopScore e)
      /\ agentWinner e'
         = (if a && (agentTopScore e <? sc) then sender else agentWinner e)
      /\ humanTopScore e'
         = (if negb a && (humanTopScore e <? sc) then sc else humanTopScore e)
      /\ humanWinner e'
         = (if negb a && (humanTopScore e <? sc) then sender else humanWinner e))
  /\ (sessionUsed g sid = false ->
      now <= sAt + 300 -> sAt + 300 <= MAX_UINT256 ->
      recover (toEthSignedMessageHash
         (keccak256_packed sender sc rd kl sid sAt (chainid w))) sig
      = Ok (scoreSigner g) ->
      this w = AgentRegistry.owner (registry w) ->
      AgentRegistry.gamesPlayed profile + 1 <= MAX_UINT256 ->
      AgentRegistry.totalScore profile + sc <= MAX_UINT256 ->
      (rewardAmount kl rd = 0
       \/ (DugToken.gameContract (dug w) = this w /\ sender <> 0
           /\ DugToken.totalSupply (dug w) + rewardAmount kl rd
              <= DugToken.MAX_SUPPLY)) ->
      exists w', call = Ok w').
Proof.
  intros Hlow. cbv zeta. split.
  - intros w' Hs. pose proof Hs as Hgame.
    apply submitScore_game in Hgame. cbv zeta in Hgame.
    destruct Hgame as (_ & _ & _ & _ & Eb & _).
    apply submitScore_Ok in Hs. destruct Hs as (_ & w1 & w2 & He & Hm & ->).
    rewrite enterSubmission_skipped in He by exact Hlow.
    apply bind_Ok in He. destruct He as (r & _ & He). injection He as <-.
    apply mintGameplayRewards_Ok in Hm. destruct Hm as (total & Hg & Hm).
    apply gameplayReward_Ok in Hg. subst total.
    cbn [this dug with_registry with_game] in Hm.
    set (w0 := with_registry (with_game w (markSession (game w) sid)) r) in *.
    assert (game w2 = markSession (game w) sid) as Eg2
      by (destruct Hm as [[_ ->] | (_ & t & _ & ->)]; reflexivity).
    pose proof (placeScore_frame sender now w2 (isAgentOf w sender) sc rd kl sid) as Hps.
    cbv zeta in Hps. destruct Hps as (Pd & _ & _ & _ & _ & Pcur & Pep & _).
    set (gp := game (placeScore sender now w2 (isAgentOf w sender) sc rd kl sid)) in *.
    assert (getEpoch gp (currentEpoch gp) = getEpoch (game w) (currentEpoch (game w)))
      as Ee.
    { unfold getEpoch. rewrite Pep, Pcur, Eg2. reflexivity. }
    pose proof (recordTopScore_frame sender gp (isAgentOf w sender) sc) as Hrt.
    cbv zeta in Hrt. destruct Hrt as (_ & _ & _ & _ & _ & _ & _ & Rp & Rb & Rt).
    pose proof (recordTopScore_top sender gp (isAgentOf w sender) sc) as Htop.
    cbv zeta in Htop. rewrite Ee in Rp, Rb, Rt, Htop.
    destruct Htop as (T1 & T2 & T3 & T4).
    unfold finishSubmit in *. cbv zeta in *. cbn [game dug emit with_game] in *.
    fold gp in Eb |- *.
    repeat split; try assumption.
    rewrite Pd. destruct Hm as [[Hz ->] | (Hpos & t & Hmint & ->)].
    + left. split; [assumption | reflexivity].
    + right. split; assumption.
  - intros Hu Hnow Hfit Hrec Hown Hgames Htotal Hreward.
    rewrite submitScore_steps.
    rewrite verify_passes by assumption. cbn [bind].
    rewrite enterSubmission_skipped by exact Hlow.
    destruct (recordGame_succeeds (this w) (registry w) sender sc Hown Hgames Htotal)
      as [r ->].
    cbn [bind]. unfold _mintGameplayRewards.
    pose proof MAX_SUPPLY_fits.
    rewrite gameplayReward_fits by (destruct Hreward as [-> | (_ & _ & ?)]; lia).
    cbn [bind].
    destruct (N.ltb_spec 0 (rewardAmount kl rd)) as [Hpos|Hz].
    + destruct Hreward as [Hz | (Hgame & Hsender & Hcap)]; [lia|].
      cbn [this dug with_registry with_game].
      rewrite (mint_succeeds _ _ sender _ (eq_sym Hgame) Hcap Hsender).
      cbn [bind]. eauto.
    + cbn [bind]. eauto.
Qed.

(** * Further properties *)

(** ** More about what a submission writes *)

Lemma recordTopScore_other sender g a sc k :
  k <> currentEpoch g ->
  epochs (recordTopScore sender g a sc) !! k = epochs g !! k.
Proof.
  intros Hk. unfold recordTopScore. cbv zeta.
  destruct (a && _); rewrite ?currentEpoch_setEpoch;
    (destruct (negb a && _); rewrite ?currentEpoch_setEpoch);
    unfold setEpoch; cbn [epochs currentEpoch];
    rewrite ?lookup_insert_ne by congruence; reflexivity.
Qed.

Lemma entered_epoch g sid g1 :
  entered g sid g1 ->
  let e := getEpoch g (currentEpoch g) in
  let e1 := getEpoch g1 (currentEpoch g1) in
  (forall k, k <> currentEpoch g -> epochs g1 !! k = epochs g !! k)
  /\ humanWinner e1 = humanWinner e /\ agentWinner e1 = agentWinner e
  /\ humanTopScore e1 = humanTopScore e /\ agentTopScore e1 = agentTopScore e.
Proof.
  intros [-> | [fee ->]]; cbv zeta.
  - repeat split; reflexivity.
  - rewrite currentEpoch_setEpoch.
    change (currentEpoch (markSession g sid)) with (currentEpoch g).
    rewrite getEpoch_setEpoch. split; [|repeat split; reflexivity].
    intros k Hk. unfold setEpoch. cbn [epochs markSession].
    rewrite lookup_insert_ne by congruence. reflexivity.
Qed.

(** What a successful submission does to the epochs and to the registry. *)
Lemma submitScore_epochs sender now w sc rd kl sid sAt sig w' :
  submitScore sender now w sc rd kl sid sAt sig = Ok w' ->
  let a := isAgentOf w sender in
  let e := getEpoch (game w) (currentEpoch (game w)) in
  let e' := getEpoch (game w') (currentEpoch (game w')) in
  (forall k, k <> currentEpoch (game w) ->
             epochs (game w') !! k = epochs (game w) !! k)
  /\ agentTopScore e' = (if a && (agentTopScore e <? sc) then sc else agentTopScore e)
  /\ agentWinner e' = (if a && (agentTopScore e <? sc) then sender else agentWinner e)
  /\ humanTopScore e'
     = (if negb a && (humanTopScore e <? sc) then sc else humanTopScore e)
  /\ humanWinner e'
     = (if negb a && (humanTopScore e <? sc) then sender else humanWinner e)
  /\ AgentRegistry.recordGame (this w) (registry w) sender sc = Ok (registry w')
  /\ this w' = this w /\ chainid w' = chainid w.
Proof.
  intros Hs. cbv zeta.
  apply submitScore_Ok in Hs. destruct Hs as (_ & w1 & w2 & He & Hm & ->).
  unfold enterSubmission in He. cbv zeta in He.
  apply bind_Ok in He. destruct He as (w0 & Hpay & He).
  apply bind_Ok in He. destruct He as (r & Hrec & He). injection He as <-.
  assert (registry w0 = registry w /\ this w0 = this w /\ chainid w0 = chainid w
          /\ entered (game w) sid (game w0)) as (Er & Et & Ec & Hent).
  { apply payEntryFee_Ok in Hpay.
    destruct Hpay as [[_ ->] | (_ & t & g' & _ & Hd & ->)].
    - repeat split. left. reflexivity.
    - repeat split. right. apply distributeEntryFee_Ok in Hd.
      cbv zeta in Hd. eexists. exact Hd. }
  rewrite Er, Et in Hrec.
  apply mintGameplayRewards_frame in Hm.
  cbn [game registry this chainid with_registry] in Hm.
  destruct Hm as (Eg2 & Er2 & Et2 & Ec2 & _).
  pose proof (placeScore_frame sender now w2 (isAgentOf w sender) sc rd kl sid) as Hps.
  cbv zeta in Hps. destruct Hps as (_ & Pr & Pt & Pc & _ & Pcur & Pep & _).
  unfold finishSubmit. cbv zeta. cbn [game registry this chainid emit with_game].
  set (gp := game (placeScore sender now w2 (isAgentOf w sender) sc rd kl sid)) in *.
  pose proof (entered_frame _ _ _ Hent) as (_ & _ & _ & _ & _ & Ecur & _).
  pose proof (entered_epoch _ _ _ Hent) as Hep. cbv zeta in Hep.
  destruct Hep as (Hother & E1 & E2 & E3 & E4).
  assert (currentEpoch gp = currentEpoch (game w)) as Egp
    by (rewrite Pcur, Eg2; exact Ecur).
  assert (getEpoch gp (currentEpoch gp) = getEpoch (game w0) (currentEpoch (game w0)))
    as Ee by (unfold getEpoch; rewrite Pep, Pcur, Eg2; reflexivity).
  pose proof (recordTopScore_top sender gp (isAgentOf w sender) sc) as Htop.
  cbv zeta in Htop. rewrite Ee, E1, E2, E3, E4 in Htop.
  destruct Htop as (T1 & T2 & T3 & T4).
  split.
  { intros k Hk. rewrite recordTopScore_other by congruence.
    rewrite Pep, Eg2. apply Hother. exact Hk. }
  repeat split; try assumption; congruence.
Qed.

(** ** More about what a settlement writes *)

Lemma settleEpoch_epochs now w w' :
  settleEpoch now w = Ok w' ->
  let g := game w in
  let e := getEpoch g (currentEpoch g) in
  epochs (game w')
  = <[currentEpoch g + 1 :=
        mkEpoch (currentEpoch g + 1) now (now + epochDuration g) 0 0 0 false 0 0 0 0]>
      (<[currentEpoch g := markSettled e]> (epochs g))
  /\ now + epochDuration g <= MAX_UINT256
  /\ registry w' = registry w
  /\ treasuryBalance (game w') = treasuryBalance g + treasuryAmount e
  /\ scoreSigner (game w') = scoreSigner g /\ humanEntryFee (game w') = humanEntryFee g
  /\ agentEntryFee (game w') = agentEntryFee g /\ treasury (game w') = treasury g
  /\ owner (game w') = owner g.
Proof.
  intros Hs. cbv zeta. apply settleEpoch_Ok in Hs. cbv zeta in Hs.
  destruct Hs as (_ & _ & t1 & hp & ap & t2 & t3 & g2 & _ & _ & Htre & Hnew).
  apply startNewEpoch_Ok in Hnew. cbv zeta in Hnew.
  cbn [game emit with_game with_dug] in Hnew.
  destruct Hnew as (_ & Hfit & ->). cbn [game registry emit with_game with_dug].
  set (g1 := setEpoch (game w) (currentEpoch (game w))
               (markSettled (getEpoch (game w) (currentEpoch (game w))))) in *.
  assert ((g2 = g1 /\ treasuryAmount (getEpoch (game w) (currentEpoch (game w))) = 0)
          \/ g2 = setTreasuryBalance g1
                    (treasuryBalance g1
                     + treasuryAmount (getEpoch (game w) (currentEpoch (game w)))))
    as Hg2.
  { destruct (N.ltb_spec 0 (treasuryAmount (getEpoch (game w) (currentEpoch (game w))))).
    - apply bind_Ok in Htre. destruct Htre as (t' & _ & Htre).
      apply bind_Ok in Htre. destruct Htre as (b & Hb & Htre).
      apply checked_add_Ok in Hb. destruct Hb as [-> _].
      injection Htre as _ <-. right. reflexivity.
    - injection Htre as _ <-. left. split; [reflexivity | lia]. }
  destruct Hg2 as [[-> Hz] | ->]; cbn; rewrite ?Hz, ?N.add_0_r; repeat split;
    assumption.
Qed.

(** ** Invariants of the epochs, the registry and the categories *)

Lemma getEpoch_lookup g k e : epochs g !! k = Some e -> getEpoch g k = e.
Proof. unfold getEpoch. now intros ->. Qed.

Lemma getEpoch_ext g g' k : epochs g' !! k = epochs g !! k -> getEpoch g' k = getEpoch g k.
Proof. unfold getEpoch. now intros ->. Qed.

Lemma historyOk_frame g g' :
  historyOk g ->
  currentEpoch g' = currentEpoch g ->
  (forall k, k <> currentEpoch g -> epochs g' !! k = epochs g !! k) ->
  epochHeader (getEpoch g' (currentEpoch g)) = epochHeader (getEpoch g (currentEpoch g)) ->
  historyOk g'.
Proof.
  intros [Hc Hp Hs Ha] Ecur Hother Hhead.
  unfold epochHeader in Hhead. injection Hhead as Eid Est Een Ese.
  split; rewrite ?Ecur.
  - exact Hc.
  - intros k Hk. destruct (N.eq_dec k (currentEpoch g)) as [->|Hne].
    + rewrite Eid, Est, Een. apply Hp. lia.
    + rewrite (getEpoch_ext _ _ _ (Hother k Hne)). apply Hp. exact Hk.
  - intros k Hk. rewrite (getEpoch_ext g g' k) by (apply Hother; lia).
    apply Hs. exact Hk.
  - intros k Hk. rewrite Hother by lia. apply Ha. exact Hk.
Qed.

Lemma historyOk_same g g' :
  historyOk g -> currentEpoch g' = currentEpoch g -> epochs g' = epochs g ->
  historyOk g'.
Proof.
  intros Hok Ecur Eep. apply (historyOk_frame g g' Hok Ecur).
  - intros k _. now rewrite Eep.
  - unfold getEpoch. now rewrite Eep.
Qed.

Lemma historyOk_settle g g' now :
  historyOk g ->
  currentEpoch g' = currentEpoch g + 1 ->
  epochs g'
  = <[currentEpoch g + 1 :=
        mkEpoch (currentEpoch g + 1) now (now + epochDuration g) 0 0 0 false 0 0 0 0]>
      (<[currentEpoch g := markSettled (getEpoch g (currentEpoch g))]> (epochs g)) ->
  historyOk g'.
Proof.
  intros [Hc Hp Hs Ha] Ecur Eep.
  assert (forall k, getEpoch g' k =
            if k =? currentEpoch g + 1
            then mkEpoch (currentEpoch g + 1) now (now + epochDuration g)
                         0 0 0 false 0 0 0 0
            else if k =? currentEpoch g then markSettled (getEpoch g (currentEpoch g))
            else getEpoch g k) as Hget.
  { intros k. unfold getEpoch at 1. rewrite Eep.
    destruct (N.eqb_spec k (currentEpoch g + 1)) as [->|Hn1].
    - now rewrite lookup_insert_eq.
    - rewrite lookup_insert_ne by congruence.
      destruct (N.eqb_spec k (currentEpoch g)) as [->|Hn2].
      + now rewrite lookup_insert_eq.
      + rewrite lookup_insert_ne by congruence. reflexivity. }
  split; rewrite ?Ecur.
  - lia.
  - intros k Hk. rewrite Hget.
    destruct (N.eqb_spec k (currentEpoch g + 1)) as [->|Hn1]; [cbn; split; lia|].
    destruct (N.eqb_spec k (currentEpoch g)) as [->|Hn2].
    + cbn. apply Hp. lia.
    + apply Hp. lia.
  - intros k Hk. rewrite Hget.
    destruct (N.eqb_spec k (currentEpoch g + 1)) as [->|Hn1]; [lia|].
    destruct (N.eqb_spec k (currentEpoch g)) as [->|Hn2]; [reflexivity|].
    apply Hs. lia.
  - intros k Hk. rewrite Eep.
    rewrite !lookup_insert_ne by lia. apply Ha. lia.
Qed.

Lemma getProfile_insert r a b p :
  AgentRegistry.getProfile
    (AgentRegistry.mk (<[b := p]> (AgentRegistry.profiles r))
       (AgentRegistry.agentIdToWallet r) (AgentRegistry.agentList r)
       (AgentRegistry.owner r)) a
  = if a =? b then p else AgentRegistry.getProfile r a.
Proof.
  unfold AgentRegistry.getProfile. cbn [AgentRegistry.profiles].
  destruct (N.eqb_spec a b) as [->|Hne].
  - now rewrite lookup_insert_eq.
  - now rewrite lookup_insert_ne by congruence.
Qed.

Lemma recordGame_result s r p sc r' :
  AgentRegistry.recordGame s r p sc = Ok r' ->
  let q := AgentRegistry.getProfile r p in
  s = AgentRegistry.owner r
  /\ r' = AgentRegistry.mk
            (<[p := AgentRegistry.mkProfile
                      (AgentRegistry.agentId q) (AgentRegistry.name q)
                      (AgentRegistry.wallet q) (AgentRegistry.isAgent q)
                      (AgentRegistry.gamesPlayed q + 1)
                      (AgentRegistry.totalScore q + sc)
                      (if AgentRegistry.bestScore q <? sc then sc
                       else AgentRegistry.bestScore q)
                      (AgentRegistry.registeredAt q)]> (AgentRegistry.profiles r))
            (AgentRegistry.agentIdToWallet r) (AgentRegistry.agentList r)
            (AgentRegistry.owner r).
Proof.
  unfold AgentRegistry.recordGame. cbv zeta.
  destruct (N.eqb_spec s (AgentRegistry.owner r)); [|discriminate].
  cbn [negb]. intros Hr.
  apply bind_Ok in Hr. destruct Hr as (games & Hg & Hr).
  apply bind_Ok in Hr. destruct Hr as (total & Ht & Hr).
  apply checked_add_Ok in Hg, Ht. destruct Hg as [-> _], Ht as [-> _].
  injection Hr as <-. auto.
Qed.

Lemma recordGame_registryOk s r p sc r' :
  registryOk r -> AgentRegistry.recordGame s r p sc = Ok r' -> registryOk r'.
Proof.
  intros [Hb Ht Hi] Hr. apply recordGame_result in Hr. cbv zeta in Hr.
  destruct Hr as [_ ->].
  split; intros a; rewrite getProfile_insert;
    destruct (N.eqb_spec a p) as [->|Hne]; auto.
  - cbn. specialize (Hb p).
    destruct (N.ltb_spec (AgentRegistry.bestScore (AgentRegistry.getProfile r p)) sc);
      lia.
  - cbn. specialize (Hb p). specialize (Ht p).
    destruct (N.ltb_spec (AgentRegistry.bestScore (AgentRegistry.getProfile r p)) sc);
      nia.
  - cbn. apply Hi.
Qed.

Lemma register_result s now r aid nm ag r' :
  AgentRegistry.register s now r aid nm ag = Ok r' ->
  AgentRegistry.registeredAt (AgentRegistry.getProfile r s) = 0
  /\ (ag = true -> default 0 (AgentRegistry.agentIdToWallet r !! aid) = 0)
  /\ r' = AgentRegistry.mk
            (<[s := AgentRegistry.mkProfile aid nm s ag 0 0 0 now]>
               (AgentRegistry.profiles r))
            (if ag then <[aid := s]> (AgentRegistry.agentIdToWallet r)
             else AgentRegistry.agentIdToWallet r)
            (AgentRegistry.agentList r ++ [s]) (AgentRegistry.owner r).
Proof.
  unfold AgentRegistry.register. intros Hr.
  apply bind_Ok in Hr. destruct Hr as (? & Hreg & Hr).
  apply require_Ok in Hreg. apply N.eqb_eq in Hreg.
  apply bind_Ok in Hr. destruct Hr as (ids & Hids & Hr). injection Hr as <-.
  split; [assumption|]. destruct ag.
  - apply bind_Ok in Hids. destruct Hids as (? & Hfree & Hids).
    apply require_Ok in Hfree. apply N.eqb_eq in Hfree. injection Hids as <-.
    split; [intros _; assumption | reflexivity].
  - injection Hids as <-. split; [discriminate | reflexivity].
Qed.

Lemma getProfile_register r s p ids l a :
  AgentRegistry.getProfile
    (AgentRegistry.mk (<[s := p]> (AgentRegistry.profiles r)) ids l
       (AgentRegistry.owner r)) a
  = if a =? s then p else AgentRegistry.getProfile r a.
Proof.
  unfold AgentRegistry.getProfile. cbn [AgentRegistry.profiles].
  destruct (N.eqb_spec a s) as [->|Hne].
  - now rewrite lookup_insert_eq.
  - now rewrite lookup_insert_ne by congruence.
Qed.

Lemma register_registryOk s now r aid nm ag r' :
  registryOk r -> AgentRegistry.register s now r aid nm ag = Ok r' -> registryOk r'.
Proof.
  intros [Hb Ht Hi] Hr. apply register_result in Hr.
  destruct Hr as (_ & Hfree & ->).
  split; intros a; rewrite getProfile_register;
    destruct (N.eqb_spec a s) as [->|Hne]; auto;
    cbn [AgentRegistry.bestScore AgentRegistry.totalScore AgentRegistry.gamesPlayed
         AgentRegistry.isAgent AgentRegistry.agentId AgentRegistry.agentIdToWallet];
    try lia.
  - intros _ ->. now rewrite lookup_insert_eq.
  - intros Ha Hag.
    specialize (Hi a Ha Hag). destruct ag; [|exact Hi].
    destruct (N.eq_dec (AgentRegistry.agentId (AgentRegistry.getProfile r a)) aid)
      as [Heq|Hneq].
    + rewrite Heq in Hi. rewrite (Hfree eq_refl) in Hi. congruence.
    + rewrite lookup_insert_ne by congruence. exact Hi.
Qed.

Lemma board_head_after g now lb c p s r k a sid top :
  boardOk g lb c ->
  top <= score (lbAt lb 0) ->
  (if top <? s then s else top)
  <= score (lbAt (fst (_updateLeaderboard now lb c p s r k a sid)) 0).
Proof.
  intros Hok Htop. rewrite updateLeaderboard_insertAtOf.
  pose proof (insertAtOf_spec lb c s (board_count _ _ _ Hok)) as Hspec.
  destruct (insertAtOf lb c s) as [i|]; cbn [fst].
  - destruct Hspec as (Hic & Hi & Hbefore & Hat).
    rewrite inserted_lookup by (try apply Hok; assumption).
    destruct i as [|i]; cbn [Nat.ltb Nat.leb Nat.eqb].
    + cbn [score entryOf].
      destruct (N.ltb_spec top s); [lia|].
      destruct (Nat.eq_dec (N.to_nat c) 0%nat) as [Hz|Hnz].
      * pose proof (board_tail _ _ _ Hok 0%nat) as Hzero.
        rewrite Hzero in Htop by lia. cbn in Htop. lia.
      * assert (score (lbAt lb 0) < s) by (apply Hat; lia). lia.
    + specialize (Hbefore 0%nat ltac:(lia)).
      destruct (N.ltb_spec top s); lia.
  - destruct Hspec as [_ Hall]. specialize (Hall 0%nat ltac:(unfold LB_SIZE; lia)).
    destruct (N.ltb_spec top s); lia.
Qed.

Lemma board_category_after g now lb c p s r k a sid i :
  boardOk g lb c ->
  (forall j, (j < N.to_nat c)%nat -> isAgent (lbAt lb j) = a) ->
  (i < N.to_nat (if (c <? LB_SIZE)%N then (c + 1)%N else c))%nat ->
  isAgent (lbAt (fst (_updateLeaderboard now lb c p s r k a sid)) i) = a.
Proof.
  intros Hok Hcat Hi. rewrite updateLeaderboard_insertAtOf.
  pose proof (insertAtOf_spec lb c s (board_count _ _ _ Hok)) as Hspec.
  pose proof (board_count _ _ _ Hok) as Hc. unfold LB_SIZE in *.
  destruct (insertAtOf lb c s) as [j|]; cbn [fst].
  - destruct Hspec as (Hjc & Hj & _ & _).
    rewrite inserted_lookup by (try apply Hok; assumption).
    change (N.to_nat LB_SIZE) with 20%nat in *.
    destruct (N.ltb_spec c 20);
      destruct (Nat.ltb_spec i j), (Nat.eqb_spec i j), (Nat.ltb_spec i 20);
      try lia; try reflexivity; apply Hcat; lia.
  - destruct Hspec as [-> _]. apply Hcat. exact Hi.
Qed.

Lemma submitScore_categoriesOk sender now w sc rd kl sid sAt sig w' :
  worldOk w -> categoriesOk (game w) ->
  submitScore sender now w sc rd kl sid sAt sig = Ok w' ->
  categoriesOk (game w').
Proof.
  intros Hok [Hcat Hh Ha] Hs.
  pose proof (submitScore_game _ _ _ _ _ _ _ _ _ _ Hs) as Hg. cbv zeta in Hg.
  destruct Hg as (_ & _ & _ & _ & Eb & Ec & Enb & Enc & _).
  pose proof (submitScore_epochs _ _ _ _ _ _ _ _ _ _ Hs) as He. cbv zeta in He.
  destruct He as (_ & T1 & _ & T3 & _).
  pose proof (worldOk_board w (isAgentOf w sender) Hok) as Hboard.
  split.
  - intros b i Hi.
    destruct (Bool.bool_dec b (isAgentOf w sender)) as [->|Hne].
    + rewrite Eb. rewrite Ec in Hi.
      apply (board_category_after (game w)); try assumption. apply Hcat.
    + assert (b = negb (isAgentOf w sender)) as ->
        by (destruct b, (isAgentOf w sender); cbn; congruence).
      rewrite Enb. rewrite Enc in Hi. apply Hcat. exact Hi.
  - rewrite T3. destruct (isAgentOf w sender); cbn [boardOf countOf negb andb] in *.
    + change (humanLeaderboard (game w')) with (boardOf (game w') false).
      cbn [boardOf]. rewrite Enb. exact Hh.
    + rewrite Eb. apply (board_head_after (game w)); assumption.
  - rewrite T1. destruct (isAgentOf w sender); cbn [boardOf countOf negb andb] in *.
    + rewrite Eb. apply (board_head_after (game w)); assumption.
    + rewrite Enb. exact Ha.
Qed.

Lemma categoriesOk_same g g' :
  categoriesOk g ->
  humanLeaderboard g' = humanLeaderboard g -> agentLeaderboard g' = agentLeaderboard g ->
  humanLBCount g' = humanLBCount g -> agentLBCount g' = agentLBCount g ->
  currentEpoch g' = currentEpoch g -> epochs g' = epochs g ->
  categoriesOk g'.
Proof.
  intros [Hcat Hh Ha] Eh Ea Ehc Eac Ecur Eep.
  assert (forall b, boardOf g' b = boardOf g b) as Eb
    by (intros []; cbn [boardOf]; assumption).
  assert (forall b, countOf g' b = countOf g b) as Ec
    by (intros []; cbn [countOf]; assumption).
  split.
  - intros b i Hi. rewrite Eb. rewrite Ec in Hi. apply Hcat. exact Hi.
  - unfold getEpoch. rewrite Eep, Ecur, Eh. exact Hh.
  - unfold getEpoch. rewrite Eep, Ecur, Ea. exact Ha.
Qed.

Lemma submitScore_ok2 sender now w sc rd kl sid sAt sig w' :
  worldOk w -> worldOk2 w ->
  submitScore sender now w sc rd kl sid sAt sig = Ok w' -> worldOk2 w'.
Proof.
  intros Hok [Hhist Hreg Hcat] Hs.
  pose proof (submitScore_game _ _ _ _ _ _ _ _ _ _ Hs) as Hg. cbv zeta in Hg.
  destruct Hg as (_ & _ & Ecur & Ehead & _).
  pose proof (submitScore_epochs _ _ _ _ _ _ _ _ _ _ Hs) as He. cbv zeta in He.
  destruct He as (Hother & _ & _ & _ & _ & Hrec & _).
  split.
  - apply (historyOk_frame (game w)); try assumption.
    rewrite <- Ecur at 1. exact Ehead.
  - eapply recordGame_registryOk; eassumption.
  - eapply submitScore_categoriesOk; eassumption.
Qed.

Lemma settleEpoch_ok2 now w w' :
  worldOk2 w -> settleEpoch now w = Ok w' -> worldOk2 w'.
Proof.
  intros [Hhist Hreg Hcat] Hs.
  pose proof (settleEpoch_game _ _ _ Hs) as Hg. cbv zeta in Hg.
  destruct Hg as (_ & Eh & Ea & Ehc & Eac & _ & Ecur & Enew & _).
  pose proof (settleEpoch_epochs _ _ _ Hs) as He. cbv zeta in He.
  destruct He as (Eep & _ & Er & _).
  split.
  - eapply historyOk_settle; eassumption.
  - rewrite Er. exact Hreg.
  - destruct Hcat as [Hc _ _].
    assert (forall b, boardOf (game w') b = boardOf (game w) b) as Eb
      by (intros []; cbn [boardOf]; assumption).
    assert (forall b, countOf (game w') b = countOf (game w) b) as Ec
      by (intros []; cbn [countOf]; assumption).
    split.
    + intros b i Hi. rewrite Eb. rewrite Ec in Hi. apply Hc. exact Hi.
    + rewrite Enew. cbn. lia.
    + rewrite Enew. cbn. lia.
Qed.

Lemma exec_ok2 sender now c w w' :
  worldOk w -> worldOk2 w -> exec sender now c w = Ok w' -> worldOk2 w'.
Proof.
  intros Hok Hok2 Hex. pose proof Hok2 as [Hhist Hreg Hcat].
  assert (forall t, worldOk2 (with_dug w t)) as Htok
    by (intros t; split; assumption).
  assert (forall g1,
            humanLeaderboard g1 = humanLeaderboard (game w) ->
            agentLeaderboard g1 = agentLeaderboard (game w) ->
            humanLBCount g1 = humanLBCount (game w) ->
            agentLBCount g1 = agentLBCount (game w) ->
            epochs g1 = epochs (game w) ->
            currentEpoch g1 = currentEpoch (game w) ->
            worldOk2 (with_game w g1)) as Hadmin.
  { intros g1 Eh Ea Ehc Eac Ee Ec. split; cbn [game registry with_game].
    - eapply historyOk_same; eassumption.
    - assumption.
    - eapply categoriesOk_same; eassumption. }
  destruct c; cbn [exec] in Hex.
  - eapply submitScore_ok2; eassumption.
  - eapply settleEpoch_ok2; eassumption.
  - unfold setScoreSigner in Hex. destruct (negb _); [discriminate|].
    injection Hex as <-. apply Hadmin; reflexivity.
  - unfold setFees in Hex. destruct (negb _); [discriminate|].
    injection Hex as <-. apply Hadmin; reflexivity.
  - unfold setEpochDuration in Hex. destruct (negb _); [discriminate|].
    injection Hex as <-. apply Hadmin; reflexivity.
  - unfold setTreasury in Hex. destruct (negb _); [discriminate|].
    injection Hex as <-. apply Hadmin; reflexivity.
  - apply bind_Ok in Hex. destruct Hex as (t & _ & Hex). injection Hex as <-. apply Htok.
  - apply bind_Ok in Hex. destruct Hex as (t & _ & Hex). injection Hex as <-. apply Htok.
  - apply bind_Ok in Hex. destruct Hex as (t & _ & Hex). injection Hex as <-. apply Htok.
  - apply bind_Ok in Hex. destruct Hex as (t & _ & Hex). injection Hex as <-. apply Htok.
  - apply bind_Ok in Hex. destruct Hex as (t & _ & Hex). injection Hex as <-. apply Htok.
  - apply bind_Ok in Hex. destruct Hex as (r & Hr & Hex). injection Hex as <-.
    split; cbn [game registry with_registry]; try assumption.
    eapply register_registryOk; eassumption.
  - apply bind_Ok in Hex. destruct Hex as (r & Hr & Hex). injection Hex as <-.
    split; cbn [game registry with_registry]; try assumption.
    eapply recordGame_registryOk; eassumption.
  - apply bind_Ok in Hex. destruct Hex as (r & Hr & Hex). injection Hex as <-.
    split; cbn [game registry with_registry]; try assumption.
    unfold AgentRegistry.transferOwnership in Hr.
    destruct (negb _); [discriminate|]. destruct (newOwner =? 0); [discriminate|].
    injection Hr as <-. destruct Hreg. split; assumption.
Qed.

Lemma deploy_ok2 deployer self chain now signer treasury_ w :
  deploy deployer self chain now signer treasury_ = Ok w -> worldOk2 w.
Proof.
  unfold deploy. intros Hd.
  apply bind_Ok in Hd. destruct Hd as (t & Ht & Hd).
  apply bind_Ok in Hd. destruct Hd as (r & Hr & Hd).
  unfold AgentRegistry.constructor in Hr. destruct (deployer =? 0); [discriminate|].
  injection Hr as <-.
  apply startNewEpoch_Ok in Hd. cbv zeta in Hd. destruct Hd as (_ & Hfit & ->).
  cbn [game currentEpoch epochDuration] in Hfit.
  split; cbn [game registry emit with_game].
  - unfold setEpoch, setCurrentEpoch. cbn [currentEpoch epochs epochDuration N.add].
    split; cbn [currentEpoch].
    + lia.
    + intros k Hk. assert (k = 1) as -> by lia.
      unfold getEpoch. cbn [epochs]. rewrite lookup_insert_eq. cbn. split; lia.
    + intros k Hk. lia.
    + intros k Hk. cbn [epochs]. rewrite lookup_insert_ne by lia. apply lookup_empty.
  - split; intros a; unfold AgentRegistry.getProfile; cbn [AgentRegistry.profiles];
      rewrite lookup_empty; cbn; try lia; try discriminate.
  - split.
    + intros a i Hi. destruct a; cbn in Hi; lia.
    + rewrite currentEpoch_setEpoch, getEpoch_setEpoch. cbn. lia.
    + rewrite currentEpoch_setEpoch, getEpoch_setEpoch. cbn. lia.
Qed.

Lemma reachable_ok2 w : reachable w -> worldOk2 w.
Proof.
  induction 1 as [? ? ? ? ? ? w Hd | sender now c w w' Hreach IH Hex].
  - eapply deploy_ok2; eassumption.
  - eapply exec_ok2; try eassumption. apply reachable_ok. exact Hreach.
Qed.

(** ** Supply accounting *)

Lemma mint_supply s t to amount t' :
  DugToken.mint s t to amount = Ok t' ->
  DugToken.totalSupply t' = DugToken.totalSupply t + amount
  /\ DugToken.gameContract t' = DugToken.gameContract t
  /\ s = DugToken.gameContract t.
Proof.
  intros Hm. apply mint_Ok in Hm. destruct Hm as (Hs & _ & _ & ->). auto.
Qed.

(** The prize block mints [prizesMinted] in all, and reports the half-pool
    to each winner, or the whole pool to a sole winner. *)
Lemma settlePrizes_result self e t t1 hp ap :
  settlePrizes self e t = Ok (t1, hp, ap) ->
  DugToken.totalSupply t1 = DugToken.totalSupply t + prizesMinted e
  /\ DugToken.gameContract t1 = DugToken.gameContract t
  /\ (0 < prizesMinted e -> self = DugToken.gameContract t)
  /\ hp = (if 0 <? prizePool e then
             if humanWinner e =? 0 then 0
             else if agentWinner e =? 0 then prizePool e else prizePool e / 2
           else 0)
  /\ ap = (if 0 <? prizePool e then
             if agentWinner e =? 0 then 0
             else if humanWinner e =? 0 then prizePool e else prizePool e / 2
           else 0).
Proof.
  unfold settlePrizes, prizesMinted. intros Hs.
  destruct (0 <? prizePool e).
  2:{ injection Hs as <- <- <-. rewrite N.add_0_r. repeat split; try reflexivity. lia. }
  cbv zeta in Hs.
  destruct (humanWinner e =? 0), (agentWinner e =? 0);
    cbn [negb andb bind fst snd] in Hs |- *.
  - injection Hs as <- <- <-. rewrite !N.add_0_r. repeat split; try reflexivity. lia.
  - apply bind_Ok in Hs. destruct Hs as ([ta pa] & H1 & Hs).
    apply bind_Ok in H1. destruct H1 as (t' & Hm1 & H1). injection H1 as <- <-.
    cbn [fst snd bind] in Hs.
    apply bind_Ok in Hs. destruct Hs as ([tb pb] & H2 & Hs).
    apply bind_Ok in H2. destruct H2 as (t'' & Hm2 & H2). injection H2 as <- <-.
    cbn [fst snd bind] in Hs. injection Hs as <- <- <-.
    apply mint_supply in Hm1, Hm2.
    destruct Hm1 as (S1 & G1 & C1), Hm2 as (S2 & G2 & C2).
    rewrite S2, S1, G2, G1.
    repeat split; first [reflexivity | lia | intros _; assumption].
  - apply bind_Ok in Hs. destruct Hs as ([ta pa] & H1 & Hs).
    apply bind_Ok in H1. destruct H1 as (t' & Hm1 & H1). injection H1 as <- <-.
    cbn [fst snd bind] in Hs.
    apply bind_Ok in Hs. destruct Hs as ([tb pb] & H2 & Hs).
    apply bind_Ok in H2. destruct H2 as (t'' & Hm2 & H2). injection H2 as <- <-.
    cbn [fst snd bind] in Hs. injection Hs as <- <- <-.
    apply mint_supply in Hm1, Hm2.
    destruct Hm1 as (S1 & G1 & C1), Hm2 as (S2 & G2 & C2).
    rewrite S2, S1, G2, G1.
    repeat split; first [reflexivity | lia | intros _; assumption].
  - apply bind_Ok in Hs. destruct Hs as ([ta pa] & H1 & Hs).
    apply bind_Ok in H1. destruct H1 as (t' & Hm1 & H1). injection H1 as <- <-.
    cbn [fst snd bind] in Hs.
    apply bind_Ok in Hs. destruct Hs as ([tb pb] & H2 & Hs).
    apply bind_Ok in H2. destruct H2 as (t'' & Hm2 & H2). injection H2 as <- <-.
    cbn [fst snd bind] in Hs. injection Hs as <- <- <-.
    apply mint_supply in Hm1, Hm2.
    destruct Hm1 as (S1 & G1 & C1), Hm2 as (S2 & G2 & C2).
    rewrite S2, S1, G2, G1.
    repeat split; first [reflexivity | lia | intros _; assumption].
Qed.

Lemma settleEpoch_supply now w w' :
  settleEpoch now w = Ok w' ->
  let e := getEpoch (game w) (currentEpoch (game w)) in
  DugToken.totalSupply (dug w')
  = DugToken.totalSupply (dug w) + prizesMinted e + treasuryAmount e
  /\ DugToken.gameContract (dug w') = DugToken.gameContract (dug w)
  /\ (0 < prizesMinted e + burnAmount e + treasuryAmount e ->
      this w = DugToken.gameContract (dug w))
  /\ exists hp ap,
      events w' = events w ++
        [EpochSettled (currentEpoch (game w)) (humanWinner e) hp (agentWinner e) ap;
         EpochStarted (currentEpoch (game w) + 1) now (now + epochDuration (game w))]
      /\ hp = (if 0 <? prizePool e then
                 if humanWinner e =? 0 then 0
                 else if agentWinner e =? 0 then prizePool e else prizePool e / 2
               else 0)
      /\ ap = (if 0 <? prizePool e then
                 if agentWinner e =? 0 then 0
                 else if humanWinner e =? 0 then prizePool e else prizePool e / 2
               else 0).
Proof.
  intros Hs. cbv zeta. apply settleEpoch_Ok in Hs. cbv zeta in Hs.
  destruct Hs as (_ & _ & t1 & hp & ap & t2 & t3 & g2 & Hprz & Hburn & Htre & Hnew).
  apply settlePrizes_result in Hprz. destruct Hprz as (S1 & G1 & C1 & Ehp & Eap).
  set (e := getEpoch (game w) (currentEpoch (game w))) in *.
  assert (DugToken.totalSupply t2 = DugToken.totalSupply t1
          /\ DugToken.gameContract t2 = DugToken.gameContract t1
          /\ (0 < burnAmount e -> this w = DugToken.gameContract t1))
    as (S2 & G2 & C2).
  { destruct (N.ltb_spec 0 (burnAmount e)).
    - apply bind_Ok in Hburn. destruct Hburn as (t' & Hm & Hb).
      apply mint_supply in Hm. destruct Hm as (Sm & Gm & Cm).
      apply burn_Ok in Hb. destruct Hb as (_ & ->).
      cbn [DugToken.totalSupply DugToken.gameContract]. rewrite Sm, Gm.
      repeat split; first [reflexivity | lia | intros _; assumption].
    - injection Hburn as <-. repeat split. lia. }
  assert (DugToken.totalSupply t3 = DugToken.totalSupply t2 + treasuryAmount e
          /\ DugToken.gameContract t3 = DugToken.gameContract t2
          /\ (0 < treasuryAmount e -> this w = DugToken.gameContract t2)
          /\ currentEpoch g2 = currentEpoch (game w)
          /\ epochDuration g2 = epochDuration (game w))
    as (S3 & G3 & C3 & Ecur & Edur).
  { destruct (N.ltb_spec 0 (treasuryAmount e)).
    - apply bind_Ok in Htre. destruct Htre as (t' & Hm & Htre).
      apply bind_Ok in Htre. destruct Htre as (b & _ & Htre).
      injection Htre as <- <-.
      apply mint_supply in Hm. destruct Hm as (Sm & Gm & Cm).
      repeat split; first [assumption | reflexivity | intros _; assumption].
    - injection Htre as <- <-. repeat split; try reflexivity; lia. }
  apply startNewEpoch_Ok in Hnew. cbv zeta in Hnew.
  cbn [game emit with_game with_dug] in Hnew. destruct Hnew as (_ & _ & ->).
  cbn [dug events emit with_game with_dug]. rewrite Ecur, Edur.
  split; [rewrite S3, S2, S1; reflexivity|].
  split; [rewrite G3, G2, G1; reflexivity|].
  split.
  { intros Hpos.
    destruct (N.ltb_spec 0 (prizesMinted e)); [auto|].
    destruct (N.ltb_spec 0 (burnAmount e)); [rewrite <- G1; auto|].
    rewrite <- G1, <- G2. apply C3. lia. }
  exists hp, ap. split; [rewrite <- app_assoc; reflexivity|]. split; assumption.
Qed.

Lemma submitScore_supply sender now w sc rd kl sid sAt sig w' :
  submitScore sender now w sc rd kl sid sAt sig = Ok w' ->
  DugToken.totalSupply (dug w')
  = DugToken.totalSupply (dug w) + rewardAmount kl rd
  /\ DugToken.gameContract (dug w') = DugToken.gameContract (dug w)
  /\ (0 < rewardAmount kl rd -> this w = DugToken.gameContract (dug w)).
Proof.
  intros Hs.
  apply submitScore_Ok in Hs. destruct Hs as (_ & w1 & w2 & He & Hm & ->).
  apply enterSubmission_Ok in He.
  destruct He as (t & r & g1 & -> & Es & Eg & _ & _).
  apply mintGameplayRewards_Ok in Hm. destruct Hm as (total & Hg & Hm).
  apply gameplayReward_Ok in Hg. subst total.
  pose proof (placeScore_frame sender now w2 (isAgentOf w sender) sc rd kl sid) as Hps.
  cbv zeta in Hps. destruct Hps as (Pd & _).
  unfold finishSubmit. cbv zeta. cbn [dug emit with_game]. rewrite Pd.
  destruct Hm as [[Hz ->] | (Hpos & t' & Hmint & ->)]; cbn [dug this emit with_dug] in *.
  - rewrite Hz, N.add_0_r. repeat split; try assumption. lia.
  - apply mint_supply in Hmint. destruct Hmint as (Sm & Gm & Cm).
    rewrite Sm, Gm, Es, Eg. rewrite Eg in Cm. repeat split; try reflexivity.
    intros _. exact Cm.
Qed.

(** ** Epoch history *)

(** X1. In every reachable world the epochs are numbered from 1 without
    gaps up to [currentEpoch]: each stored epoch carries its own id and ends
    no earlier than it starts, every epoch before the current one is settled,
    the current one is not, and an id outside [1 .. currentEpoch] reads as
    the all-zero epoch. *)
Theorem epoch_history w :
  reachable w ->
  let g := game w in
  1 <= currentEpoch g
  /\ settled (getEpoch g (currentEpoch g)) = false
  /\ (forall k, 1 <= k <= currentEpoch g ->
        id (getEpoch g k) = k /\ startTime (getEpoch g k) <= endTime (getEpoch g k))
  /\ (forall k, 1 <= k < currentEpoch g -> settled (getEpoch g k) = true)
  /\ (forall k, k = 0 \/ currentEpoch g < k -> getEpoch g k = zeroEpoch).
Proof.
  intros Hr. cbv zeta.
  pose proof (reachable_ok w Hr) as Hok.
  pose proof (reachable_ok2 w Hr) as [[Hc Hp Hs Ha] _ _].
  split; [exact Hc|]. split; [apply Hok|]. split; [exact Hp|]. split; [exact Hs|].
  intros k Hk. unfold getEpoch. rewrite (Ha k Hk). reflexivity.
Qed.

Lemma exec_past_epochs sender now c w w' :
  exec sender now c w = Ok w' ->
  currentEpoch (game w) <= currentEpoch (game w')
  /\ forall k, k < currentEpoch (game w) ->
       epochs (game w') !! k = epochs (game w) !! k.
Proof.
  intros Hex. destruct c; cbn [exec] in Hex.
  - pose proof (submitScore_game _ _ _ _ _ _ _ _ _ _ Hex) as Hg. cbv zeta in Hg.
    destruct Hg as (_ & _ & Ec & _).
    apply submitScore_epochs in Hex. cbv zeta in Hex. destruct Hex as (Eo & _).
    split; [lia|]. intros k Hk. apply Eo. lia.
  - pose proof (settleEpoch_game _ _ _ Hex) as Hg. cbv zeta in Hg.
    destruct Hg as (_ & _ & _ & _ & _ & _ & Ec & _).
    apply settleEpoch_epochs in Hex. cbv zeta in Hex. destruct Hex as (Ee & _).
    split; [lia|]. intros k Hk. rewrite Ee.
    rewrite !lookup_insert_ne by lia. reflexivity.
  - unfold setScoreSigner in Hex. destruct (negb _); [discriminate|].
    injection Hex as <-. cbn. split; [lia | reflexivity].
  - unfold setFees in Hex. destruct (negb _); [discriminate|].
    injection Hex as <-. cbn. split; [lia | reflexivity].
  - unfold setEpochDuration in Hex. destruct (negb _); [discriminate|].
    injection Hex as <-. cbn. split; [lia | reflexivity].
  - unfold setTreasury in Hex. destruct (negb _); [discriminate|].
    injection Hex as <-. cbn. split; [lia | reflexivity].
  - apply bind_Ok in Hex. destruct Hex as (t & _ & Hex). injection Hex as <-.
    cbn. split; [lia | reflexivity].
  - apply bind_Ok in Hex. destruct Hex as (t & _ & Hex). injection Hex as <-.
    cbn. split; [lia | reflexivity].
  - apply bind_Ok in Hex. destruct Hex as (t & _ & Hex). injection Hex as <-.
    cbn. split; [lia | reflexivity].
  - apply bind_Ok in Hex. destruct Hex as (t & _ & Hex). injection Hex as <-.
    cbn. split; [lia | reflexivity].
  - apply bind_Ok in Hex. destruct Hex as (t & _ & Hex). injection Hex as <-.
    cbn. split; [lia | reflexivity].
  - apply bind_Ok in Hex. destruct Hex as (r & _ & Hex). injection Hex as <-.
    cbn. split; [lia | reflexivity].
  - apply bind_Ok in Hex. destruct Hex as (r & _ & Hex). injection Hex as <-.
    cbn. split; [lia | reflexivity].
  - apply bind_Ok in Hex. destruct Hex as (r & _ & Hex). injection Hex as <-.
    cbn. split; [lia | reflexivity].
Qed.

Lemma run_past_epochs sender now c w :
  currentEpoch (game w) <= currentEpoch (game (fst (run sender now c w)))
  /\ forall k, k < currentEpoch (game w) ->
       epochs (game (fst (run sender now c w))) !! k = epochs (game w) !! k.
Proof.
  unfold run. destruct (exec sender now c w) as [w'|f] eqn:Hex; cbn [fst].
  - eapply exec_past_epochs; eassumption.
  - split; [lia | reflexivity].
Qed.

(** X2. An epoch that is no longer the current one is never written again:
    whatever transactions follow, every earlier epoch reads exactly as it
    did, and the epoch counter never goes back. *)
Theorem past_epochs_frozen txs w k :
  k < currentEpoch (game w) ->
  getEpoch (game (runAll txs w)) k = getEpoch (game w) k
  /\ currentEpoch (game w) <= currentEpoch (game (runAll txs w)).
Proof.
  revert w. induction txs as [|[[sender now] c] rest IH]; intros w Hk; cbn [runAll].
  - split; [reflexivity | lia].
  - destruct (run_past_epochs sender now c w) as (Hc & He).
    destruct (IH (fst (run sender now c w))) as (IH1 & IH2); [lia|].
    split; [|lia]. rewrite IH1. apply getEpoch_ext, He, Hk.
Qed.

(** ** Winners *)

(** X3. A successful submission raises the epoch's top score of the
    sender's category to the maximum of the old top score and the submitted
    score; the sender becomes the category's winner exactly when the score is
    strictly higher than the old top score, so a tie keeps the earlier
    winner. The other category's top score and winner are untouched. *)
Theorem top_score_rule sender now w sc rd kl sid sAt sig w' :
  submitScore sender now w sc rd kl sid sAt sig = Ok w' ->
  let a := isAgentOf w sender in
  let e := getEpoch (game w) (currentEpoch (game w)) in
  let e' := getEpoch (game w') (currentEpoch (game w')) in
  topScoreOf e' a = N.max (topScoreOf e a) sc
  /\ winnerOf e' a = (if topScoreOf e a <? sc then sender else winnerOf e a)
  /\ topScoreOf e' (negb a) = topScoreOf e (negb a)
  /\ winnerOf e' (negb a) = winnerOf e (negb a).
Proof.
  intros Hs. apply submitScore_epochs in Hs. cbv zeta in Hs |- *.
  destruct Hs as (_ & Eat & Eaw & Eht & Ehw & _).
  unfold topScoreOf, winnerOf.
  destruct (isAgentOf w sender); cbn [negb andb] in *.
  - rewrite Eat, Eaw, Eht, Ehw.
    destruct (N.ltb_spec (agentTopScore (getEpoch (game w) (currentEpoch (game w)))) sc);
      repeat split; lia.
  - rewrite Eat, Eaw, Eht, Ehw.
    destruct (N.ltb_spec (humanTopScore (getEpoch (game w) (currentEpoch (game w)))) sc);
      repeat split; lia.
Qed.

(** ** Leaderboard contents *)

(** X4. In every reachable world each occupied slot of the agent
    leaderboard holds an entry flagged as an agent's and each occupied slot
    of the human leaderboard an entry flagged as a human's. *)
Theorem boards_hold_their_category w a i :
  reachable w ->
  (i < N.to_nat (countOf (game w) a))%nat ->
  isAgent (lbAt (boardOf (game w) a) i) = a.
Proof.
  intros Hr Hi. pose proof (reachable_ok2 w Hr) as [_ _ [Hb _ _]]. apply Hb, Hi.
Qed.

(** X5. The leaderboards are not reset when an epoch is settled, so in
    every reachable world the current epoch's top score of a category is at
    most the score at the head of that category's leaderboard. *)
Theorem epoch_top_score_on_board w a :
  reachable w ->
  topScoreOf (getEpoch (game w) (currentEpoch (game w))) a
  <= score (lbAt (boardOf (game w) a) 0).
Proof.
  intros Hr. pose proof (reachable_ok2 w Hr) as [_ _ [_ Hh Ha]].
  destruct a; assumption.
Qed.

(** ** Token balances *)

Lemma mint_balanceOf s t to amount t' x :
  DugToken.mint s t to amount = Ok t' ->
  DugToken.balanceOf t' x
  = if x =? to then DugToken.balanceOf t to + amount else DugToken.balanceOf t x.
Proof.
  intros Hm. apply mint_Ok in Hm. destruct Hm as (_ & _ & _ & ->).
  unfold DugToken.balanceOf at 1. cbn [DugToken.balances].
  destruct (N.eqb_spec x to) as [->|Hne].
  - rewrite lookup_insert_eq. reflexivity.
  - rewrite lookup_insert_ne by congruence. reflexivity.
Qed.

Lemma mint_allowances s t to amount t' :
  DugToken.mint s t to amount = Ok t' ->
  DugToken.allowances t' = DugToken.allowances t.
Proof. intros Hm. apply mint_Ok in Hm. destruct Hm as (_ & _ & _ & ->). reflexivity. Qed.

Lemma transfer_balanceOf t from to v t' x :
  DugToken._transfer t from to v = Ok t' ->
  v <= DugToken.balanceOf t from
  /\ DugToken.allowances t' = DugToken.allowances t
  /\ DugToken.balanceOf t' x
     = if x =? to
       then (if to =? from then DugToken.balanceOf t from - v
             else DugToken.balanceOf t to) + v
       else if x =? from then DugToken.balanceOf t from - v
       else DugToken.balanceOf t x.
Proof.
  unfold DugToken._transfer.
  destruct (from =? 0); [discriminate|]. destruct (to =? 0); [discriminate|].
  destruct (N.ltb_spec (DugToken.balanceOf t from) v); [discriminate|].
  intros [= <-]. split; [assumption|]. split; [reflexivity|].
  unfold DugToken.balanceOf at 1. cbn [DugToken.balances].
  destruct (N.eqb_spec x to) as [->|Hxt].
  - rewrite lookup_insert_eq. cbn [default].
    destruct (N.eqb_spec to from) as [->|Htf].
    + rewrite lookup_insert_eq. reflexivity.
    + rewrite lookup_insert_ne by congruence. reflexivity.
  - rewrite lookup_insert_ne by congruence.
    destruct (N.eqb_spec x from) as [->|Hxf].
    + rewrite lookup_insert_eq. reflexivity.
    + rewrite lookup_insert_ne by congruence. reflexivity.
Qed.

Lemma transferFrom_balanceOf s t from to v t' x :
  DugToken.transferFrom s t from to v = Ok t' ->
  v <= DugToken.balanceOf t from
  /\ DugToken.allowance t' from s
     = (if DugToken.allowance t from s <? MAX_UINT256
        then DugToken.allowance t from s - v else DugToken.allowance t from s)
  /\ DugToken.balanceOf t' x
     = if x =? to
       then (if to =? from then DugToken.balanceOf t from - v
             else DugToken.balanceOf t to) + v
       else if x =? from then DugToken.balanceOf t from - v
       else DugToken.balanceOf t x.
Proof.
  unfold DugToken.transferFrom. cbv zeta. intros Ht.
  apply bind_Ok in Ht. destruct Ht as (t1 & Hspend & Hmove).
  apply (transfer_balanceOf _ _ _ _ _ x) in Hmove.
  destruct Hmove as (Hle & Hal & Hbal).
  assert (DugToken.balances t1 = DugToken.balances t
          /\ DugToken.allowance t1 from s
             = (if DugToken.allowance t from s <? MAX_UINT256
                then DugToken.allowance t from s - v else DugToken.allowance t from s))
    as (Eb & Ea).
  { destruct (N.ltb_spec (DugToken.allowance t from s) MAX_UINT256) as [Hlt|Hge].
    - destruct (N.ltb_spec (DugToken.allowance t from s) v); [discriminate|].
      destruct (from =? 0); [discriminate|]. destruct (s =? 0); [discriminate|].
      injection Hspend as <-. split; [reflexivity|].
      unfold DugToken.allowance at 1. cbn [DugToken.allowances].
      rewrite lookup_insert_eq. reflexivity.
    - injection Hspend as <-. split; reflexivity. }
  unfold DugToken.balanceOf in Hle, Hbal |- *. rewrite Eb in Hle, Hbal.
  split; [exact Hle|]. split; [|exact Hbal].
  unfold DugToken.allowance in Ea |- *. rewrite Hal. exact Ea.
Qed.

(** The token after a successful submission: the fee step, then the reward
    mint. *)
Lemma submitScore_token sender now w sc rd kl sid sAt sig w' :
  submitScore sender now w sc rd kl sid sAt sig = Ok w' ->
  exists t0,
    ((DugToken.allowance (dug w) sender (this w) < entryFee w sender /\ t0 = dug w)
     \/ (entryFee w sender <= DugToken.allowance (dug w) sender (this w)
         /\ DugToken.transferFrom (this w) (dug w) sender (this w) (entryFee w sender)
            = Ok t0))
    /\ ((rewardAmount kl rd = 0 /\ dug w' = t0)
        \/ (0 < rewardAmount kl rd
            /\ DugToken.mint (this w) t0 sender (rewardAmount kl rd) = Ok (dug w'))).
Proof.
  intros Hs.
  apply submitScore_Ok in Hs. destruct Hs as (_ & w1 & w2 & He & Hm & ->).
  unfold enterSubmission in He. cbv zeta in He.
  apply bind_Ok in He. destruct He as (w0 & Hpay & He).
  apply bind_Ok in He. destruct He as (r & _ & He). injection He as <-.
  apply payEntryFee_Ok in Hpay.
  change (dug (with_game w (markSession (game w) sid))) with (dug w) in Hpay.
  change (this (with_game w (markSession (game w) sid))) with (this w) in Hpay.
  change (entryFee (with_game w (markSession (game w) sid)) sender)
    with (entryFee w sender) in Hpay.
  apply mintGameplayRewards_Ok in Hm. destruct Hm as (total & Hg & Hm).
  apply gameplayReward_Ok in Hg. subst total.
  cbn [dug this with_registry] in Hm.
  pose proof (placeScore_frame sender now w2 (isAgentOf w sender) sc rd kl sid) as Hps.
  cbv zeta in Hps. destruct Hps as (Pd & _).
  unfold finishSubmit. cbv zeta. cbn [dug emit with_game]. rewrite Pd.
  exists (dug w0). split.
  - destruct Hpay as [[Hlow ->] | (Hle & t & g' & Ht & _ & ->)].
    + left. split; [exact Hlow | reflexivity].
    + right. split; [exact Hle | exact Ht].
  - assert (this w0 = this w) as Et.
    { destruct Hpay as [[_ ->] | (_ & t & g' & _ & _ & ->)]; reflexivity. }
    rewrite Et in Hm.
    destruct Hm as [[Hz ->] | (Hpos & t' & Hmint & ->)].
    + left. split; [exact Hz | reflexivity].
    + right. split; [exact Hpos | exact Hmint].
Qed.

(** X6. What a successful submission does to the token: the sender pays
    the entry fee of its category to the game contract when its allowance
    covers the fee (and nothing otherwise), the gameplay reward is minted to
    the sender, the total supply grows by exactly the reward, and no other
    account's balance changes. *)
Theorem submission_token_accounting sender now w sc rd kl sid sAt sig w' :
  sender <> this w ->
  submitScore sender now w sc rd kl sid sAt sig = Ok w' ->
  feePaid w sender <= DugToken.balanceOf (dug w) sender
  /\ DugToken.balanceOf (dug w') sender
     = DugToken.balanceOf (dug w) sender - feePaid w sender + rewardAmount kl rd
  /\ DugToken.balanceOf (dug w') (this w)
     = DugToken.balanceOf (dug w) (this w) + feePaid w sender
  /\ (forall x, x <> sender -> x <> this w ->
        DugToken.balanceOf (dug w') x = DugToken.balanceOf (dug w) x)
  /\ DugToken.totalSupply (dug w')
     = DugToken.totalSupply (dug w) + rewardAmount kl rd.
Proof.
  intros Hne Hs.
  pose proof (submitScore_supply _ _ _ _ _ _ _ _ _ _ Hs) as (Hsup & _).
  apply submitScore_token in Hs. destruct Hs as (t0 & Hfee & Hrew).
  assert (feePaid w sender <= DugToken.balanceOf (dug w) sender
          /\ forall x, DugToken.balanceOf t0 x
             = if x =? this w then DugToken.balanceOf (dug w) (this w) + feePaid w sender
               else if x =? sender then DugToken.balanceOf (dug w) sender - feePaid w sender
               else DugToken.balanceOf (dug w) x) as (Hle & H0).
  { unfold feePaid.
    destruct Hfee as [[Hlow ->] | (Hcov & Ht)].
    - apply N.leb_gt in Hlow. rewrite Hlow. split; [lia|]. intros x.
      destruct (N.eqb_spec x (this w)) as [->|]; [lia|].
      destruct (N.eqb_spec x sender) as [->|]; [lia | reflexivity].
    - pose proof Hcov as Hcov'. apply N.leb_le in Hcov'. rewrite Hcov'.
      split.
      + apply (transferFrom_balanceOf _ _ _ _ _ _ 0) in Ht. apply Ht.
      + intros x. apply (transferFrom_balanceOf _ _ _ _ _ _ x) in Ht.
        destruct Ht as (_ & _ & ->).
        destruct (N.eqb_spec (this w) sender); [congruence | reflexivity]. }
  assert (forall x, DugToken.balanceOf (dug w') x
            = if x =? sender then DugToken.balanceOf t0 sender + rewardAmount kl rd
              else DugToken.balanceOf t0 x) as H1.
  { intros x. destruct Hrew as [[Hz ->] | (_ & Hm)].
    - rewrite Hz. destruct (N.eqb_spec x sender) as [->|]; [lia | reflexivity].
    - apply (mint_balanceOf _ _ _ _ _ x) in Hm. exact Hm. }
  split; [exact Hle|]. split.
  { rewrite H1, N.eqb_refl, H0, N.eqb_refl.
    destruct (N.eqb_spec sender (this w)); [congruence | reflexivity]. }
  split.
  { rewrite H1.
    destruct (N.eqb_spec (this w) sender); [congruence|].
    rewrite H0, N.eqb_refl. reflexivity. }
  split; [|exact Hsup].
  intros x Hxs Hxt. rewrite H1.
  destruct (N.eqb_spec x sender); [congruence|]. rewrite H0.
  destruct (N.eqb_spec x (this w)); [congruence|].
  destruct (N.eqb_spec x sender); [congruence | reflexivity].
Qed.

(** ** Settlement *)

Lemma settlePrizes_balanceOf self e t t1 hp ap x :
  settlePrizes self e t = Ok (t1, hp, ap) ->
  DugToken.balanceOf t1 x = DugToken.balanceOf t x + prizeMintedTo e x.
Proof.
  unfold settlePrizes, prizeMintedTo. intros Hs.
  destruct (0 <? prizePool e).
  2:{ injection Hs as <- <- <-. lia. }
  cbv zeta in Hs.
  destruct (humanWinner e =? 0), (agentWinner e =? 0);
    cbn [negb andb bind fst snd] in Hs |- *.
  - injection Hs as <- <- <-. lia.
  - apply bind_Ok in Hs. destruct Hs as ([ta pa] & H1 & Hs).
    apply bind_Ok in H1. destruct H1 as (t' & Hm1 & H1). injection H1 as <- <-.
    cbn [fst snd bind] in Hs.
    apply bind_Ok in Hs. destruct Hs as ([tb pb] & H2 & Hs).
    apply bind_Ok in H2. destruct H2 as (t'' & Hm2 & H2). injection H2 as <- <-.
    cbn [fst snd bind] in Hs. injection Hs as <- <- <-.
    rewrite (mint_balanceOf _ _ _ _ _ x Hm2).
    rewrite (mint_balanceOf _ _ _ _ _ x Hm1).
    rewrite (mint_balanceOf _ _ _ _ _ (agentWinner e) Hm1).
    rewrite N.eqb_refl.
    destruct (N.eqb_spec x (agentWinner e)) as [->|]; cbn [andb]; lia.
  - apply bind_Ok in Hs. destruct Hs as ([ta pa] & H1 & Hs).
    apply bind_Ok in H1. destruct H1 as (t' & Hm1 & H1). injection H1 as <- <-.
    cbn [fst snd bind] in Hs.
    apply bind_Ok in Hs. destruct Hs as ([tb pb] & H2 & Hs).
    apply bind_Ok in H2. destruct H2 as (t'' & Hm2 & H2). injection H2 as <- <-.
    cbn [fst snd bind] in Hs. injection Hs as <- <- <-.
    rewrite (mint_balanceOf _ _ _ _ _ x Hm2).
    rewrite (mint_balanceOf _ _ _ _ _ x Hm1).
    rewrite (mint_balanceOf _ _ _ _ _ (humanWinner e) Hm1).
    rewrite N.eqb_refl.
    destruct (N.eqb_spec x (humanWinner e)) as [->|]; cbn [andb]; lia.
  - apply bind_Ok in Hs. destruct Hs as ([ta pa] & H1 & Hs).
    apply bind_Ok in H1. destruct H1 as (t' & Hm1 & H1). injection H1 as <- <-.
    cbn [fst snd bind] in Hs.
    apply bind_Ok in Hs. destruct Hs as ([tb pb] & H2 & Hs).
    apply bind_Ok in H2. destruct H2 as (t'' & Hm2 & H2). injection H2 as <- <-.
    cbn [fst snd bind] in Hs. injection Hs as <- <- <-.
    rewrite (mint_balanceOf _ _ _ _ _ x Hm2).
    rewrite (mint_balanceOf _ _ _ _ _ x Hm1).
    rewrite (mint_balanceOf _ _ _ _ _ (agentWinner e) Hm1).
    destruct (N.eqb_spec x (agentWinner e)) as [->|Hxa].
    + destruct (N.eqb_spec (agentWinner e) (humanWinner e)) as [->|]; cbn [andb]; lia.
    + destruct (N.eqb_spec x (humanWinner e)) as [->|]; cbn [andb]; lia.
Qed.

Lemma prizesMinted_le e : prizesMinted e <= prizePool e.
Proof.
  unfold prizesMinted. destruct (0 <? prizePool e); [|lia].
  destruct (humanWinner e =? 0), (agentWinner e =? 0); cbn [negb andb]; lia.
Qed.

(** X7. What a successful settlement does to the token. The supply grows
    by the prizes minted plus the treasury share; the prizes minted never
    exceed the prize pool; the burn share is minted and burnt at once, so it
    never enters the supply; and every account's balance is its balance
    before plus what is minted to it as a winner or as the treasury: in
    particular the entry fees the game contract holds are not used to pay
    anyone. *)
Theorem settlement_token_accounting now w w' :
  settleEpoch now w = Ok w' ->
  let g := game w in
  let e := getEpoch g (currentEpoch g) in
  DugToken.totalSupply (dug w')
  = DugToken.totalSupply (dug w) + prizesMinted e + treasuryAmount e
  /\ prizesMinted e <= prizePool e
  /\ (forall x,
        DugToken.balanceOf (dug w') x
        = DugToken.balanceOf (dug w) x + prizeMintedTo e x
          + (if (0 <? treasuryAmount e) && (x =? treasury g)
             then treasuryAmount e else 0))
  /\ treasuryBalance (game w') = treasuryBalance g + treasuryAmount e.
Proof.
  intros Hs. cbv zeta.
  pose proof (settleEpoch_supply _ _ _ Hs) as Hsup. cbv zeta in Hsup.
  destruct Hsup as (Hsup & _).
  pose proof (settleEpoch_epochs _ _ _ Hs) as Hep. cbv zeta in Hep.
  destruct Hep as (_ & _ & _ & Htb & _).
  split; [exact Hsup|]. split; [apply prizesMinted_le|]. split; [|exact Htb].
  intros x.
  apply settleEpoch_Ok in Hs. cbv zeta in Hs.
  destruct Hs as (_ & _ & t1 & hp & ap & t2 & t3 & g2 & Hprz & Hburn & Htre & Hnew).
  set (e := getEpoch (game w) (currentEpoch (game w))) in *.
  apply (settlePrizes_balanceOf _ _ _ _ _ _ x) in Hprz.
  assert (DugToken.balanceOf t2 x = DugToken.balanceOf t1 x) as E2.
  { destruct (0 <? burnAmount e).
    - apply bind_Ok in Hburn. destruct Hburn as (t' & Hm & Hb).
      apply burn_Ok in Hb. destruct Hb as (_ & ->).
      unfold DugToken.balanceOf at 1. cbn [DugToken.balances].
      destruct (N.eqb_spec x (this w)) as [->|Hx].
      + rewrite lookup_insert_eq, default_Some.
        rewrite (mint_balanceOf _ _ _ _ _ (this w) Hm), N.eqb_refl. lia.
      + rewrite lookup_insert_ne by congruence.
        pose proof (mint_balanceOf _ _ _ _ _ x Hm) as Hx'.
        unfold DugToken.balanceOf at 1 in Hx'. rewrite Hx'.
        destruct (N.eqb_spec x (this w)); [congruence | reflexivity].
    - injection Hburn as <-. reflexivity. }
  assert (DugToken.balanceOf t3 x
          = DugToken.balanceOf t2 x
            + (if (0 <? treasuryAmount e) && (x =? treasury (game w))
               then treasuryAmount e else 0)) as E3.
  { destruct (0 <? treasuryAmount e); cbn [andb].
    - apply bind_Ok in Htre. destruct Htre as (t' & Hm & Htre).
      apply bind_Ok in Htre. destruct Htre as (b & _ & Htre).
      injection Htre as <- <-.
      rewrite (mint_balanceOf _ _ _ _ _ x Hm).
      change (treasury (setEpoch (game w) (currentEpoch (game w)) (markSettled e)))
        with (treasury (game w)).
      destruct (N.eqb_spec x (treasury (game w))) as [->|]; [reflexivity | lia].
    - injection Htre as <- <-. lia. }
  apply startNewEpoch_Ok in Hnew. cbv zeta in Hnew.
  cbn [game emit with_game with_dug] in Hnew. destruct Hnew as (_ & _ & ->).
  cbn [dug emit with_game with_dug]. rewrite E3, E2, Hprz. reflexivity.
Qed.


(** X9. The total supply grows only through the game contract: a
    transaction that increases it is a [submitScore] or a [settleEpoch] of a
    game that the token has as its [gameContract], or a direct [mint] sent by
    that [gameContract]. *)
Theorem supply_grows_only_through_game sender now c w w' :
  exec sender now c w = Ok w' ->
  DugToken.totalSupply (dug w) < DugToken.totalSupply (dug w') ->
  match c with
  | SubmitScore _ _ _ _ _ _ | SettleEpoch => this w = DugToken.gameContract (dug w)
  | TokenMint _ _ => sender = DugToken.gameContract (dug w)
  | _ => False
  end.
Proof.
  intros Hex Hlt. destruct c; cbn [exec] in Hex.
  - apply submitScore_supply in Hex. destruct Hex as (Es & _ & Hg). apply Hg. lia.
  - apply settleEpoch_supply in Hex. cbv zeta in Hex.
    destruct Hex as (Es & _ & Hg & _). apply Hg. lia.
  - unfold setScoreSigner in Hex. destruct (negb _); [discriminate|].
    injection Hex as <-. cbn in Hlt. lia.
  - unfold setFees in Hex. destruct (negb _); [discriminate|].
    injection Hex as <-. cbn in Hlt. lia.
  - unfold setEpochDuration in Hex. destruct (negb _); [discriminate|].
    injection Hex as <-. cbn in Hlt. lia.
  - unfold setTreasury in Hex. destruct (negb _); [discriminate|].
    injection Hex as <-. cbn in Hlt. lia.
  - apply bind_Ok in Hex. destruct Hex as (t & Ht & Hex). injection Hex as <-.
    unfold DugToken.setGameContract in Ht. destruct (negb _); [discriminate|].
    injection Ht as <-. cbn in Hlt. lia.
  - apply bind_Ok in Hex. destruct Hex as (t & Ht & Hex). injection Hex as <-.
    apply mint_supply in Ht. apply Ht.
  - apply bind_Ok in Hex. destruct Hex as (t & Ht & Hex). injection Hex as <-.
    unfold DugToken.approve in Ht.
    destruct (sender =? 0); [discriminate|]. destruct (spender =? 0); [discriminate|].
    injection Ht as <-. cbn in Hlt. lia.
  - apply bind_Ok in Hex. destruct Hex as (t & Ht & Hex). injection Hex as <-.
    apply transfer_supply in Ht. cbn [dug with_dug] in Hlt. lia.
  - apply bind_Ok in Hex. destruct Hex as (t & Ht & Hex). injection Hex as <-.
    apply burn_Ok in Ht. destruct Ht as (_ & ->). cbn in Hlt. lia.
  - apply bind_Ok in Hex. destruct Hex as (r & _ & Hex). injection Hex as <-.
    cbn in Hlt. lia.
  - apply bind_Ok in Hex. destruct Hex as (r & _ & Hex). injection Hex as <-.
    cbn in Hlt. lia.
  - apply bind_Ok in Hex. destruct Hex as (r & _ & Hex). injection Hex as <-.
    cbn in Hlt. lia.
Qed.

(** ** Insertion and eviction *)

Lemma inserted_list (lb : list ScoreEntry) i e :
  length lb = N.to_nat LB_SIZE -> (i < N.to_nat LB_SIZE)%nat ->
  <[i := e]> (shiftDown lb i (N.to_nat LB_SIZE - 1))
  = take i lb ++ e :: take (N.to_nat LB_SIZE - 1 - i) (drop i lb).
Proof.
  intros Hlen Hi. apply list_eq. intros idx.
  pose proof (inserted_lookup lb i e idx Hlen Hi) as Hl.
  destruct (Nat.lt_ge_cases idx (N.to_nat LB_SIZE)) as [Hidx|Hidx].
  - rewrite (lbAt_lookup (<[i:=e]> (shiftDown lb i (N.to_nat LB_SIZE - 1))) idx)
      by (rewrite length_insert, shiftDown_length; lia).
    rewrite Hl.
    destruct (Nat.ltb_spec idx i) as [Hlt|Hge].
    + rewrite lookup_app_l by (rewrite length_take; lia).
      rewrite lookup_take_lt by lia. symmetry. apply lbAt_lookup. lia.
    + rewrite lookup_app_r by (rewrite length_take; lia).
      rewrite length_take, Nat.min_l by lia.
      destruct (Nat.eqb_spec idx i) as [Heq|Hne].
      * rewrite Heq, Nat.sub_diag. reflexivity.
      * destruct (Nat.ltb_spec idx (N.to_nat LB_SIZE)) as [_|]; [|lia].
        destruct (idx - i)%nat as [|m] eqn:Hm; [lia|].
        change (Some (lbAt lb (idx - 1))
                = take (N.to_nat LB_SIZE - 1 - i) (drop i lb) !! m).
        rewrite lookup_take_lt by lia. rewrite lookup_drop.
        replace (i + m)%nat with (idx - 1)%nat by lia.
        symmetry. apply lbAt_lookup. lia.
  - rewrite !(proj2 (lookup_ge_None _ _)); [reflexivity| |].
    + rewrite length_app, length_take. cbn [length]. rewrite length_take, length_drop.
      lia.
    + rewrite length_insert, shiftDown_length. lia.
Qed.

(** X10. The leaderboard after a successful submission, as a list. When
    the score is placed at slot [k], the entries above [k] stay, the new entry
    follows, and the entries from [k] on move down one slot; the board keeps
    its 20 slots, so the entry in the last slot is dropped. The number of
    occupied slots grows by one until it is 20. The other category's board
    and count are left alone. *)
Theorem board_after_submission sender now w sc rd kl sid sAt sig w' :
  reachable w ->
  submitScore sender now w sc rd kl sid sAt sig = Ok w' ->
  let a := isAgentOf w sender in
  let lb := boardOf (game w) a in
  boardOf (game w') a
  = match insertAtOf lb (countOf (game w) a) sc with
    | Some k => take k lb ++ entryOf sender now sc rd kl a sid
                  :: take (N.to_nat LB_SIZE - 1 - k) (drop k lb)
    | None => lb
    end
  /\ countOf (game w') a = N.min (countOf (game w) a + 1) LB_SIZE
  /\ boardOf (game w') (negb a) = boardOf (game w) (negb a)
  /\ countOf (game w') (negb a) = countOf (game w) (negb a).
Proof.
  intros Hr Hs. cbv zeta.
  pose proof (worldOk_board w (isAgentOf w sender) (reachable_ok w Hr)) as Hb.
  apply submitScore_game in Hs. cbv zeta in Hs.
  destruct Hs as (_ & _ & _ & _ & Eb & Ec & Eb' & Ec' & _).
  split; [|split; [|split; assumption]].
  - rewrite Eb, updateLeaderboard_insertAtOf.
    pose proof (insertAtOf_spec (boardOf (game w) (isAgentOf w sender)) _ sc
                  (board_count _ _ _ Hb)) as Hspec.
    destruct (insertAtOf _ _ sc) as [k|]; cbn [fst]; [|reflexivity].
    apply inserted_list; [apply Hb | apply Hspec].
  - rewrite Ec. pose proof (board_count _ _ _ Hb) as Hc.
    destruct (N.ltb_spec (countOf (game w) (isAgentOf w sender)) LB_SIZE); lia.
Qed.

(** ** The epoch clock *)

Lemma settleEpoch_early now w :
  now < endTime (getEpoch (game w) (currentEpoch (game w))) ->
  settleEpoch now w = Err EpochNotEnded.
Proof.
  intros Hlt. unfold settleEpoch. cbv zeta. apply N.leb_gt in Hlt. rewrite Hlt.
  reflexivity.
Qed.

Lemma settleEpoch_ended_Err now w f :
  endTime (getEpoch (game w) (currentEpoch (game w))) <= now ->
  settleEpoch now w = Err f -> f <> EpochNotEnded.
Proof.
  unfold EpochNotEnded. intros Hend Hs. unfold settleEpoch in Hs. cbv zeta in Hs.
  apply N.leb_le in Hend. rewrite Hend in Hs. rewrite require_true in Hs.
  cbn [bind] in Hs.
  apply bind_Err in Hs. destruct Hs as [Hs | (? & _ & Hs)]; [which_failure|].
  apply bind_Err in Hs. destruct Hs as [Hs | ([[t1 hp] ap] & _ & Hs)].
  - unfold settlePrizes, DugToken.mint, DugToken._mint in Hs. cbv zeta in Hs.
    which_failure.
  - unfold DugToken.mint, DugToken._mint, DugToken.burn, _startNewEpoch in Hs.
    cbv zeta in Hs. which_failure.
Qed.

(** X11. [timeUntilEpochEnd] and [settleEpoch] agree on when the epoch has
    ended. [settleEpoch] fails with [EpochNotEnded] exactly when
    [timeUntilEpochEnd] is positive; it keeps failing so at every later
    time less than [timeUntilEpochEnd] seconds away, and no longer fails so
    once that many seconds have passed. *)
Theorem epoch_end_countdown now w :
  let g := game w in
  (settleEpoch now w = Err EpochNotEnded <-> 0 < timeUntilEpochEnd now g)
  /\ (forall t, now <= t -> t < now + timeUntilEpochEnd now g ->
        settleEpoch t w = Err EpochNotEnded)
  /\ (forall t, now + timeUntilEpochEnd now g <= t ->
        settleEpoch t w <> Err EpochNotEnded).
Proof.
  cbv zeta. unfold timeUntilEpochEnd.
  set (e := getEpoch (game w) (currentEpoch (game w))).
  split; [split|split].
  - intros Hs. destruct (N.leb_spec (endTime e) now) as [Hle|Hlt]; [|lia].
    exfalso. eapply settleEpoch_ended_Err; [exact Hle | exact Hs | reflexivity].
  - intros Hpos. apply settleEpoch_early. fold e.
    destruct (N.leb_spec (endTime e) now); lia.
  - intros t Hnow Ht. apply settleEpoch_early. fold e.
    destruct (N.leb_spec (endTime e) now); lia.
  - intros t Ht Hs.
    eapply (settleEpoch_ended_Err t w); [|exact Hs | reflexivity]. fold e.
    destruct (N.leb_spec (endTime e) now); lia.
Qed.

(** ** The agent registry *)

(** X12. In every reachable world the statistics of every profile are
    consistent: the best score is at most the total score, and the total
    score is at most the number of games played times the best score (so the
    average score never exceeds the best). *)
Theorem profile_statistics w a :
  reachable w ->
  let p := AgentRegistry.getProfile (registry w) a in
  AgentRegistry.bestScore p <= AgentRegistry.totalScore p
  /\ AgentRegistry.totalScore p
     <= AgentRegistry.gamesPlayed p * AgentRegistry.bestScore p.
Proof.
  intros Hr. cbv zeta. pose proof (reachable_ok2 w Hr) as [_ [Hb Ht _] _].
  split; [apply Hb | apply Ht].
Qed.

(** X13. In every reachable world two different wallets registered as
    agents have different agent ids, and the registry's id table maps each
    agent's id back to its wallet. *)
Theorem agent_ids_unique w a b :
  reachable w ->
  a <> 0 -> b <> 0 ->
  AgentRegistry.isAgent (AgentRegistry.getProfile (registry w) a) = true ->
  AgentRegistry.isAgent (AgentRegistry.getProfile (registry w) b) = true ->
  default 0 (AgentRegistry.agentIdToWallet (registry w)
               !! AgentRegistry.agentId (AgentRegistry.getProfile (registry w) a)) = a
  /\ (AgentRegistry.agentId (AgentRegistry.getProfile (registry w) a)
      = AgentRegistry.agentId (AgentRegistry.getProfile (registry w) b) -> a = b).
Proof.
  intros Hr Ha Hb Haa Hab. pose proof (reachable_ok2 w Hr) as [_ [_ _ Hid] _].
  pose proof (Hid a Ha Haa) as Ea. pose proof (Hid b Hb Hab) as Eb.
  split; [exact Ea|]. intros Heq. rewrite Heq in Ea. congruence.
Qed.

(** X14. A successful submission is recorded in the registry exactly
    once: the sender's profile counts one more game, its total score grows
    by the submitted score, its best score becomes the maximum of the old
    best and the submitted score, its identity fields (agent id, name,
    wallet, category flag and registration time) are untouched, and no other
    profile changes. *)
Theorem submission_recorded sender now w sc rd kl sid sAt sig w' :
  submitScore sender now w sc rd kl sid sAt sig = Ok w' ->
  let p := AgentRegistry.getProfile (registry w) sender in
  let p' := AgentRegistry.getProfile (registry w') sender in
  AgentRegistry.gamesPlayed p' = AgentRegistry.gamesPlayed p + 1
  /\ AgentRegistry.totalScore p' = AgentRegistry.totalScore p + sc
  /\ AgentRegistry.bestScore p' = N.max (AgentRegistry.bestScore p) sc
  /\ AgentRegistry.isAgent p' = AgentRegistry.isAgent p
  /\ AgentRegistry.agentId p' = AgentRegistry.agentId p
  /\ AgentRegistry.registeredAt p' = AgentRegistry.registeredAt p
  /\ AgentRegistry.name p' = AgentRegistry.name p
  /\ AgentRegistry.wallet p' = AgentRegistry.wallet p
  /\ profileIdentity p' = profileIdentity p
  /\ (forall x, x <> sender ->
        AgentRegistry.getProfile (registry w') x
        = AgentRegistry.getProfile (registry w) x)
  /\ AgentRegistry.agentList (registry w') = AgentRegistry.agentList (registry w).
Proof.
  intros Hs. cbv zeta. apply submitScore_epochs in Hs. cbv zeta in Hs.
  destruct Hs as (_ & _ & _ & _ & _ & Hrec & _).
  apply recordGame_result in Hrec. cbv zeta in Hrec. destruct Hrec as (_ & Hr).
  rewrite Hr. rewrite getProfile_insert, N.eqb_refl.
  unfold profileIdentity.
  cbn [AgentRegistry.gamesPlayed AgentRegistry.totalScore AgentRegistry.bestScore
       AgentRegistry.isAgent AgentRegistry.agentId AgentRegistry.registeredAt
       AgentRegistry.name AgentRegistry.wallet AgentRegistry.agentList].
  repeat split.
  - destruct (N.ltb_spec (AgentRegistry.bestScore
                            (AgentRegistry.getProfile (registry w) sender)) sc); lia.
  - intros x Hx. rewrite getProfile_insert.
    destruct (N.eqb_spec x sender); [congruence | reflexivity].
Qed.

(** ** Registration *)

Lemma exec_profile_identity sender now c w w' a :
  exec sender now c w = Ok w' ->
  AgentRegistry.registeredAt (AgentRegistry.getProfile (registry w) a) <> 0 ->
  profileIdentity (AgentRegistry.getProfile (registry w') a)
  = profileIdentity (AgentRegistry.getProfile (registry w) a).
Proof.
  intros Hex Hreg.
  assert (forall s p sc r', AgentRegistry.recordGame s (registry w) p sc = Ok r' ->
            profileIdentity (AgentRegistry.getProfile r' a)
            = profileIdentity (AgentRegistry.getProfile (registry w) a)) as Hrec.
  { intros s p sc r' Hr. apply recordGame_result in Hr. cbv zeta in Hr.
    destruct Hr as (_ & ->). rewrite getProfile_insert.
    destruct (N.eqb_spec a p) as [->|]; reflexivity. }
  destruct c; cbn [exec] in Hex.
  - apply submitScore_epochs in Hex. cbv zeta in Hex.
    destruct Hex as (_ & _ & _ & _ & _ & Hr & _). eapply Hrec, Hr.
  - apply settleEpoch_epochs in Hex. cbv zeta in Hex.
    destruct Hex as (_ & _ & -> & _). reflexivity.
  - unfold setScoreSigner in Hex. destruct (negb _); [discriminate|].
    injection Hex as <-. reflexivity.
  - unfold setFees in Hex. destruct (negb _); [discriminate|].
    injection Hex as <-. reflexivity.
  - unfold setEpochDuration in Hex. destruct (negb _); [discriminate|].
    injection Hex as <-. reflexivity.
  - unfold setTreasury in Hex. destruct (negb _); [discriminate|].
    injection Hex as <-. reflexivity.
  - apply bind_Ok in Hex. destruct Hex as (t & _ & Hex). injection Hex as <-. reflexivity.
  - apply bind_Ok in Hex. destruct Hex as (t & _ & Hex). injection Hex as <-. reflexivity.
  - apply bind_Ok in Hex. destruct Hex as (t & _ & Hex). injection Hex as <-. reflexivity.
  - apply bind_Ok in Hex. destruct Hex as (t & _ & Hex). injection Hex as <-. reflexivity.
  - apply bind_Ok in Hex. destruct Hex as (t & _ & Hex). injection Hex as <-. reflexivity.
  - apply bind_Ok in Hex. destruct Hex as (r & Hr & Hex). injection Hex as <-.
    cbn [registry with_registry].
    apply register_result in Hr. destruct Hr as (Hz & _ & ->).
    rewrite getProfile_register.
    destruct (N.eqb_spec a sender) as [->|]; [contradiction | reflexivity].
  - apply bind_Ok in Hex. destruct Hex as (r & Hr & Hex). injection Hex as <-.
    cbn [registry with_registry]. eapply Hrec, Hr.
  - apply bind_Ok in Hex. destruct Hex as (r & Hr & Hex). injection Hex as <-.
    cbn [registry with_registry].
    unfold AgentRegistry.transferOwnership in Hr.
    destruct (negb _); [discriminate|]. destruct (newOwner =? 0); [discriminate|].
    injection Hr as <-. reflexivity.
Qed.

Lemma runAll_profile_identity txs w a :
  AgentRegistry.registeredAt (AgentRegistry.getProfile (registry w) a) <> 0 ->
  profileIdentity (AgentRegistry.getProfile (registry (runAll txs w)) a)
  = profileIdentity (AgentRegistry.getProfile (registry w) a).
Proof.
  revert w. induction txs as [|[[sender now] c] rest IH]; intros w Hreg; cbn [runAll].
  - reflexivity.
  - unfold run. destruct (exec sender now c w) as [w'|f] eqn:Hex; cbn [fst].
    + pose proof (exec_profile_identity _ _ _ _ _ a Hex Hreg) as Hid.
      rewrite IH; [exact Hid|].
      unfold profileIdentity in Hid. congruence.
    + apply IH, Hreg.
Qed.

(** X15. Registration is for good. Once a wallet has a profile with a
    nonzero registration time, no transaction changes the profile's agent
    id, name, wallet, category flag or registration time, and every later
    attempt of that wallet to register again is rejected as already
    registered. *)
Theorem registered_for_good txs w a :
  AgentRegistry.registeredAt (AgentRegistry.getProfile (registry w) a) <> 0 ->
  let w' := runAll txs w in
  profileIdentity (AgentRegistry.getProfile (registry w') a)
  = profileIdentity (AgentRegistry.getProfile (registry w) a)
  /\ forall now agentId_ name_ isAgent_,
       AgentRegistry.register a now (registry w') agentId_ name_ isAgent_
       = Err (Revert "Registry: already registered").
Proof.
  intros Hreg. cbv zeta.
  pose proof (runAll_profile_identity txs w a Hreg) as Hid.
  split; [exact Hid|]. intros now aid nm ag.
  unfold AgentRegistry.register.
  assert (AgentRegistry.registeredAt
            (AgentRegistry.getProfile (registry (runAll txs w)) a)
          = AgentRegistry.registeredAt (AgentRegistry.getProfile (registry w) a)) as E
    by (unfold profileIdentity in Hid; congruence).
  rewrite E. apply N.eqb_neq in Hreg. rewrite Hreg. reflexivity.
Qed.

(** X16. The agent list grows by registration only. A successful
    [register] appends the sender to the agent list, raises [agentCount] by
    one and stores a profile with zeroed statistics for the sender,
    whatever the sender had played before as an unregistered wallet; every
    other transaction leaves the agent list as it was. *)
Theorem agent_list_grows_by_registration sender now c w w' :
  exec sender now c w = Ok w' ->
  match c with
  | RegistryRegister agentId_ name_ isAgent_ =>
      AgentRegistry.agentList (registry w')
      = AgentRegistry.agentList (registry w) ++ [sender]
      /\ agentCount (registry w') = agentCount (registry w) + 1
      /\ AgentRegistry.getProfile (registry w') sender
         = AgentRegistry.mkProfile agentId_ name_ sender isAgent_ 0 0 0 now
      /\ AgentRegistry.registeredAt (AgentRegistry.getProfile (registry w) sender) = 0
  | _ => AgentRegistry.agentList (registry w') = AgentRegistry.agentList (registry w)
  end.
Proof.
  intros Hex. destruct c; cbn [exec] in Hex.
  - apply submitScore_epochs in Hex. cbv zeta in Hex.
    destruct Hex as (_ & _ & _ & _ & _ & Hr & _).
    apply recordGame_result in Hr. cbv zeta in Hr. destruct Hr as (_ & ->). reflexivity.
  - apply settleEpoch_epochs in Hex. cbv zeta in Hex.
    destruct Hex as (_ & _ & -> & _). reflexivity.
  - unfold setScoreSigner in Hex. destruct (negb _); [discriminate|].
    injection Hex as <-. reflexivity.
  - unfold setFees in Hex. destruct (negb _); [discriminate|].
    injection Hex as <-. reflexivity.
  - unfold setEpochDuration in Hex. destruct (negb _); [discriminate|].
    injection Hex as <-. reflexivity.
  - unfold setTreasury in Hex. destruct (negb _); [discriminate|].
    injection Hex as <-. reflexivity.
  - apply bind_Ok in Hex. destruct Hex as (t & _ & Hex). injection Hex as <-. reflexivity.
  - apply bind_Ok in Hex. destruct Hex as (t & _ & Hex). injection Hex as <-. reflexivity.
  - apply bind_Ok in Hex. destruct Hex as (t & _ & Hex). injection Hex as <-. reflexivity.
  - apply bind_Ok in Hex. destruct Hex as (t & _ & Hex). injection Hex as <-. reflexivity.
  - apply bind_Ok in Hex. destruct Hex as (t & _ & Hex). injection Hex as <-. reflexivity.
  - apply bind_Ok in Hex. destruct Hex as (r & Hr & Hex). injection Hex as <-.
    cbn [registry with_registry].
    apply register_result in Hr. destruct Hr as (Hz & _ & ->).
    split; [reflexivity|]. split; [|split; [|exact Hz]].
    + unfold agentCount. cbn [AgentRegistry.agentList]. rewrite length_app.
      cbn [length]. lia.
    + rewrite getProfile_register, N.eqb_refl. reflexivity.
  - apply bind_Ok in Hex. destruct Hex as (r & Hr & Hex). injection Hex as <-.
    cbn [registry with_registry].
    apply recordGame_result in Hr. cbv zeta in Hr. destruct Hr as (_ & ->). reflexivity.
  - apply bind_Ok in Hex. destruct Hex as (r & Hr & Hex). injection Hex as <-.
    cbn [registry with_registry].
    unfold AgentRegistry.transferOwnership in Hr.
    destruct (negb _); [discriminate|]. destruct (newOwner =? 0); [discriminate|].
    injection Hr as <-. reflexivity.
Qed.

(** ** Administration *)

Lemma entered_config g sid g1 : entered g sid g1 -> config g1 = config g.
Proof. intros [-> | [fee ->]]; reflexivity. Qed.

Lemma placeScore_config sender now w a sc rd kl sid :
  config (game (placeScore sender now w a sc rd kl sid)) = config (game w).
Proof.
  unfold placeScore. cbv zeta. destruct a.
  - destruct (_updateLeaderboard _ _ _ _ _ _ _ _ _) as [lb evs]. reflexivity.
  - destruct (_updateLeaderboard _ _ _ _ _ _ _ _ _) as [lb evs]. reflexivity.
Qed.

Lemma recordTopScore_config sender g a sc :
  config (recordTopScore sender g a sc) = config g.
Proof.
  unfold recordTopScore. cbv zeta.
  destruct (a && _); (destruct (negb a && _)); reflexivity.
Qed.

Lemma submitScore_config sender now w sc rd kl sid sAt sig w' :
  submitScore sender now w sc rd kl sid sAt sig = Ok w' ->
  config (game w') = config (game w).
Proof.
  intros Hs.
  apply submitScore_Ok in Hs. destruct Hs as (_ & w1 & w2 & He & Hm & ->).
  apply enterSubmission_Ok in He.
  destruct He as (t & r & g1 & -> & _ & _ & _ & Hent).
  apply mintGameplayRewards_frame in Hm. cbn [game] in Hm. destruct Hm as (Eg & _).
  unfold finishSubmit. cbv zeta. cbn [game emit with_game].
  rewrite recordTopScore_config, placeScore_config, Eg.
  apply entered_config in Hent. exact Hent.
Qed.

(** X17. Only the owner changes the game's settings: a transaction sent
    by anyone else leaves the score signer, both entry fees, the epoch
    duration and the treasury address as they were. *)
Theorem settings_change_only_by_owner sender now c w w' :
  exec sender now c w = Ok w' ->
  sender <> owner (game w) ->
  settings (game w') = settings (game w).
Proof.
  intros Hex Hne. apply N.eqb_neq in Hne.
  destruct c; cbn [exec] in Hex.
  - apply submitScore_config in Hex. unfold config in Hex. unfold settings.
    congruence.
  - pose proof (settleEpoch_game _ _ _ Hex) as Hg. cbv zeta in Hg.
    destruct Hg as (_ & _ & _ & _ & _ & Ed & _).
    apply settleEpoch_epochs in Hex. cbv zeta in Hex.
    destruct Hex as (_ & _ & _ & _ & E1 & E2 & E3 & E4 & E5).
    unfold settings. congruence.
  - unfold setScoreSigner in Hex. cbv zeta in Hex. rewrite Hne in Hex. discriminate.
  - unfold setFees in Hex. cbv zeta in Hex. rewrite Hne in Hex. discriminate.
  - unfold setEpochDuration in Hex. cbv zeta in Hex. rewrite Hne in Hex. discriminate.
  - unfold setTreasury in Hex. cbv zeta in Hex. rewrite Hne in Hex. discriminate.
  - apply bind_Ok in Hex. destruct Hex as (t & _ & Hex). injection Hex as <-. reflexivity.
  - apply bind_Ok in Hex. destruct Hex as (t & _ & Hex). injection Hex as <-. reflexivity.
  - apply bind_Ok in Hex. destruct Hex as (t & _ & Hex). injection Hex as <-. reflexivity.
  - apply bind_Ok in Hex. destruct Hex as (t & _ & Hex). injection Hex as <-. reflexivity.
  - apply bind_Ok in Hex. destruct Hex as (t & _ & Hex). injection Hex as <-. reflexivity.
  - apply bind_Ok in Hex. destruct Hex as (r & _ & Hex). injection Hex as <-. reflexivity.
  - apply bind_Ok in Hex. destruct Hex as (r & _ & Hex). injection Hex as <-. reflexivity.
  - apply bind_Ok in Hex. destruct Hex as (r & _ & Hex). injection Hex as <-. reflexivity.
Qed.

(** ** Deployment *)

(** X18. The deployment script succeeds for a nonzero deployer and game
    address (the first epoch's end time fitting in a [uint256]) and leaves a
    reachable world in which the token's [gameContract] and the registry's
    owner are the game, the token's and the game's owner are the deployer,
    nothing is minted, and epoch 1 runs from the deployment time for 86400
    seconds. Without that wiring no submission can succeed in any world whose
    registry is not owned by the game. *)
Theorem deploy_script_wires deployer self chain now signer treasury_ :
  deployer <> 0 -> self <> 0 -> now + 86400 <= MAX_UINT256 ->
  (exists w,
      deployScript deployer self chain now signer treasury_ = Ok w
      /\ reachable w
      /\ this w = self
      /\ DugToken.gameContract (dug w) = self
      /\ AgentRegistry.owner (registry w) = self
      /\ DugToken.owner (dug w) = deployer
      /\ owner (game w) = deployer
      /\ DugToken.totalSupply (dug w) = 0
      /\ currentEpoch (game w) = 1
      /\ getEpoch (game w) 1 = mkEpoch 1 now (now + 86400) 0 0 0 false 0 0 0 0)
  /\ (forall w sender now' sc rd kl sid sAt sig,
        this w <> AgentRegistry.owner (registry w) ->
        forall w', submitScore sender now' w sc rd kl sid sAt sig <> Ok w').
Proof.
  intros Hd Hs Hfit. split.
  - unfold deployScript.
    destruct (deploy deployer self chain now signer treasury_) as [w0|f] eqn:Hdep.
    2:{ exfalso. unfold deploy, DugToken.constructor, AgentRegistry.constructor in Hdep.
        apply N.eqb_neq in Hd. rewrite Hd in Hdep. cbn [bind] in Hdep.
        unfold _startNewEpoch in Hdep. cbv zeta in Hdep.
        cbn [game currentEpoch epochDuration] in Hdep.
        rewrite (checked_add_fits 0 1) in Hdep by (unfold MAX_UINT256; lia).
        cbn [bind] in Hdep. rewrite (checked_add_fits now 86400) in Hdep by exact Hfit.
        discriminate. }
    pose proof (reachable_deploy _ _ _ _ _ _ _ Hdep) as Hr0.
    assert (w0 = mkWorld (DugToken.mk 0 ∅ ∅ 0 deployer) (AgentRegistry.mk ∅ ∅ [] deployer)
                   (game w0) self chain (events w0)
            /\ owner (game w0) = deployer /\ currentEpoch (game w0) = 1
            /\ getEpoch (game w0) 1 = mkEpoch 1 now (now + 86400) 0 0 0 false 0 0 0 0)
      as (Ew0 & Eo & Ec & Ee).
    { unfold deploy, DugToken.constructor, AgentRegistry.constructor in Hdep.
      apply N.eqb_neq in Hd. rewrite Hd in Hdep. cbn [bind] in Hdep.
      apply startNewEpoch_Ok in Hdep. cbv zeta in Hdep.
      cbn [game currentEpoch epochDuration] in Hdep.
      destruct Hdep as (_ & _ & ->).
      repeat split. }
    cbn [bind].
    assert (DugToken.setGameContract deployer (dug w0) self
            = Ok (DugToken.mk 0 ∅ ∅ self deployer)) as Et.
    { rewrite Ew0. unfold DugToken.setGameContract. cbn [dug DugToken.owner].
      rewrite N.eqb_refl. reflexivity. }
    assert (AgentRegistry.transferOwnership deployer (registry w0) self
            = Ok (AgentRegistry.mk ∅ ∅ [] self)) as Er.
    { rewrite Ew0. unfold AgentRegistry.transferOwnership.
      cbn [registry AgentRegistry.owner]. rewrite N.eqb_refl. cbn [negb].
      apply N.eqb_neq in Hs. rewrite Hs. reflexivity. }
    rewrite Et. cbn [bind]. rewrite Er. cbn [bind].
    eexists. split; [reflexivity|]. split.
    { apply (reachable_exec deployer now (RegistryTransferOwnership self)
               (with_dug w0 (DugToken.mk 0 ∅ ∅ self deployer))).
      - apply (reachable_exec deployer now (TokenSetGameContract self) w0 _ Hr0).
        cbn [exec]. rewrite Et. reflexivity.
      - cbn [exec]. change (registry (with_dug w0 _)) with (registry w0).
        rewrite Er. reflexivity. }
    cbn [this dug registry game with_registry with_dug DugToken.gameContract
         AgentRegistry.owner DugToken.owner DugToken.totalSupply].
    rewrite Ew0. cbn [this]. rewrite <- Ew0.
    repeat split; assumption.
  - intros w sender now' sc rd kl sid sAt sig Hne w' Hsub.
    apply submitScore_Ok in Hsub. destruct Hsub as (_ & w1 & _ & He & _).
    apply enterSubmission_Ok in He. destruct He as (_ & _ & _ & _ & _ & _ & Ho & _).
    contradiction.
Qed.

(** ** Paying the entry fee *)

(** X19. An allowance that covers the entry fee commits the sender to
    paying it: when the sender's balance is below the fee, a submission that
    passes the checks reverts with [ERC20InsufficientBalance] and changes
    nothing (the fee is skipped only for a low allowance, not for a low
    balance). *)
Theorem unfunded_allowance_reverts sender now w sc rd kl sid sAt sig :
  verifySubmission sender now w sc rd kl sid sAt sig = Ok tt ->
  sender <> 0 -> this w <> 0 ->
  entryFee w sender <= DugToken.allowance (dug w) sender (this w) ->
  DugToken.balanceOf (dug w) sender < entryFee w sender ->
  run sender now (SubmitScore sc rd kl sid sAt sig) w
  = (w, Some ERC20InsufficientBalance).
Proof.
  intros Hv Hs Ht Hcov Hlow. unfold run. cbn [exec].
  rewrite submitScore_steps, Hv. cbn [bind].
  unfold enterSubmission. cbv zeta. unfold payEntryFee. cbv zeta.
  change (dug (with_game w (markSession (game w) sid))) with (dug w).
  change (this (with_game w (markSession (game w) sid))) with (this w).
  change (entryFee (with_game w (markSession (game w) sid)) sender)
    with (entryFee w sender).
  apply N.leb_le in Hcov. rewrite Hcov.
  assert (DugToken.transferFrom (this w) (dug w) sender (this w) (entryFee w sender)
          = Err ERC20InsufficientBalance) as ->.
  { unfold DugToken.transferFrom. cbv zeta.
    apply N.eqb_neq in Hs, Ht. apply N.ltb_lt in Hlow.
    destruct (_ <? MAX_UINT256).
    - apply N.leb_le in Hcov. apply N.ltb_ge in Hcov. rewrite Hcov, Hs, Ht. cbn [bind].
      unfold DugToken._transfer. rewrite Hs, Ht.
      unfold DugToken.balanceOf in Hlow |- *. cbn [DugToken.balances]. rewrite Hlow.
      reflexivity.
    - cbn [bind]. unfold DugToken._transfer. rewrite Hs, Ht, Hlow. reflexivity. }
  reflexivity.
Qed.

(** ** The game session of the agent API *)

Lemma cell_set (s : AgentApi.GameSession) nowMs gs R C row r c :
  AgentApi.GameState.grid (AgentApi.gameState s) !! R = Some row ->
  (C < length row)%nat ->
  AgentApi.GameState.grid gs
  = <[R := AgentApi.arraySet row C 0%Z]> (AgentApi.GameState.grid (AgentApi.gameState s)) ->
  AgentApi.cell (AgentApi.with_state s nowMs gs) r c
  = if decide (r = R /\ c = C) then Some 0%Z else AgentApi.cell s r c.
Proof.
  intros Hrow HC Hg. unfold AgentApi.cell. cbn [AgentApi.gameState AgentApi.with_state].
  rewrite Hg. unfold AgentApi.arraySet.
  destruct (Nat.ltb_spec C (length row)) as [_|]; [|lia].
  pose proof (lookup_lt_Some _ _ _ Hrow) as HR.
  destruct (decide (r = R)) as [->|Hr].
  - rewrite list_lookup_insert_eq by exact HR. rewrite Hrow.
    destruct (decide (c = C)) as [->|Hc].
    + rewrite list_lookup_insert_eq by exact HC.
      destruct (decide (R = R /\ C = C)) as [_|Hn]; [reflexivity | tauto].
    + rewrite list_lookup_insert_ne by congruence.
      destruct (decide (R = R /\ c = C)) as [[_ ?]|_]; [congruence | reflexivity].
  - rewrite list_lookup_insert_ne by congruence.
    destruct (decide (r = R /\ c = C)) as [[? _]|_]; [congruence | reflexivity].
Qed.

Lemma applyAction_bounds p a :
  (0 <= AgentApi.Player.x p <= 448)%Z -> (0 <= AgentApi.Player.y p <= 528)%Z ->
  (0 <= AgentApi.Player.x (AgentApi.applyAction p a) <= 448)%Z
  /\ (0 <= AgentApi.Player.y (AgentApi.applyAction p a) <= 528)%Z.
Proof. intros Hx Hy. destruct a; cbn [AgentApi.applyAction AgentApi.Player.x AgentApi.Player.y]; lia. Qed.

Lemma round32_bounds v :
  (0 <= v <= 528)%Z -> (0 <= AgentApi.round32 v <= 17)%Z.
Proof. unfold AgentApi.round32. intros Hv. lia. Qed.

Lemma round32_bounds_x v :
  (0 <= v <= 448)%Z -> (0 <= AgentApi.round32 v <= 14)%Z.
Proof. unfold AgentApi.round32. intros Hv. lia. Qed.

(** What one [tick] does to a well-formed session. *)
Lemma tick_ok nowMs s a :
  AgentApi.sessionOk s ->
  exists s',
    AgentApi.tick nowMs s a = Some s'
    /\ AgentApi.sessionOk s'
    /\ AgentApi.GameState.frame (AgentApi.gameState s')
       = (AgentApi.GameState.frame (AgentApi.gameState s) + 1)%Z
    /\ AgentApi.lastAction s' = nowMs
    /\ (AgentApi.sessionId s', AgentApi.agentAddress s', AgentApi.score s',
        AgentApi.kills s', AgentApi.round s')
       = (AgentApi.sessionId s, AgentApi.agentAddress s, AgentApi.score s,
          AgentApi.kills s, AgentApi.round s)
    /\ (forall r c,
          AgentApi.cell s' r c
          = if decide (a <> None
                       /\ (1 <= AgentApi.Player.tileR (AgentApi.GameState.player (AgentApi.gameState s'))
                           < 17)%Z
                       /\ r = Z.to_nat (AgentApi.Player.tileR
                                          (AgentApi.GameState.player (AgentApi.gameState s')))
                       /\ c = Z.to_nat (AgentApi.Player.tileC
                                          (AgentApi.GameState.player (AgentApi.gameState s'))))
            then Some 0%Z else AgentApi.cell s r c).
Proof.
  intros [Hx Hy HtR HtC Hrows Hcols Hcells Hsky].
  destruct a as [a|]; unfold AgentApi.tick; cbv zeta.
  2:{ eexists. split; [reflexivity|].
      cbn [AgentApi.gameState AgentApi.with_state AgentApi.GameState.frame AgentApi.GameState.player
           AgentApi.lastAction AgentApi.sessionId AgentApi.agentAddress AgentApi.score
           AgentApi.kills AgentApi.round].
      split; [split; assumption|]. split; [reflexivity|]. split; [reflexivity|].
      split; [reflexivity|]. intros r c.
      destruct (decide _) as [[Hn _]|_]; [congruence | reflexivity]. }
  pose proof (applyAction_bounds _ a Hx Hy) as [Hx1 Hy1].
  set (p1 := AgentApi.applyAction (AgentApi.GameState.player (AgentApi.gameState s)) a) in *.
  pose proof (round32_bounds _ Hy1) as HR.
  pose proof (round32_bounds_x _ Hx1) as HC.
  cbn [AgentApi.Player.tileR AgentApi.Player.tileC].
  destruct (Z.leb_spec 1 (AgentApi.round32 (AgentApi.Player.y p1))) as [H1|H1];
    destruct (Z.ltb_spec (AgentApi.round32 (AgentApi.Player.y p1)) 17) as [H2|H2];
    destruct (Z.leb_spec 0 (AgentApi.round32 (AgentApi.Player.x p1))) as [H3|H3];
    destruct (Z.ltb_spec (AgentApi.round32 (AgentApi.Player.x p1)) 15) as [H4|H4];
    cbn [andb]; try lia.
  - (* the tile is in the field: it is dug *)
    destruct (AgentApi.GameState.grid (AgentApi.gameState s)
                !! Z.to_nat (AgentApi.round32 (AgentApi.Player.y p1))) as [row|] eqn:Hrow.
    2:{ apply lookup_ge_None in Hrow. lia. }
    pose proof (Hcols _ _ Hrow) as Hlen.
    eexists. split; [reflexivity|].
    assert (forall r c,
              AgentApi.cell
                (AgentApi.with_state s nowMs
                   (AgentApi.GameState.mk (AgentApi.GameState.frame (AgentApi.gameState s) + 1)
                      (AgentApi.GameState.score (AgentApi.gameState s))
                      (AgentApi.GameState.lives (AgentApi.gameState s))
                      (AgentApi.GameState.round (AgentApi.gameState s))
                      (AgentApi.Player.mk (AgentApi.Player.x p1) (AgentApi.Player.y p1)
                         (AgentApi.round32 (AgentApi.Player.y p1))
                         (AgentApi.round32 (AgentApi.Player.x p1)) (AgentApi.Player.dir p1)
                         (AgentApi.Player.alive p1) (AgentApi.Player.invincible p1) (AgentApi.Player.hasPump p1))
                      (AgentApi.GameState.enemies (AgentApi.gameState s))
                      (AgentApi.GameState.rocks (AgentApi.gameState s))
                      (<[Z.to_nat (AgentApi.round32 (AgentApi.Player.y p1)) :=
                           AgentApi.arraySet row
                             (Z.to_nat (AgentApi.round32 (AgentApi.Player.x p1))) 0%Z]>
                         (AgentApi.GameState.grid (AgentApi.gameState s)))
                      (AgentApi.GameState.actions (AgentApi.gameState s)))) r c
              = if decide (r = Z.to_nat (AgentApi.round32 (AgentApi.Player.y p1))
                           /\ c = Z.to_nat (AgentApi.round32 (AgentApi.Player.x p1)))
                then Some 0%Z else AgentApi.cell s r c) as Hcell.
    { intros r c. apply (cell_set s nowMs _ _ _ row); [exact Hrow | lia | reflexivity]. }
    cbn [AgentApi.gameState AgentApi.with_state AgentApi.GameState.frame AgentApi.GameState.player
         AgentApi.lastAction AgentApi.sessionId AgentApi.agentAddress AgentApi.score
         AgentApi.kills AgentApi.round AgentApi.Player.tileR AgentApi.Player.tileC].
    split; [|split; [reflexivity|split; [reflexivity|split; [reflexivity|]]]].
    + split; cbn [AgentApi.gameState AgentApi.with_state AgentApi.GameState.player AgentApi.GameState.grid
                  AgentApi.Player.x AgentApi.Player.y AgentApi.Player.tileR AgentApi.Player.tileC];
        try assumption; try reflexivity.
      * rewrite length_insert. exact Hrows.
      * intros r row' Hr'.
        destruct (decide (r = Z.to_nat (AgentApi.round32 (AgentApi.Player.y p1)))) as [->|Hne].
        -- rewrite list_lookup_insert_eq in Hr' by (apply lookup_lt_Some in Hrow; exact Hrow).
           injection Hr' as <-. unfold AgentApi.arraySet.
           destruct (Nat.ltb_spec (Z.to_nat (AgentApi.round32 (AgentApi.Player.x p1)))
                       (length row)); [|lia].
           rewrite length_insert. exact Hlen.
        -- rewrite list_lookup_insert_ne in Hr' by congruence. eapply Hcols, Hr'.
      * intros r c Hr Hc. rewrite Hcell. destruct (decide _); [left; reflexivity|].
        apply Hcells; assumption.
      * intros c Hc. rewrite Hcell.
        destruct (decide _) as [[? _]|_]; [lia|]. apply Hsky, Hc.
    + intros r c. rewrite Hcell.
      destruct (decide (r = _ /\ c = _)) as [[-> ->]|Hn];
        destruct (decide (_ /\ _ /\ _ /\ _)) as [(_ & _ & Er & Ec)|Hm];
        try reflexivity.
      * exfalso. apply Hm. repeat split; try lia. discriminate.
      * exfalso. apply Hn. split; assumption.
  - (* row 17, below the field: nothing is dug *)
    eexists. split; [reflexivity|].
    cbn [AgentApi.gameState AgentApi.with_state AgentApi.GameState.frame AgentApi.GameState.player
         AgentApi.lastAction AgentApi.sessionId AgentApi.agentAddress AgentApi.score
         AgentApi.kills AgentApi.round AgentApi.Player.tileR AgentApi.Player.tileC].
    split; [|split; [reflexivity|split; [reflexivity|split; [reflexivity|]]]].
    + split; cbn [AgentApi.gameState AgentApi.with_state AgentApi.GameState.player AgentApi.GameState.grid
                  AgentApi.Player.x AgentApi.Player.y AgentApi.Player.tileR AgentApi.Player.tileC];
        try assumption; try reflexivity.
    + intros r c. destruct (decide _) as [(_ & ? & _)|_]; [lia | reflexivity].
  - (* row 0, the sky: nothing is dug *)
    eexists. split; [reflexivity|].
    cbn [AgentApi.gameState AgentApi.with_state AgentApi.GameState.frame AgentApi.GameState.player
         AgentApi.lastAction AgentApi.sessionId AgentApi.agentAddress AgentApi.score
         AgentApi.kills AgentApi.round AgentApi.Player.tileR AgentApi.Player.tileC].
    split; [|split; [reflexivity|split; [reflexivity|split; [reflexivity|]]]].
    + split; cbn [AgentApi.gameState AgentApi.with_state AgentApi.GameState.player AgentApi.GameState.grid
                  AgentApi.Player.x AgentApi.Player.y AgentApi.Player.tileR AgentApi.Player.tileC];
        try assumption; try reflexivity.
    + intros r c. destruct (decide _) as [(_ & ? & _)|_]; [lia | reflexivity].
Qed.

Lemma constructor_ok randomId startMs lastMs addr aid ag :
  AgentApi.sessionOk (AgentApi.constructor randomId startMs lastMs addr aid ag).
Proof.
  split.
  - cbn. lia.
  - cbn. lia.
  - reflexivity.
  - reflexivity.
  - reflexivity.
  - intros r row Hr.
    change (AgentApi.initialGrid !! r = Some row) in Hr.
    unfold AgentApi.initialGrid in Hr. rewrite list_lookup_fmap in Hr.
    destruct (seq 0 17 !! r) as [k|]; [|discriminate]. injection Hr as <-.
    reflexivity.
  - intros r c Hr Hc.
    do 17 (destruct r as [|r]; [do 15 (destruct c as [|c]; [cbn; auto|]); lia|]). lia.
  - intros c Hc.
    do 15 (destruct c as [|c]; [reflexivity|]). lia.
Qed.

Lemma ticks_ok calls s :
  AgentApi.sessionOk s ->
  exists s',
    AgentApi.ticks calls s = Some s'
    /\ AgentApi.sessionOk s'
    /\ AgentApi.GameState.frame (AgentApi.gameState s')
       = (AgentApi.GameState.frame (AgentApi.gameState s) + Z.of_nat (length calls))%Z
    /\ (AgentApi.sessionId s', AgentApi.agentAddress s', AgentApi.score s',
        AgentApi.kills s', AgentApi.round s')
       = (AgentApi.sessionId s, AgentApi.agentAddress s, AgentApi.score s,
          AgentApi.kills s, AgentApi.round s)
    /\ (forall r c, AgentApi.cell s r c = Some 0%Z -> AgentApi.cell s' r c = Some 0%Z)
    /\ (forall r c, AgentApi.cell s' r c <> AgentApi.cell s r c ->
          AgentApi.cell s' r c = Some 0%Z /\ (1 <= r < 17)%nat /\ (c < 15)%nat).
Proof.
  revert s. induction calls as [|[nowMs a] rest IH]; intros s Hok; cbn [AgentApi.ticks].
  - exists s. split; [reflexivity|]. split; [exact Hok|]. split; [cbn; lia|].
    split; [reflexivity|]. split; [auto|]. intros r c Hne. congruence.
  - destruct (tick_ok nowMs s a Hok) as (s1 & Ht & Hok1 & Hf1 & _ & Hid1 & Hc1).
    rewrite Ht. destruct (IH s1 Hok1) as (s' & Hts & Hok' & Hf & Hid & Hkeep & Hchg).
    exists s'. split; [exact Hts|]. split; [exact Hok'|].
    split; [rewrite Hf, Hf1; cbn [length]; lia|].
    split; [congruence|].
    pose proof (AgentApi.ok_tileR _ Hok1) as HtR. pose proof (AgentApi.ok_tileC _ Hok1) as HtC.
    pose proof (round32_bounds _ (AgentApi.ok_y _ Hok1)) as HR.
    pose proof (round32_bounds_x _ (AgentApi.ok_x _ Hok1)) as HC.
    split.
    + intros r c H0. apply Hkeep. rewrite Hc1.
      destruct (decide _); [reflexivity | exact H0].
    + intros r c Hne.
      destruct (decide (AgentApi.cell s' r c = AgentApi.cell s1 r c)) as [E|E].
      * rewrite E in Hne |- *. rewrite Hc1 in Hne |- *.
        destruct (decide _) as [(_ & Hrow & -> & ->)|_]; [|congruence].
        split; [reflexivity|]. rewrite HtR, HtC in *. lia.
      * apply Hchg, E.
Qed.

(** X20. The server-side session never leaves the field and [tick] never
    throws. For a new session and any series of [tick] calls: every call
    returns; the frame counter counts the calls; the player stays within
    [0, 448] by [0, 528]; the tile is row 0 to 17 and column 0 to 14; the
    grid keeps its 17 rows of 15 cells, each 0 or 1; and the session id, the
    player's address and the score, kills and round to be signed are
    untouched. Row 17, which the grid does not have, can be reached (the
    bounds check before the write is needed). *)
Theorem session_ticks_safe randomId startMs lastMs addr aid ag calls :
  let s := AgentApi.constructor randomId startMs lastMs addr aid ag in
  (exists s',
      AgentApi.ticks calls s = Some s'
      /\ AgentApi.GameState.frame (AgentApi.gameState s') = Z.of_nat (length calls)
      /\ (0 <= AgentApi.Player.x (AgentApi.GameState.player (AgentApi.gameState s'))
          <= 448)%Z
      /\ (0 <= AgentApi.Player.y (AgentApi.GameState.player (AgentApi.gameState s'))
          <= 528)%Z
      /\ (0 <= AgentApi.Player.tileR (AgentApi.GameState.player (AgentApi.gameState s'))
          <= 17)%Z
      /\ (0 <= AgentApi.Player.tileC (AgentApi.GameState.player (AgentApi.gameState s'))
          <= 14)%Z
      /\ length (AgentApi.GameState.grid (AgentApi.gameState s')) = 17%nat
      /\ Forall (fun row => length row = 15%nat
                            /\ Forall (fun v => v = Some 0%Z \/ v = Some 1%Z) row)
                (AgentApi.GameState.grid (AgentApi.gameState s'))
      /\ (AgentApi.sessionId s', AgentApi.agentAddress s', AgentApi.score s',
          AgentApi.kills s', AgentApi.round s')
         = (randomId, addr, 0, 0, 1))
  /\ (exists calls' s',
        AgentApi.ticks calls' s = Some s'
        /\ AgentApi.Player.tileR (AgentApi.GameState.player (AgentApi.gameState s'))
           = 17%Z).
Proof.
  cbv zeta. split.
  - destruct (ticks_ok calls _ (constructor_ok randomId startMs lastMs addr aid ag))
      as (s' & Ht & Hok & Hf & Hid & _).
    exists s'. split; [exact Ht|]. split; [rewrite Hf; cbn; lia|].
    pose proof (round32_bounds _ (AgentApi.ok_y _ Hok)) as HR.
    pose proof (round32_bounds_x _ (AgentApi.ok_x _ Hok)) as HC.
    split; [apply Hok|]. split; [apply Hok|].
    split; [rewrite (AgentApi.ok_tileR _ Hok); exact HR|].
    split; [rewrite (AgentApi.ok_tileC _ Hok); exact HC|].
    split; [apply Hok|]. split; [|exact Hid].
    apply Forall_lookup. intros r row Hrow.
    pose proof (AgentApi.ok_cols _ Hok _ _ Hrow) as Hlen. split; [exact Hlen|].
    apply Forall_lookup. intros c v Hv.
    assert (r < 17)%nat as Hr
      by (apply lookup_lt_Some in Hrow; rewrite (AgentApi.ok_rows _ Hok) in Hrow; exact Hrow).
    assert (c < 15)%nat as Hc
      by (apply lookup_lt_Some in Hv; rewrite Hlen in Hv; exact Hv).
    pose proof (AgentApi.ok_cells _ Hok r c Hr Hc) as Hcell.
    unfold AgentApi.cell in Hcell. rewrite Hrow, Hv in Hcell. exact Hcell.
  - exists (replicate 124 (0%Z, Some AgentApi.move_down)).
    destruct (ticks_ok (replicate 124 (0%Z, Some AgentApi.move_down)) _
                (constructor_ok randomId startMs lastMs addr aid ag))
      as (s' & Ht & _).
    exists s'. split; [exact Ht|].
    vm_compute in Ht. injection Ht as <-. reflexivity.
Qed.

(** X21. Dug tiles stay dug. From a well-formed session, no series of
    [tick] calls turns a dug cell back; a cell that changes becomes dug and
    lies in rows 1 to 16; and a [tick] with an action digs the tile the
    player ends on whenever that tile is in rows 1 to 16. *)
Theorem dug_tiles_stay_dug calls s s' :
  AgentApi.sessionOk s ->
  AgentApi.ticks calls s = Some s' ->
  (forall r c, AgentApi.cell s r c = Some 0%Z -> AgentApi.cell s' r c = Some 0%Z)
  /\ (forall r c, AgentApi.cell s' r c <> AgentApi.cell s r c ->
        AgentApi.cell s' r c = Some 0%Z /\ (1 <= r < 17)%nat /\ (c < 15)%nat)
  /\ (forall nowMs a s1,
        AgentApi.tick nowMs s' (Some a) = Some s1 ->
        let p := AgentApi.GameState.player (AgentApi.gameState s1) in
        (1 <= AgentApi.Player.tileR p < 17)%Z ->
        AgentApi.cell s1 (Z.to_nat (AgentApi.Player.tileR p))
                         (Z.to_nat (AgentApi.Player.tileC p)) = Some 0%Z).
Proof.
  intros Hok Ht.
  destruct (ticks_ok calls s Hok) as (s2 & Ht2 & Hok2 & _ & _ & Hkeep & Hchg).
  rewrite Ht in Ht2. injection Ht2 as <-.
  split; [exact Hkeep|]. split; [exact Hchg|].
  intros nowMs a s1 Htick. cbv zeta. intros Hrow.
  destruct (tick_ok nowMs s' (Some a) Hok2) as (s3 & Ht3 & _ & _ & _ & _ & Hc).
  rewrite Htick in Ht3. injection Ht3 as <-.
  rewrite Hc. destruct (decide _) as [_|Hn]; [reflexivity|].
  exfalso. apply Hn. repeat split; try lia. discriminate.
Qed.

(** ** What the server signs *)

(** X22. A payload the submit-score route signs is one the contract
    accepts. When [POST /agent/submit-score] answers with a signed payload,
    the session exists and its score is not 0, the payload carries the
    session's id, score, round and kills and a time stamp in seconds, and the
    session is marked as verified. If the wallet's signatures recover to its
    address, that address is the game's score signer, and the game runs on
    chain 8453, then a [submitScore] sent by the session's player with the
    payload passes the three checks of the contract as long as the session id
    is unused and no more than 300 seconds have passed. *)
Theorem signed_payload_accepted `{W : AgentApi.Wallet}
    chainReady randomBytes nowMs activeSessions sid payload sessions' :
  (forall h, recover (toEthSignedMessageHash h) (AgentApi.signMessage h)
             = Ok AgentApi.walletAddress) ->
  AgentApi.submitScoreRoute chainReady randomBytes nowMs activeSessions sid
  = (AgentApi.Signed payload, sessions') ->
  exists session session',
    activeSessions !! sid = Some session
    /\ sessions' = <[sid := session']> activeSessions
    /\ AgentApi.scoreVerified session' = true
    /\ AgentApi.score session <> 0
    /\ (AgentApi.signed_sessionId payload, AgentApi.signed_score payload,
        AgentApi.signed_round payload, AgentApi.signed_kills payload,
        AgentApi.signedAt payload)
       = (AgentApi.sessionId session, AgentApi.score session, AgentApi.round session,
          AgentApi.kills session, nowMs / 1000)
    /\ forall w now,
         scoreSigner (game w) = AgentApi.walletAddress ->
         chainid w = AgentApi.CHAIN_ID ->
         sessionUsed (game w) (AgentApi.signed_sessionId payload) = false ->
         now <= AgentApi.signedAt payload + 300 ->
         AgentApi.signedAt payload + 300 <= MAX_UINT256 ->
         verifySubmission (AgentApi.agentAddress session) now w
           (AgentApi.signed_score payload) (AgentApi.signed_round payload)
           (AgentApi.signed_kills payload) (AgentApi.signed_sessionId payload)
           (AgentApi.signedAt payload) (AgentApi.signature payload) = Ok tt.
Proof.
  intros Hsig Hroute. unfold AgentApi.submitScoreRoute in Hroute.
  destruct (activeSessions !! sid) as [session|] eqn:Hs; [|discriminate].
  destruct (N.eqb_spec (AgentApi.score session) 0) as [|Hpos]; [discriminate|].
  unfold AgentApi.signScore in Hroute.
  destruct chainReady; cbn [negb andb AgentApi.mock] in Hroute; [|discriminate].
  injection Hroute as <- <-.
  eexists. eexists. split; [reflexivity|]. split; [reflexivity|].
  split; [reflexivity|]. split; [exact Hpos|]. split; [reflexivity|].
  intros w now Hsigner Hchain Hfresh Hnow Hfit.
  cbn [AgentApi.signed_sessionId AgentApi.signed_score AgentApi.signed_round
       AgentApi.signed_kills AgentApi.signedAt AgentApi.signature] in *.
  apply verify_passes; try assumption.
  rewrite Hchain, Hsigner. apply Hsig.
Qed.

(** ** What the leaderboard routes show *)

Lemma filter_none {A : Type} (P : A -> Prop) `{forall x, Decision (P x)} (l : list A) :
  Forall (fun x => ~ P x) l -> filter P l = [].
Proof.
  induction 1 as [|x l Hx _ IH]; [reflexivity|].
  rewrite filter_cons_False by exact Hx. exact IH.
Qed.

Lemma filter_all {A : Type} (P : A -> Prop) `{forall x, Decision (P x)} (l : list A) :
  Forall P l -> filter P l = l.
Proof.
  induction 1 as [|x l Hx _ IH]; [reflexivity|].
  rewrite filter_cons_True by exact Hx. now rewrite IH.
Qed.

(** X23. What the leaderboard routes answer when the chain is connected.
    The combined route [GET /leaderboard] shows of a board what it would
    show of its occupied slots alone, never more entries than the board's
    count, and, when no occupied slot holds the zero address, exactly the
    occupied slots in order, each number exact while it is below 2^53. The
    two category routes [GET /leaderboard/agents] and
    [GET /leaderboard/humans] never show an entry: as soon as an occupied
    slot of their board holds a nonzero player they answer with status 500,
    and otherwise with an empty list. *)
Theorem leaderboard_routes_answers w a :
  reachable w ->
  let lb := boardOf (game w) a in
  let count := countOf (game w) a in
  let categoryAnswer :=
    if a then AgentApi.leaderboardAgentsRoute true w
    else AgentApi.leaderboardHumansRoute true w in
  AgentApi.leaderboardRoute true w
  = AgentApi.Answer (AgentApi.fmt (boardOf (game w) true),
                     AgentApi.fmt (boardOf (game w) false))
  /\ AgentApi.fmt lb = AgentApi.fmt (occupied lb count)
  /\ (length (AgentApi.fmt lb) <= N.to_nat count)%nat
  /\ ((forall i, (i < N.to_nat count)%nat -> player (lbAt lb i) <> 0) ->
      AgentApi.fmt lb = AgentApi.showEntry <$> occupied lb count)
  /\ (forall i, (i < N.to_nat count)%nat ->
        let e := lbAt lb i in
        (score e < 2 ^ 53 -> AgentApi.shown_score (AgentApi.showEntry e) = score e)
        /\ (round e < 2 ^ 53 -> AgentApi.shown_round (AgentApi.showEntry e) = round e)
        /\ (kills e < 2 ^ 53 -> AgentApi.shown_kills (AgentApi.showEntry e) = kills e)
        /\ AgentApi.shown_isAgent (AgentApi.showEntry e) = a)
  /\ ((exists i, (i < N.to_nat count)%nat /\ player (lbAt lb i) <> 0) ->
      categoryAnswer = AgentApi.ServerError)
  /\ ((forall i, (i < N.to_nat count)%nat -> player (lbAt lb i) = 0) ->
      categoryAnswer = AgentApi.Answer [])
  /\ (forall body, categoryAnswer = AgentApi.Answer body -> body = []).
Proof.
  intros Hr. cbv zeta.
  pose proof (worldOk_board w a (reachable_ok w Hr)) as Hb.
  pose proof (reachable_ok2 w Hr) as [_ _ [Hcat _ _]].
  assert ((if a then AgentApi.leaderboardAgentsRoute true w
           else AgentApi.leaderboardHumansRoute true w)
          = AgentApi.categoryRoute true (boardOf (game w) a)) as ->
    by (destruct a; reflexivity).
  set (lb := boardOf (game w) a) in *. set (c := countOf (game w) a) in *.
  assert (AgentApi.nonZeroEntries lb = AgentApi.nonZeroEntries (occupied lb c)) as E.
  { unfold AgentApi.nonZeroEntries, occupied.
    rewrite <- (take_drop (N.to_nat c) lb) at 1. rewrite filter_app.
    rewrite (filter_none _ (drop (N.to_nat c) lb)); [apply app_nil_r|].
    apply Forall_lookup. intros i e He. rewrite lookup_drop in He.
    pose proof (board_tail _ _ _ Hb (N.to_nat c + i)%nat ltac:(lia)) as Hz.
    unfold lbAt in Hz. rewrite He in Hz. cbn in Hz. subst e. cbn. tauto. }
  assert (forall i, (i < N.to_nat c)%nat -> occupied lb c !! i = Some (lbAt lb i))
    as Hocc.
  { intros i Hi. unfold occupied. rewrite lookup_take_lt by exact Hi.
    apply lbAt_lookup. rewrite (board_length _ _ _ Hb).
    pose proof (board_count _ _ _ Hb). unfold LB_SIZE in *. lia. }
  split; [reflexivity|].
  split; [unfold AgentApi.fmt; rewrite E; reflexivity|].
  split.
  { unfold AgentApi.fmt. rewrite length_fmap, E. unfold AgentApi.nonZeroEntries.
    etransitivity; [apply length_filter|]. unfold occupied. rewrite length_take. lia. }
  split.
  { intros Hnz. unfold AgentApi.fmt. rewrite E. f_equal.
    unfold AgentApi.nonZeroEntries. apply filter_all.
    apply Forall_lookup. intros i e He. unfold occupied in He.
    apply lookup_take_Some in He. destruct He as [He Hi].
    specialize (Hnz i Hi). unfold lbAt in Hnz. rewrite He in Hnz. exact Hnz. }
  split.
  { intros i Hi. cbv zeta. unfold AgentApi.showEntry, AgentApi.toNumber.
    cbn [AgentApi.shown_score AgentApi.shown_round AgentApi.shown_kills
         AgentApi.shown_isAgent].
    split; [intros Hs; apply N.ltb_lt in Hs; rewrite Hs; reflexivity|].
    split; [intros Hs; apply N.ltb_lt in Hs; rewrite Hs; reflexivity|].
    split; [intros Hs; apply N.ltb_lt in Hs; rewrite Hs; reflexivity|].
    apply Hcat, Hi. }
  unfold AgentApi.categoryRoute. cbn [negb]. rewrite E.
  split.
  { intros (i & Hi & Hp).
    assert (lbAt lb i ∈ AgentApi.nonZeroEntries (occupied lb c)) as Hin.
    { unfold AgentApi.nonZeroEntries. apply list_elem_of_filter.
      split; [exact Hp|]. eapply list_elem_of_lookup_2, Hocc, Hi. }
    destruct (AgentApi.nonZeroEntries (occupied lb c)); [|reflexivity].
    apply elem_of_nil in Hin. contradiction. }
  split.
  { intros Hz. unfold AgentApi.nonZeroEntries. rewrite filter_none; [reflexivity|].
    apply Forall_lookup. intros i e He. unfold occupied in He.
    apply lookup_take_Some in He. destruct He as [He Hi].
    specialize (Hz i Hi). unfold lbAt in Hz. rewrite He in Hz. cbn in Hz.
    intros Hne. contradiction. }
  intros body Hbody.
  destruct (AgentApi.nonZeroEntries (occupied lb c)); [|discriminate].
  injection Hbody as <-. reflexivity.
Qed.

(** ** Who may change the wiring *)

(** X24. The token's [gameContract] changes only when the token's owner
    calls [setGameContract]: no other transaction, by anyone, rewires the
    token. *)
Theorem game_contract_set_only_by_token_owner sender now c w w' :
  exec sender now c w = Ok w' ->
  DugToken.gameContract (dug w') <> DugToken.gameContract (dug w) ->
  sender = DugToken.owner (dug w)
  /\ c = TokenSetGameContract (DugToken.gameContract (dug w')).
Proof.
  intros Hex Hne. destruct c; cbn [exec] in Hex.
  - apply submitScore_supply in Hex. destruct Hex as (_ & Eg & _). contradiction.
  - apply settleEpoch_supply in Hex. cbv zeta in Hex. destruct Hex as (_ & Eg & _).
    contradiction.
  - unfold setScoreSigner in Hex. destruct (negb _); [discriminate|].
    injection Hex as <-. contradiction Hne. reflexivity.
  - unfold setFees in Hex. destruct (negb _); [discriminate|].
    injection Hex as <-. contradiction Hne. reflexivity.
  - unfold setEpochDuration in Hex. destruct (negb _); [discriminate|].
    injection Hex as <-. contradiction Hne. reflexivity.
  - unfold setTreasury in Hex. destruct (negb _); [discriminate|].
    injection Hex as <-. contradiction Hne. reflexivity.
  - apply bind_Ok in Hex. destruct Hex as (t & Ht & Hex). injection Hex as <-.
    unfold DugToken.setGameContract in Ht.
    destruct (N.eqb_spec sender (DugToken.owner (dug w))) as [Ho|]; [|discriminate].
    cbn [negb] in Ht. injection Ht as <-. split; [exact Ho | reflexivity].
  - apply bind_Ok in Hex. destruct Hex as (t & Ht & Hex). injection Hex as <-.
    apply mint_supply in Ht. destruct Ht as (_ & Eg & _). contradiction.
  - apply bind_Ok in Hex. destruct Hex as (t & Ht & Hex). injection Hex as <-.
    unfold DugToken.approve in Ht.
    destruct (sender =? 0); [discriminate|]. destruct (spender =? 0); [discriminate|].
    injection Ht as <-. contradiction Hne. reflexivity.
  - apply bind_Ok in Hex. destruct Hex as (t & Ht & Hex). injection Hex as <-.
    apply transfer_supply in Ht. destruct Ht as (_ & Eg). contradiction.
  - apply bind_Ok in Hex. destruct Hex as (t & Ht & Hex). injection Hex as <-.
    apply burn_Ok in Ht. destruct Ht as (_ & ->). contradiction Hne. reflexivity.
  - apply bind_Ok in Hex. destruct Hex as (r & _ & Hex). injection Hex as <-.
    contradiction Hne. reflexivity.
  - apply bind_Ok in Hex. destruct Hex as (r & _ & Hex). injection Hex as <-.
    contradiction Hne. reflexivity.
  - apply bind_Ok in Hex. destruct Hex as (r & _ & Hex). injection Hex as <-.
    contradiction Hne. reflexivity.
Qed.

Lemma exec_registry_owner sender now c w w' :
  exec sender now c w = Ok w' ->
  this w' = this w
  /\ (sender <> AgentRegistry.owner (registry w) ->
      AgentRegistry.owner (registry w') = AgentRegistry.owner (registry w)).
Proof.
  intros Hex. destruct c; cbn [exec] in Hex.
  - apply submitScore_epochs in Hex. cbv zeta in Hex.
    destruct Hex as (_ & _ & _ & _ & _ & Hr & Et & _).
    apply recordGame_result in Hr. cbv zeta in Hr. destruct Hr as (_ & ->).
    split; [exact Et | reflexivity].
  - pose proof (settleEpoch_game _ _ _ Hex) as Hg. cbv zeta in Hg.
    destruct Hg as (_ & _ & _ & _ & _ & _ & _ & _ & _ & Et & _).
    apply settleEpoch_epochs in Hex. cbv zeta in Hex. destruct Hex as (_ & _ & -> & _).
    split; [exact Et | reflexivity].
  - unfold setScoreSigner in Hex. destruct (negb _); [discriminate|].
    injection Hex as <-. split; reflexivity.
  - unfold setFees in Hex. destruct (negb _); [discriminate|].
    injection Hex as <-. split; reflexivity.
  - unfold setEpochDuration in Hex. destruct (negb _); [discriminate|].
    injection Hex as <-. split; reflexivity.
  - unfold setTreasury in Hex. destruct (negb _); [discriminate|].
    injection Hex as <-. split; reflexivity.
  - apply bind_Ok in Hex. destruct Hex as (t & _ & Hex). injection Hex as <-.
    split; reflexivity.
  - apply bind_Ok in Hex. destruct Hex as (t & _ & Hex). injection Hex as <-.
    split; reflexivity.
  - apply bind_Ok in Hex. destruct Hex as (t & _ & Hex). injection Hex as <-.
    split; reflexivity.
  - apply bind_Ok in Hex. destruct Hex as (t & _ & Hex). injection Hex as <-.
    split; reflexivity.
  - apply bind_Ok in Hex. destruct Hex as (t & _ & Hex). injection Hex as <-.
    split; reflexivity.
  - apply bind_Ok in Hex. destruct Hex as (r & Hr & Hex). injection Hex as <-.
    apply register_result in Hr. destruct Hr as (_ & _ & ->). split; reflexivity.
  - apply bind_Ok in Hex. destruct Hex as (r & Hr & Hex). injection Hex as <-.
    apply recordGame_result in Hr. cbv zeta in Hr. destruct Hr as (_ & ->).
    split; reflexivity.
  - apply bind_Ok in Hex. destruct Hex as (r & Hr & Hex). injection Hex as <-.
    split; [reflexivity|]. intros Hne.
    unfold AgentRegistry.transferOwnership in Hr.
    apply N.eqb_neq in Hne. rewrite Hne in Hr. discriminate.
Qed.

(** X25. Once the registry is owned by the game, it stays so: the game has
    no function that gives the ownership away, so after any transactions sent
    by accounts other than the game contract itself the registry's owner is
    still the game, and a direct [recordGame] by any such account is rejected
    (only [submitScore] records games). *)
Theorem registry_ownership_locked txs w :
  AgentRegistry.owner (registry w) = this w ->
  Forall (fun tx => tx.1.1 <> this w) txs ->
  let w' := runAll txs w in
  this w' = this w
  /\ AgentRegistry.owner (registry w') = this w
  /\ forall sender player_ score_,
       sender <> this w ->
       AgentRegistry.recordGame sender (registry w') player_ score_
       = Err OwnableUnauthorizedAccount.
Proof.
  intros Ho Hall. cbv zeta.
  assert (this (runAll txs w) = this w
          /\ AgentRegistry.owner (registry (runAll txs w)) = this w) as (Et & Eo).
  { revert w Ho Hall. induction txs as [|[[sender now] c] rest IH];
      intros w Ho Hall; cbn [runAll].
    - split; [reflexivity | exact Ho].
    - apply Forall_cons in Hall. destruct Hall as (Hs & Hrest). cbn [fst] in Hs.
      unfold run. destruct (exec sender now c w) as [w1|f] eqn:Hex; cbn [fst].
      + apply exec_registry_owner in Hex. destruct Hex as (Et1 & Eo1).
        rewrite Ho in Eo1. specialize (Eo1 Hs).
        destruct (IH w1) as (E1 & E2).
        * rewrite Eo1, Et1. reflexivity.
        * rewrite Et1. exact Hrest.
        * rewrite E1, E2, Et1. split; reflexivity.
      + apply IH; assumption. }
  split; [exact Et|]. split; [exact Eo|].
  intros sender p sc Hne. unfold AgentRegistry.recordGame. rewrite Eo.
  apply N.eqb_neq in Hne. rewrite Hne. reflexivity.
Qed.

(** ** The treasury counter *)

Lemma settledTreasury_ext g g' :
  currentEpoch g' = currentEpoch g ->
  (forall k, k < currentEpoch g -> epochs g' !! k = epochs g !! k) ->
  settledTreasury g' = settledTreasury g.
Proof.
  intros Ec He. unfold settledTreasury. rewrite Ec. f_equal.
  apply list_fmap_ext. intros i k Hk.
  apply lookup_seq in Hk. destruct Hk as [-> Hi].
  rewrite (getEpoch_ext g g'); [reflexivity|]. apply He. lia.
Qed.

Lemma sumN_app l1 l2 : sumN (l1 ++ l2) = sumN l1 + sumN l2.
Proof.
  unfold sumN. induction l1 as [|x l1 IH]; cbn [app foldr]; [lia|]. rewrite IH. lia.
Qed.

Lemma submitScore_treasuryBalance sender now w sc rd kl sid sAt sig w' :
  submitScore sender now w sc rd kl sid sAt sig = Ok w' ->
  treasuryBalance (game w') = treasuryBalance (game w).
Proof.
  intros Hs.
  apply submitScore_Ok in Hs. destruct Hs as (_ & w1 & w2 & He & Hm & ->).
  apply enterSubmission_Ok in He.
  destruct He as (t & r & g1 & -> & _ & _ & _ & Hent).
  apply mintGameplayRewards_frame in Hm. cbn [game] in Hm. destruct Hm as (Eg & _).
  unfold finishSubmit. cbv zeta. cbn [game emit with_game].
  assert (treasuryBalance g1 = treasuryBalance (game w)) as E1
    by (destruct Hent as [-> | [fee ->]]; reflexivity).
  rewrite <- E1, <- Eg.
  unfold recordTopScore, placeScore. cbv zeta.
  destruct (isAgentOf w sender).
  - destruct (_updateLeaderboard _ _ _ _ _ _ _ _ _) as [lb evs].
    cbn [game]. destruct (true && _); (destruct (negb true && _)); reflexivity.
  - destruct (_updateLeaderboard _ _ _ _ _ _ _ _ _) as [lb evs].
    cbn [game]. destruct (false && _); (destruct (negb false && _)); reflexivity.
Qed.

Lemma exec_treasury sender now c w w' :
  historyOk (game w) ->
  exec sender now c w = Ok w' ->
  treasuryBalance (game w) = settledTreasury (game w) ->
  treasuryBalance (game w') = settledTreasury (game w').
Proof.
  intros Hh Hex Hinv.
  assert (forall g1, treasuryBalance g1 = treasuryBalance (game w) ->
                     currentEpoch g1 = currentEpoch (game w) ->
                     epochs g1 = epochs (game w) ->
                     treasuryBalance g1 = settledTreasury g1) as Hsame.
  { intros g1 E1 E2 E3. rewrite E1, Hinv. symmetry.
    apply settledTreasury_ext; [exact E2|]. intros k _. rewrite E3. reflexivity. }
  destruct c; cbn [exec] in Hex.
  - pose proof (submitScore_treasuryBalance _ _ _ _ _ _ _ _ _ _ Hex) as Eb.
    pose proof (submitScore_game _ _ _ _ _ _ _ _ _ _ Hex) as Hg. cbv zeta in Hg.
    destruct Hg as (_ & _ & Ec & _).
    apply submitScore_epochs in Hex. cbv zeta in Hex. destruct Hex as (Eo & _).
    rewrite Eb, Hinv. symmetry. apply settledTreasury_ext; [exact Ec|].
    intros k Hk. apply Eo. lia.
  - pose proof (settleEpoch_game _ _ _ Hex) as Hg. cbv zeta in Hg.
    destruct Hg as (_ & _ & _ & _ & _ & _ & Ec & _ & Ecur & _).
    apply settleEpoch_epochs in Hex. cbv zeta in Hex.
    destruct Hex as (Ee & _ & _ & Eb & _).
    rewrite Eb, Hinv. unfold settledTreasury. rewrite Ec.
    pose proof (hist_current _ Hh) as H1.
    replace (N.to_nat (currentEpoch (game w) + 1) - 1)%nat
      with (S (N.to_nat (currentEpoch (game w)) - 1))%nat by lia.
    rewrite seq_S, fmap_app, sumN_app. cbn [fmap list_fmap sumN foldr].
    replace (N.of_nat (1 + (N.to_nat (currentEpoch (game w)) - 1)))
      with (currentEpoch (game w)) by lia.
    rewrite Ecur. cbn [treasuryAmount markSettled]. rewrite N.add_0_r. f_equal.
    f_equal. apply list_fmap_ext. intros i k Hk.
    apply lookup_seq in Hk. destruct Hk as [-> Hi].
    rewrite (getEpoch_ext (game w) (game w')); [reflexivity|].
    rewrite Ee. rewrite !lookup_insert_ne by lia. reflexivity.
  - unfold setScoreSigner in Hex. destruct (negb _); [discriminate|].
    injection Hex as <-. apply Hsame; reflexivity.
  - unfold setFees in Hex. destruct (negb _); [discriminate|].
    injection Hex as <-. apply Hsame; reflexivity.
  - unfold setEpochDuration in Hex. destruct (negb _); [discriminate|].
    injection Hex as <-. apply Hsame; reflexivity.
  - unfold setTreasury in Hex. destruct (negb _); [discriminate|].
    injection Hex as <-. apply Hsame; reflexivity.
  - apply bind_Ok in Hex. destruct Hex as (t & _ & Hex). injection Hex as <-. exact Hinv.
  - apply bind_Ok in Hex. destruct Hex as (t & _ & Hex). injection Hex as <-. exact Hinv.
  - apply bind_Ok in Hex. destruct Hex as (t & _ & Hex). injection Hex as <-. exact Hinv.
  - apply bind_Ok in Hex. destruct Hex as (t & _ & Hex). injection Hex as <-. exact Hinv.
  - apply bind_Ok in Hex. destruct Hex as (t & _ & Hex). injection Hex as <-. exact Hinv.
  - apply bind_Ok in Hex. destruct Hex as (r & _ & Hex). injection Hex as <-. exact Hinv.
  - apply bind_Ok in Hex. destruct Hex as (r & _ & Hex). injection Hex as <-. exact Hinv.
  - apply bind_Ok in Hex. destruct Hex as (r & _ & Hex). injection Hex as <-. exact Hinv.
Qed.

(** X26. In every reachable world the game's [treasuryBalance] counter is
    the sum of the treasury shares of all epochs settled so far (every epoch
    before the current one); the share of the running epoch is not in it. *)
Theorem treasury_balance_is_settled_shares w :
  reachable w ->
  treasuryBalance (game w) = settledTreasury (game w).
Proof.
  induction 1 as [? ? ? ? ? ? w Hd | sender now c w w' Hreach IH Hex].
  - unfold deploy in Hd.
    apply bind_Ok in Hd. destruct Hd as (t & _ & Hd).
    apply bind_Ok in Hd. destruct Hd as (r & _ & Hd).
    apply startNewEpoch_Ok in Hd. cbv zeta in Hd. destruct Hd as (_ & _ & ->).
    reflexivity.
  - eapply exec_treasury; try eassumption.
    apply (ok2_history _ (reachable_ok2 w Hreach)).
Qed.

(** ** The rate limiter *)

Lemma substring_whole (s : string) : String.substring 0 (String.length s) s = s.
Proof.
  induction s as [|c s IH]; [reflexivity|].
  change (String c (String.substring 0 (String.length s) s) = String c s).
  now rewrite IH.
Qed.

Lemma substring_append (a b : string) :
  String.substring (String.length a) (String.length b) (String.append a b) = b.
Proof. induction a as [|c a IH]; [apply substring_whole | exact IH]. Qed.

Lemma includes_suffix (a b : string) : AgentApi.includes (String.append a b) b = true.
Proof.
  unfold AgentApi.includes.
  destruct (String.index 0 b (String.append a b)) as [n|] eqn:Hi; [reflexivity|].
  destruct b as [|c b].
  - destruct a; cbn in Hi; discriminate.
  - exfalso.
    apply (String.index_correct3 0 (String.length a)) in Hi; [|discriminate | lia].
    apply Hi, substring_append.
Qed.

Lemma string_append_assoc (a b c : string) :
  String.append (String.append a b) c = String.append a (String.append b c).
Proof.
  induction a as [|x a IH]; [reflexivity|].
  change (String x (String.append (String.append a b) c)
          = String x (String.append a (String.append b c))).
  now rewrite IH.
Qed.

Lemma string_length_append (a b : string) :
  String.length (String.append a b) = (String.length a + String.length b)%nat.
Proof.
  induction a as [|x a IH]; [reflexivity|].
  change (S (String.length (String.append a b))
          = S (String.length a + String.length b)).
  now rewrite IH.
Qed.

Lemma includes_rateKey ip window :
  AgentApi.includes (AgentApi.rateKey ip window) window = true.
Proof.
  unfold AgentApi.rateKey. rewrite <- string_append_assoc. apply includes_suffix.
Qed.

Lemma append_cancel_r (a b s : string) :
  String.append a s = String.append b s -> a = b.
Proof.
  revert b. induction a as [|c a IH]; intros [|d b] Heq.
  - reflexivity.
  - exfalso. apply (f_equal String.length) in Heq.
    change (String.length s = S (String.length (String.append b s))) in Heq.
    rewrite string_length_append in Heq. lia.
  - exfalso. apply (f_equal String.length) in Heq.
    change (S (String.length (String.append a s)) = String.length s) in Heq.
    rewrite string_length_append in Heq. lia.
  - change (String c (String.append a s) = String d (String.append b s)) in Heq.
    injection Heq as -> Heq. f_equal. apply IH, Heq.
Qed.

Lemma rateKey_inj ip ip' window :
  AgentApi.rateKey ip window = AgentApi.rateKey ip' window -> ip = ip'.
Proof. apply append_cancel_r. Qed.

Lemma mapGet_mapSet k k' v m :
  AgentApi.mapGet k (AgentApi.mapSet k' v m)
  = if String.eqb k' k then Some v else AgentApi.mapGet k m.
Proof.
  induction m as [|[k0 v0] m IH]; cbn [AgentApi.mapSet AgentApi.mapGet].
  - reflexivity.
  - destruct (String.eqb_spec k0 k') as [->|Hne]; cbn [AgentApi.mapGet].
    + destruct (String.eqb k' k); reflexivity.
    + destruct (String.eqb_spec k0 k) as [->|Hne'].
      * destruct (String.eqb_spec k' k); [congruence | reflexivity].
      * exact IH.
Qed.

Lemma mapGet_filter (P : string -> bool) k m :
  P k = true ->
  AgentApi.mapGet k (filter (fun kv => P kv.1 = true) m) = AgentApi.mapGet k m.
Proof.
  intros Hk. induction m as [|[k0 v0] m IH]; [reflexivity|].
  cbn [AgentApi.mapGet].
  destruct (P k0) eqn:Hk0.
  - rewrite filter_cons_True by exact Hk0. cbn [AgentApi.mapGet].
    destruct (String.eqb k0 k); [reflexivity | exact IH].
  - rewrite filter_cons_False by (cbn; congruence).
    destruct (String.eqb_spec k0 k) as [->|_]; [congruence | exact IH].
Qed.

(** One request: whether it passes, and what it does to every counter of
    its window. *)
Lemma rateLimit_step nowMs m ip limit windowMs :
  let window := AgentApi.numberToString (nowMs / windowMs) in
  let count := default 0 (AgentApi.mapGet (AgentApi.rateKey ip window) m) + 1 in
  (AgentApi.rateLimit nowMs m ip limit windowMs).1 = (count <=? limit)
  /\ forall ip',
       default 0 (AgentApi.mapGet (AgentApi.rateKey ip' window)
                    (AgentApi.rateLimit nowMs m ip limit windowMs).2)
       = default 0 (AgentApi.mapGet (AgentApi.rateKey ip' window) m)
         + (if String.eqb ip ip' then 1 else 0).
Proof.
  cbv zeta. unfold AgentApi.rateLimit. cbv zeta.
  set (window := AgentApi.numberToString (nowMs / windowMs)).
  set (count := default 0 (AgentApi.mapGet (AgentApi.rateKey ip window) m) + 1).
  assert (forall ip',
            default 0 (AgentApi.mapGet (AgentApi.rateKey ip' window)
                         (AgentApi.mapSet (AgentApi.rateKey ip window) count m))
            = default 0 (AgentApi.mapGet (AgentApi.rateKey ip' window) m)
              + (if String.eqb ip ip' then 1 else 0)) as Hset.
  { intros ip'. rewrite mapGet_mapSet.
    destruct (String.eqb_spec ip ip') as [->|Hne].
    - rewrite String.eqb_refl. reflexivity.
    - destruct (String.eqb_spec (AgentApi.rateKey ip window)
                                (AgentApi.rateKey ip' window)) as [Heq|_].
      + apply rateKey_inj in Heq. contradiction.
      + lia. }
  destruct (N.ltb_spec limit count) as [Hlt|Hge]; cbn [fst snd].
  - split; [symmetry; apply N.leb_gt; exact Hlt | exact Hset].
  - split; [symmetry; apply N.leb_le; exact Hge|].
    intros ip'. destruct (10000 <? _); [|apply Hset].
    rewrite (mapGet_filter (fun k => AgentApi.includes k window))
      by apply includes_rateKey.
    apply Hset.
Qed.

Lemma requestsFrom_cons ip ip0 now0 rest :
  AgentApi.requestsFrom ip ((ip0, now0) :: rest)
  = (if String.eqb ip0 ip then 1 else 0) + AgentApi.requestsFrom ip rest.
Proof.
  unfold AgentApi.requestsFrom. cbn [List.filter fst].
  destruct (String.eqb ip0 ip); cbn [length]; lia.
Qed.

(** X27. The rate limiter lets each address through [limit] times per
    window. For requests that all fall into one window, the i-th request
    passes exactly when the requests made so far from the same address
    (rejected ones included, and those counted in the table before) number at
    most [limit], however the requests of different addresses interleave
    and whether or not the cleanup of old keys runs in between. *)
Theorem rate_limit_per_window limit windowMs window requests rateLimits i ip nowMs :
  0 < windowMs ->
  Forall (fun rq => rq.2 / windowMs = window) requests ->
  requests !! i = Some (ip, nowMs) ->
  (AgentApi.rateLimitAll limit windowMs requests rateLimits).1 !! i
  = Some (default 0 (AgentApi.mapGet
                       (AgentApi.rateKey ip (AgentApi.numberToString window))
                       rateLimits)
          + AgentApi.requestsFrom ip (take (S i) requests) <=? limit).
Proof.
  intros _ Hall. revert rateLimits i.
  induction requests as [|[ip0 now0] rest IH]; intros m i Hi; [discriminate|].
  apply Forall_cons in Hall. destruct Hall as (Hw & Hrest). cbn [snd] in Hw.
  cbn [AgentApi.rateLimitAll].
  pose proof (rateLimit_step now0 m ip0 limit windowMs) as Hstep. cbv zeta in Hstep.
  rewrite Hw in Hstep. destruct Hstep as (Hok & Hcount).
  destruct (AgentApi.rateLimit now0 m ip0 limit windowMs) as [ok m1]. cbn [fst snd] in *.
  specialize (IH Hrest m1).
  destruct (AgentApi.rateLimitAll limit windowMs rest m1) as [oks m2]. cbn [fst] in *.
  destruct i as [|i].
  - injection Hi as -> ->. cbn [lookup list_lookup]. f_equal. rewrite Hok.
    cbn [take]. rewrite requestsFrom_cons, String.eqb_refl.
    unfold AgentApi.requestsFrom. cbn. reflexivity.
  - change (oks !! i
            = Some (default 0 (AgentApi.mapGet
                                 (AgentApi.rateKey ip (AgentApi.numberToString window))
                                 m)
                    + AgentApi.requestsFrom ip (take (S (S i)) ((ip0, now0) :: rest))
                    <=? limit)).
    change (rest !! i = Some (ip, nowMs)) in Hi.
    rewrite (IH i Hi), Hcount. f_equal. f_equal.
    change (take (S (S i)) ((ip0, now0) :: rest))
      with ((ip0, now0) :: take (S i) rest).
    rewrite requestsFrom_cons. lia.
Qed.

(** ** When settlement goes through *)

Lemma mint_twice self t a b amount :
  self = DugToken.gameContract t ->
  DugToken.totalSupply t + amount + amount <= DugToken.MAX_SUPPLY ->
  a <> 0 -> b <> 0 ->
  exists t1 t2,
    DugToken.mint self t a amount = Ok t1
    /\ DugToken.mint self t1 b amount = Ok t2.
Proof.
  intros Hg Hcap Ha Hb.
  eexists. eexists. split.
  - apply mint_succeeds; [exact Hg | lia | exact Ha].
  - apply mint_succeeds; cbn [DugToken.gameContract DugToken.totalSupply];
      [exact Hg | lia | exact Hb].
Qed.

Lemma mint_twice_Ok self t a b amount t1 t2 :
  DugToken.mint self t a amount = Ok t1 ->
  DugToken.mint self t1 b amount = Ok t2 ->
  self = DugToken.gameContract t
  /\ DugToken.totalSupply t + amount + amount <= DugToken.MAX_SUPPLY.
Proof.
  intros H1 H2. apply mint_Ok in H1, H2.
  destruct H1 as (Hg & _ & _ & ->), H2 as (_ & Hcap & _).
  cbn [DugToken.totalSupply] in Hcap. auto.
Qed.

Lemma settlePrizes_succeeds self e t :
  (mintsPrize e = true ->
   self = DugToken.gameContract t
   /\ DugToken.totalSupply t + prizesMinted e <= DugToken.MAX_SUPPLY) ->
  exists r, settlePrizes self e t = Ok r.
Proof.
  unfold settlePrizes, prizesMinted, mintsPrize.
  destruct (N.ltb_spec 0 (prizePool e)) as [Hpos|_]; [|eauto].
  cbv zeta.
  destruct (N.eqb_spec (humanWinner e) 0) as [Hh|Hh];
    destruct (N.eqb_spec (agentWinner e) 0) as [Ha|Ha];
    cbn [negb andb bind fst snd]; intros Hc.
  - eauto.
  - destruct (Hc eq_refl) as (Hg & Hcap).
    destruct (mint_twice self t (agentWinner e) (agentWinner e) (prizePool e / 2))
      as (t1 & t2 & H1 & H2); try assumption; [lia|].
    rewrite H1. cbn [bind fst snd]. rewrite H2. cbn [bind fst snd]. eauto.
  - destruct (Hc eq_refl) as (Hg & Hcap).
    destruct (mint_twice self t (humanWinner e) (humanWinner e) (prizePool e / 2))
      as (t1 & t2 & H1 & H2); try assumption; [lia|].
    rewrite H1. cbn [bind fst snd]. rewrite H2. cbn [bind fst snd]. eauto.
  - destruct (Hc eq_refl) as (Hg & Hcap).
    destruct (mint_twice self t (humanWinner e) (agentWinner e) (prizePool e / 2))
      as (t1 & t2 & H1 & H2); try assumption; [lia|].
    rewrite H1. cbn [bind fst snd]. rewrite H2. cbn [bind fst snd]. eauto.
Qed.

Lemma settlePrizes_needs self e t r :
  settlePrizes self e t = Ok r ->
  mintsPrize e = true ->
  self = DugToken.gameContract t
  /\ DugToken.totalSupply t + prizesMinted e <= DugToken.MAX_SUPPLY.
Proof.
  unfold settlePrizes, prizesMinted, mintsPrize.
  destruct (N.ltb_spec 0 (prizePool e)) as [Hpos|_]; [|discriminate].
  cbv zeta.
  destruct (N.eqb_spec (humanWinner e) 0) as [Hh|Hh];
    destruct (N.eqb_spec (agentWinner e) 0) as [Ha|Ha];
    cbn [negb andb bind fst snd]; intros Hs Hm; try discriminate.
  - apply bind_Ok in Hs. destruct Hs as ([ta pa] & H1 & Hs).
    apply bind_Ok in H1. destruct H1 as (t' & Hm1 & H1). injection H1 as <- <-.
    cbn [fst snd bind] in Hs.
    apply bind_Ok in Hs. destruct Hs as ([tb pb] & H2 & Hs).
    apply bind_Ok in H2. destruct H2 as (t'' & Hm2 & H2).
    destruct (mint_twice_Ok _ _ _ _ _ _ _ Hm1 Hm2) as (Hg & Hcap).
    split; [exact Hg | lia].
  - apply bind_Ok in Hs. destruct Hs as ([ta pa] & H1 & Hs).
    apply bind_Ok in H1. destruct H1 as (t' & Hm1 & H1). injection H1 as <- <-.
    cbn [fst snd bind] in Hs.
    apply bind_Ok in Hs. destruct Hs as ([tb pb] & H2 & Hs).
    apply bind_Ok in H2. destruct H2 as (t'' & Hm2 & H2).
    destruct (mint_twice_Ok _ _ _ _ _ _ _ Hm1 Hm2) as (Hg & Hcap).
    split; [exact Hg | lia].
  - apply bind_Ok in Hs. destruct Hs as ([ta pa] & H1 & Hs).
    apply bind_Ok in H1. destruct H1 as (t' & Hm1 & H1). injection H1 as <- <-.
    cbn [fst snd bind] in Hs.
    apply bind_Ok in Hs. destruct Hs as ([tb pb] & H2 & Hs).
    apply bind_Ok in H2. destruct H2 as (t'' & Hm2 & H2).
    destruct (mint_twice_Ok _ _ _ _ _ _ _ Hm1 Hm2) as (Hg & Hcap).
    split; [exact Hg | lia].
Qed.

(** X28. Exactly when a settlement goes through. [settleEpoch] succeeds
    at time [now] if and only if the epoch has ended and is unsettled, every
    mint it makes is made by the token's [gameContract] and keeps the supply
    under the cap (the burn share counts at the moment it is minted, although
    it is burnt at once), the burn share has a nonzero game address to go to,
    the treasury share a nonzero treasury, and the counters fit. In
    particular, while the treasury is the zero address an epoch that has
    collected a treasury share cannot be settled at any time. *)
Theorem settlement_succeeds_iff now w :
  ((exists w', settleEpoch now w = Ok w') <-> settleable now w)
  /\ (treasury (game w) = 0 ->
      0 < treasuryAmount (getEpoch (game w) (currentEpoch (game w))) ->
      forall now' w', settleEpoch now' w <> Ok w').
Proof.
  assert (forall now0, (exists w', settleEpoch now0 w = Ok w') -> settleable now0 w)
    as Hneeds.
  { intros now0 (w' & Hs). unfold settleable. cbv zeta.
    apply settleEpoch_Ok in Hs. cbv zeta in Hs.
    destruct Hs as (Hend & Hset & t1 & hp & ap & t2 & t3 & g2
                    & Hprz & Hburn & Htre & Hnew).
    set (e := getEpoch (game w) (currentEpoch (game w))) in *.
    pose proof (settlePrizes_result _ _ _ _ _ _ Hprz) as (S1 & G1 & _).
    split; [exact Hend|]. split; [exact Hset|].
    split; [intros Hm; eapply settlePrizes_needs; eassumption|].
    assert (DugToken.totalSupply t2 = DugToken.totalSupply t1
            /\ DugToken.gameContract t2 = DugToken.gameContract t1) as (S2 & G2).
    { destruct (0 <? burnAmount e); [|injection Hburn as <-; auto].
      apply bind_Ok in Hburn. destruct Hburn as (t' & Hm & Hb).
      apply mint_supply in Hm. destruct Hm as (Sm & Gm & _).
      apply burn_Ok in Hb. destruct Hb as (_ & ->).
      cbn [DugToken.totalSupply DugToken.gameContract]. rewrite Sm, Gm.
      split; [lia | reflexivity]. }
    split.
    { intros Hb. apply N.ltb_lt in Hb. rewrite Hb in Hburn.
      apply bind_Ok in Hburn. destruct Hburn as (t' & Hm & _).
      apply mint_Ok in Hm. destruct Hm as (Hg & Hcap & Hz & _).
      rewrite G1 in Hg. rewrite S1 in Hcap. auto. }
    split.
    { intros Ht. apply N.ltb_lt in Ht. rewrite Ht in Htre.
      apply bind_Ok in Htre. destruct Htre as (t' & Hm & Htre).
      apply bind_Ok in Htre. destruct Htre as (b & Hadd & _).
      apply mint_Ok in Hm. destruct Hm as (Hg & Hcap & Hz & _).
      apply checked_add_Ok in Hadd. destruct Hadd as (_ & Hfit).
      rewrite G2, G1 in Hg. rewrite S2, S1 in Hcap. auto. }
    assert (currentEpoch g2 = currentEpoch (game w)
            /\ epochDuration g2 = epochDuration (game w)) as (Ec & Ed).
    { destruct (0 <? treasuryAmount e); [|injection Htre as <- <-; auto].
      apply bind_Ok in Htre. destruct Htre as (t' & _ & Htre).
      apply bind_Ok in Htre. destruct Htre as (b & _ & Htre).
      injection Htre as <- <-. auto. }
    apply startNewEpoch_Ok in Hnew. cbv zeta in Hnew.
    cbn [game emit with_game with_dug] in Hnew. rewrite Ec, Ed in Hnew.
    destruct Hnew as (H1 & H2 & _). auto. }
  split; [split; [apply Hneeds|]|].
  - unfold settleable. cbv zeta.
    intros (Hend & Hset & Hprz & Hburn & Htre & Hcur & Hdur).
    unfold settleEpoch. cbv zeta.
    set (e := getEpoch (game w) (currentEpoch (game w))) in *.
    apply N.leb_le in Hend. rewrite Hend, Hset. cbn [negb]. rewrite !require_true.
    cbn [bind].
    destruct (settlePrizes_succeeds (this w) e (dug w) Hprz) as ([[t1 hp] ap] & Hp).
    rewrite Hp. cbn [bind].
    pose proof (settlePrizes_result _ _ _ _ _ _ Hp) as (S1 & G1 & _).
    assert (exists t2,
              (if 0 <? burnAmount e
               then do t' <- DugToken.mint (this w) t1 (this w) (burnAmount e);
                    DugToken.burn (this w) t' (burnAmount e)
               else Ok t1) = Ok t2
              /\ DugToken.totalSupply t2 = DugToken.totalSupply t1
              /\ DugToken.gameContract t2 = DugToken.gameContract t1)
      as (t2 & Hb & S2 & G2).
    { destruct (N.ltb_spec 0 (burnAmount e)) as [Hpos|_]; [|eauto].
      destruct (Hburn Hpos) as (Hg & Hz & Hcap).
      rewrite (mint_succeeds _ _ _ _ (eq_trans Hg (eq_sym G1))) by (try assumption; lia).
      cbn [bind]. unfold DugToken.burn.
      apply N.eqb_neq in Hz. rewrite Hz.
      unfold DugToken.balanceOf at 1. cbn [DugToken.balances].
      rewrite lookup_insert_eq, default_Some.
      destruct (N.ltb_spec (DugToken.balanceOf t1 (this w) + burnAmount e)
                           (burnAmount e)); [lia|].
      eexists. split; [reflexivity|].
      cbn [DugToken.totalSupply DugToken.gameContract]. split; [lia | reflexivity]. }
    rewrite Hb. cbn [bind].
    assert (exists t3 g2,
              (if 0 <? treasuryAmount e
               then
                 do t' <- DugToken.mint (this w) t2
                            (treasury (setEpoch (game w) (currentEpoch (game w))
                               (mkEpoch (id e) (startTime e) (endTime e) (prizePool e)
                                  (burnAmount e) (treasuryAmount e) true
                                  (humanWinner e) (agentWinner e)
                                  (humanTopScore e) (agentTopScore e))))
                            (treasuryAmount e);
                 do b <- checked_add
                           (treasuryBalance
                              (setEpoch (game w) (currentEpoch (game w))
                                 (mkEpoch (id e) (startTime e) (endTime e) (prizePool e)
                                    (burnAmount e) (treasuryAmount e) true
                                    (humanWinner e) (agentWinner e)
                                    (humanTopScore e) (agentTopScore e))))
                           (treasuryAmount e);
                 Ok (t', setTreasuryBalance
                           (setEpoch (game w) (currentEpoch (game w))
                              (mkEpoch (id e) (startTime e) (endTime e) (prizePool e)
                                 (burnAmount e) (treasuryAmount e) true
                                 (humanWinner e) (agentWinner e)
                                 (humanTopScore e) (agentTopScore e))) b)
               else Ok (t2, setEpoch (game w) (currentEpoch (game w))
                              (mkEpoch (id e) (startTime e) (endTime e) (prizePool e)
                                 (burnAmount e) (treasuryAmount e) true
                                 (humanWinner e) (agentWinner e)
                                 (humanTopScore e) (agentTopScore e))))
              = Ok (t3, g2)
              /\ currentEpoch g2 = currentEpoch (game w)
              /\ epochDuration g2 = epochDuration (game w))
      as (t3 & g2 & Ht & Ec & Ed).
    { destruct (N.ltb_spec 0 (treasuryAmount e)) as [Hpos|_].
      2:{ eexists. eexists. split; [reflexivity|]. split; reflexivity. }
      destruct (Htre Hpos) as (Hg & Hz & Hcap & Hfit).
      change (treasury (setEpoch (game w) (currentEpoch (game w)) _))
        with (treasury (game w)).
      change (treasuryBalance (setEpoch (game w) (currentEpoch (game w)) _))
        with (treasuryBalance (game w)).
      rewrite (mint_succeeds _ _ _ _ (eq_trans Hg (eq_trans (eq_sym G1) (eq_sym G2))))
        by (try assumption; lia).
      cbn [bind]. rewrite (checked_add_fits _ _ Hfit). cbn [bind].
      eexists. eexists. split; [reflexivity|]. split; reflexivity. }
    rewrite Ht. cbn [bind fst snd].
    rewrite startNewEpoch_succeeds;
      cbn [game emit with_game with_dug]; rewrite ?Ec, ?Ed; try assumption.
    eauto.
  - intros Hz Hpos now' w' Hs.
    assert (settleable now' w) as Hok by (apply Hneeds; eauto).
    unfold settleable in Hok. cbv zeta in Hok.
    destruct Hok as (_ & _ & _ & _ & Ht & _).
    destruct (Ht Hpos) as (_ & Hnz & _). contradiction.
Qed.

(** X29. What a settlement never touches: both leaderboards and their
    counts, the registry of consumed sessions, the agent registry and the
    game's settings are after a successful [settleEpoch] exactly what they
    were before; only the epochs, the epoch counter, the treasury counter,
    the token and the event log change. *)
Theorem settlement_leaves_boards now w w' :
  settleEpoch now w = Ok w' ->
  humanLeaderboard (game w') = humanLeaderboard (game w)
  /\ agentLeaderboard (game w') = agentLeaderboard (game w)
  /\ humanLBCount (game w') = humanLBCount (game w)
  /\ agentLBCount (game w') = agentLBCount (game w)
  /\ usedSessions (game w') = usedSessions (game w)
  /\ registry w' = registry w
  /\ config (game w') = config (game w)
  /\ this w' = this w.
Proof.
  intros Hs.
  pose proof (settleEpoch_game _ _ _ Hs) as Hg. cbv zeta in Hg.
  destruct Hg as (Eu & Eh & Ea & Ehc & Eac & Ed & _ & _ & _ & Et & _).
  apply settleEpoch_epochs in Hs. cbv zeta in Hs.
  destruct Hs as (_ & _ & Er & _ & E1 & E2 & E3 & E4 & E5).
  repeat split; try assumption. unfold config. congruence.
Qed.

(** ** The tolerant entry fee *)

(** C8. When the submitter's allowance to the game is below the entry fee
    of their category, [submitScore] skips the fee step and still does the
    rest. No fee is transferred: the pools of the current epoch are not
    incremented, no allowance is spent, and the only change to the token is
    the gameplay reward, by which the supply and the submitter's balance
    grow while every other balance stays. The score is inserted in the
    category's leaderboard: in a reachable world the new entry stands at
    the first slot whose score it exceeds (or at the first free slot), the
    entries from there on move down one slot and the last is dropped, and
    only a full board whose every score is at least the new one is left as
    it is. The epoch's top score and winner are updated. The call succeeds
    whenever its other steps do (a fresh, validly signed, unconsumed
    session; the game owning the registry; the reward within the supply
    cap), so a low allowance never makes it fail. *)
Theorem fee_skipped_on_low_allowance sender now w sc rd kl sid sAt sig :
  DugToken.allowance (dug w) sender (this w) < entryFee w sender ->
  let a := isAgentOf w sender in
  let g := game w in
  let e := getEpoch g (currentEpoch g) in
  let lb := boardOf g a in
  let count := countOf g a in
  let reward := rewardAmount kl rd in
  let call := submitScore sender now w sc rd kl sid sAt sig in
  let profile := AgentRegistry.getProfile (registry w) sender in
  (forall w',
      call = Ok w' ->
      let e' := getEpoch (game w') (currentEpoch (game w')) in
      prizePool e' = prizePool e
      /\ burnAmount e' = burnAmount e
      /\ treasuryAmount e' = treasuryAmount e
      /\ DugToken.totalSupply (dug w') = DugToken.totalSupply (dug w) + reward
      /\ (forall x, DugToken.balanceOf (dug w') x
                    = if x =? sender then DugToken.balanceOf (dug w) sender + reward
                      else DugToken.balanceOf (dug w) x)
      /\ DugToken.allowances (dug w') = DugToken.allowances (dug w)
      /\ DugToken.gameContract (dug w') = DugToken.gameContract (dug w)
      /\ DugToken.owner (dug w') = DugToken.owner (dug w)
      /\ ((reward = 0 /\ dug w' = dug w)
          \/ (0 < reward
              /\ DugToken.mint (this w) (dug w) sender reward = Ok (dug w')))
      /\ boardOf (game w') a
         = fst (_updateLeaderboard now lb count sender sc rd kl a sid)
      /\ agentTopScore e'
         = (if a && (agentTopScore e <? sc) then sc else agentTopScore e)
      /\ agentWinner e'
         = (if a && (agentTopScore e <? sc) then sender else agentWinner e)
      /\ humanTopScore e'
         = (if negb a && (humanTopScore e <? sc) then sc else humanTopScore e)
      /\ humanWinner e'
         = (if negb a && (humanTopScore e <? sc) then sender else humanWinner e))
  /\ (reachable w ->
      forall w',
        call = Ok w' ->
        countOf (game w') a = N.min (count + 1) LB_SIZE
        /\ boardOf (game w') (negb a) = boardOf g (negb a)
        /\ countOf (game w') (negb a) = countOf g (negb a)
        /\ ((exists k,
               (k <= N.to_nat count)%nat /\ (k < N.to_nat LB_SIZE)%nat
               /\ (forall x, (x < k)%nat -> sc <= score (lbAt lb x))
               /\ ((k < N.to_nat count)%nat -> score (lbAt lb k) < sc)
               /\ boardOf (game w') a
                  = take k lb ++ entryOf sender now sc rd kl a sid
                      :: take (N.to_nat LB_SIZE - 1 - k) (drop k lb))
            \/ (count = LB_SIZE
                /\ (forall x, (x < N.to_nat LB_SIZE)%nat -> sc <= score (lbAt lb x))
                /\ boardOf (game w') a = lb)))
  /\ (sessionUsed g sid = false ->
      now <= sAt + 300 -> sAt + 300 <= MAX_UINT256 ->
      recover (toEthSignedMessageHash
         (keccak256_packed sender sc rd kl sid sAt (chainid w))) sig
      = Ok (scoreSigner g) ->
      this w = AgentRegistry.owner (registry w) ->
      AgentRegistry.gamesPlayed profile + 1 <= MAX_UINT256 ->
      AgentRegistry.totalScore profile + sc <= MAX_UINT256 ->
      (reward = 0
       \/ (DugToken.gameContract (dug w) = this w /\ sender <> 0
           /\ DugToken.totalSupply (dug w) + reward <= DugToken.MAX_SUPPLY)) ->
      exists w', call = Ok w').
Proof.
  intros Hlow. cbv zeta.
  pose proof (low_allowance_frame sender now w sc rd kl sid sAt sig Hlow) as Hfr.
  cbv zeta in Hfr. destruct Hfr as [Hfr Hsucc].
  split; [|split; [|exact Hsucc]].
  - intros w' Hs.
    destruct (Hfr w' Hs) as (P1 & P2 & P3 & Hm & Hb & T1 & T2 & T3 & T4).
    pose proof (submitScore_supply _ _ _ _ _ _ _ _ _ _ Hs) as Hsup.
    apply proj1 in Hsup.
    split; [exact P1|]. split; [exact P2|]. split; [exact P3|].
    split; [exact Hsup|].
    split; [|split; [|split; [|split; [|split; [exact Hm|]]]]].
    + intros x. destruct Hm as [[Hz ->] | [_ Hm]].
      * rewrite Hz, N.add_0_r. destruct (N.eqb_spec x sender) as [->|_]; reflexivity.
      * apply (mint_balanceOf _ _ _ _ _ x Hm).
    + destruct Hm as [[_ ->] | [_ Hm]]; [reflexivity|].
      apply (mint_allowances _ _ _ _ _ Hm).
    + destruct Hm as [[_ ->] | [_ Hm]]; [reflexivity|].
      apply mint_Ok in Hm. destruct Hm as (_ & _ & _ & ->). reflexivity.
    + destruct Hm as [[_ ->] | [_ Hm]]; [reflexivity|].
      apply mint_Ok in Hm. destruct Hm as (_ & _ & _ & ->). reflexivity.
    + split; [exact Hb|]. split; [exact T1|]. split; [exact T2|].
      split; [exact T3 | exact T4].
  - intros Hr w' Hs.
    pose proof (worldOk_board w (isAgentOf w sender) (reachable_ok w Hr)) as Hok.
    pose proof (board_count _ _ _ Hok) as Hc.
    apply submitScore_game in Hs. cbv zeta in Hs.
    destruct Hs as (_ & _ & _ & _ & Eb & Ec & Eb' & Ec' & _).
    split.
    { rewrite Ec.
      destruct (N.ltb_spec (countOf (game w) (isAgentOf w sender)) LB_SIZE); lia. }
    split; [exact Eb'|]. split; [exact Ec'|].
    rewrite Eb, updateLeaderboard_insertAtOf.
    pose proof (insertAtOf_spec (boardOf (game w) (isAgentOf w sender)) _ sc Hc)
      as Hspec.
    destruct (insertAtOf _ _ sc) as [k|]; cbn [fst].
    + left. exists k. destruct Hspec as (H1 & H2 & H3 & H4).
      split; [exact H1|]. split; [exact H2|]. split; [exact H3|].
      split; [exact H4|]. apply inserted_list; [apply Hok | exact H2].
    + right. destruct Hspec as (H1 & H2). split; [exact H1|].
      split; [exact H2 | reflexivity].
Qed.

End Properties.

(** * Concrete runs *)

#[local] Existing Instance sampleScheme.

Lemma deployed_reachable : reachable deployed.
Proof.
  apply (reachable_deploy 1 100 8453 0 7 9). vm_compute. reflexivity.
Qed.

Lemma wired_reachable : reachable wired.
Proof. apply runAll_reachable, deployed_reachable. Qed.

Lemma playedOnce_reachable : reachable playedOnce.
Proof. apply runAll_reachable, wired_reachable. Qed.

Lemma oddPool_reachable : reachable oddPool.
Proof. apply runAll_reachable, playedOnce_reachable. Qed.

Lemma supplyFull_reachable : reachable supplyFull.
Proof. apply runAll_reachable, wired_reachable. Qed.

Lemma fullBoard_reachable : reachable fullBoard.
Proof. apply runAll_reachable, wired_reachable. Qed.

(** C1. The sample world [oddPool] is reachable; its current epoch holds a
    prize pool of 3 units (one agent submission with the agent fee set to
    5 units), the agent at address 50 is the only winner. Settling at time
    86401 succeeds and reports a prize of 3 for the agent in
    [EpochSettled], but the agent's balance grows by 2 units only: the
    half-pool [3 / 2 = 1] is minted twice. *)
Theorem sole_winner_odd_pool_underpaid :
  let e := getEpoch (game oddPool) (currentEpoch (game oddPool)) in
  let w' := fst (run 60 86401 SettleEpoch oddPool) in
  reachable oddPool
  /\ prizePool e = 3 /\ humanWinner e = 0 /\ agentWinner e = 50
  /\ snd (run 60 86401 SettleEpoch oddPool) = None
  /\ events w' = events oddPool ++ [EpochSettled 1 0 0 50 3; EpochStarted 2 86401 172801]
  /\ DugToken.balanceOf (dug w') 50 = DugToken.balanceOf (dug oddPool) 50 + 2.
Proof.
  cbv zeta. split; [apply oddPool_reachable|].
  split; [vm_compute; reflexivity|]. split; [vm_compute; reflexivity|].
  split; [vm_compute; reflexivity|]. split; [vm_compute; reflexivity|].
  split; vm_compute; reflexivity.
Qed.



(** C3 as stated fails on a concrete fee. A fee of 5 units adds 3, 0 and 1 units to the three
    pools: 4 units in all, one less than the fee. *)
Lemma fee_of_five_loses_a_unit :
  exists g',
    _distributeEntryFee (game deployed) 5 = Ok g'
    /\ poolSum (getEpoch (game deployed) 1) = 0
    /\ prizePool (getEpoch g' 1) = 3
    /\ burnAmount (getEpoch g' 1) = 0
    /\ treasuryAmount (getEpoch g' 1) = 1
    /\ poolSum (getEpoch g' 1) <> poolSum (getEpoch (game deployed) 1) + 5.
Proof.
  eexists. split; [vm_compute; reflexivity|].
  split; [vm_compute; reflexivity|]. split; [vm_compute; reflexivity|].
  split; [vm_compute; reflexivity|]. split; [vm_compute; reflexivity|].
  vm_compute. discriminate.
Qed.

Lemma fee_split_accounting_witness :
  exists g5 g15,
    _distributeEntryFee (game deployed) 5 = Ok g5
    /\ distributeAll (game deployed) [10; 5] = Ok g15
    /\ poolSum (getEpoch g5 (currentEpoch g5)) + splitDust 5
       = poolSum (getEpoch (game deployed) (currentEpoch (game deployed))) + 5
    /\ poolSum (getEpoch g15 (currentEpoch g15)) + sumN (splitDust <$> [10; 5])
       = poolSum (getEpoch (game deployed) (currentEpoch (game deployed)))
         + sumN [10; 5].
Proof.
  eexists. eexists.
  split; [vm_compute; reflexivity|]. split; [vm_compute; reflexivity|].
  split.
  - apply (proj1 fee_split_accounting (game deployed) 5). vm_compute. reflexivity.
  - apply (proj2 fee_split_accounting (game deployed) [10; 5]). vm_compute. reflexivity.
Defined.



(** C5 on a concrete run: the full agent board of [fullBoard] and a twenty-first
    game with the same score 50, which is discarded. *)
Lemma leaderboards_stay_ordered_witness :
  exists w21,
    reachable fullBoard
    /\ submitScore 50 10 fullBoard 50 0 0 2000 10 signedBy7 = Ok w21
    /\ NoDup (sessionId <$> occupied (boardOf (game fullBoard) true)
                              (countOf (game fullBoard) true))
    /\ boardOf (game w21) (isAgentOf fullBoard 50)
       = boardOf (game fullBoard) (isAgentOf fullBoard 50).
Proof.
  destruct (submitScore 50 10 fullBoard 50 0 0 2000 10 signedBy7) as [w21|f] eqn:Hs;
    [|vm_compute in Hs; discriminate Hs].
  exists w21. split; [apply fullBoard_reachable|]. split; [reflexivity|]. split.
  - apply (proj1 leaderboards_stay_ordered fullBoard true fullBoard_reachable).
  - apply (proj1 (proj2 leaderboards_stay_ordered)
             fullBoard 50 10 50 0 0 2000 10 signedBy7 w21 fullBoard_reachable Hs).
    + vm_compute. reflexivity.
    + intros i Hi.
      do 20 (destruct i as [|i]; [vm_compute; discriminate|]).
      vm_compute in Hi. lia.
Defined.

(** C6 on a concrete run: the agent's first game, a settlement attempt that reverts,
    and the same payload submitted again. *)
Lemma replayed_session_rejected_witness :
  submitScore 50 10 wired 100 0 3 1000 10 signedBy7 = Ok playedOnce
  /\ (let w2 := runAll [(60, 15, SettleEpoch)] playedOnce in
      run 50 20 (SubmitScore 100 0 3 1000 10 signedBy7) w2
      = (w2, Some ReplayedSession)).
Proof.
  assert (submitScore 50 10 wired 100 0 3 1000 10 signedBy7 = Ok playedOnce) as Hs
    by (vm_compute; reflexivity).
  split; [exact Hs|].
  exact (replayed_session_rejected 50 10 wired 100 0 3 1000 10 signedBy7 playedOnce
           Hs [(60, 15, SettleEpoch)] 50 20 100 0 3 10 signedBy7).
Defined.

(** C7 on a concrete run: in [supplyFull] the whole supply is minted; a further game
    with a single kill would mint 2 more units of 10^18. *)
Lemma supply_cap_enforced_witness :
  exists w1,
    reachable supplyFull
    /\ DugToken.totalSupply (dug supplyFull) = DugToken.MAX_SUPPLY
    /\ verifySubmission 50 20 supplyFull 10 0 1 1001 20 signedBy7 = Ok tt
    /\ enterSubmission 50 supplyFull 10 1001 = Ok w1
    /\ run 50 20 (SubmitScore 10 0 1 1001 20 signedBy7) supplyFull
       = (supplyFull, Some SupplyExceeded).
Proof.
  destruct (enterSubmission 50 supplyFull 10 1001) as [w1|f] eqn:He;
    [|vm_compute in He; discriminate He].
  assert (verifySubmission 50 20 supplyFull 10 0 1 1001 20 signedBy7 = Ok tt) as Hv
    by (vm_compute; reflexivity).
  assert (DugToken.MAX_SUPPLY
          < DugToken.totalSupply (dug supplyFull) + rewardAmount 1 0) as Hover
    by (vm_compute; reflexivity).
  exists w1. split; [apply supplyFull_reachable|].
  split; [vm_compute; reflexivity|]. split; [exact Hv|]. split; [reflexivity|].
  destruct (proj2 supply_cap_enforced supplyFull 50 20 10 0 1 1001 20 signedBy7
              supplyFull_reachable Hover) as (_ & Hexact & _).
  apply (Hexact w1 Hv He).
  - vm_compute. reflexivity.
  - vm_compute. discriminate.
Defined.

(** C8 on a concrete run: in [wired] the agent has approved nothing, and
    plays: the pool stays, the reward is minted to the agent and the entry
    heads the agent board. *)
Lemma fee_skipped_on_low_allowance_witness :
  DugToken.allowance (dug wired) 50 (this wired) < entryFee wired 50
  /\ submitScore 50 10 wired 100 0 3 1000 10 signedBy7 = Ok playedOnce
  /\ prizePool (getEpoch (game playedOnce) (currentEpoch (game playedOnce)))
     = prizePool (getEpoch (game wired) (currentEpoch (game wired)))
  /\ DugToken.balanceOf (dug playedOnce) 50
     = DugToken.balanceOf (dug wired) 50 + rewardAmount 3 0
  /\ countOf (game playedOnce) true = 1
  /\ exists w', submitScore 50 10 wired 100 0 3 1000 10 signedBy7 = Ok w'.
Proof.
  assert (DugToken.allowance (dug wired) 50 (this wired) < entryFee wired 50) as Hlow
    by (vm_compute; reflexivity).
  assert (submitScore 50 10 wired 100 0 3 1000 10 signedBy7 = Ok playedOnce) as Hs
    by (vm_compute; reflexivity).
  pose proof (fee_skipped_on_low_allowance 50 10 wired 100 0 3 1000 10 signedBy7 Hlow)
    as Hfee.
  cbv zeta in Hfee. destruct Hfee as (Hframe & Hboard & Hsucc).
  split; [exact Hlow|]. split; [exact Hs|].
  destruct (Hframe playedOnce Hs) as (Hpool & _ & _ & _ & Hbal & _).
  split; [exact Hpool|].
  split; [exact (Hbal 50)|].
  split.
  - destruct (Hboard wired_reachable playedOnce Hs) as (Hcount & _).
    assert (isAgentOf wired 50 = true) as Ha by (vm_compute; reflexivity).
    rewrite Ha in Hcount. rewrite Hcount. vm_compute. reflexivity.
  - apply Hsucc.
    + vm_compute. reflexivity.
    + vm_compute. discriminate.
    + vm_compute. discriminate.
    + vm_compute. reflexivity.
    + vm_compute. reflexivity.
    + vm_compute. discriminate.
    + vm_compute. discriminate.
    + right. split; [vm_compute; reflexivity|].
      split; [discriminate|]. vm_compute. discriminate.
Defined.

(** C9 as stated fails on a concrete run. In [playedOnce] session 1000 is consumed. The same
    validly signed payload, signed at time 10 and submitted again at time
    311 (301 seconds later), fails with [ReplayedSession], not with
    [ExpiredSignature]. *)
Lemma expired_replay_is_replayed_session :
  recover (toEthSignedMessageHash
     (keccak256_packed 50 100 0 3 1000 10 (chainid playedOnce))) signedBy7
  = Ok (scoreSigner (game playedOnce))
  /\ 10 + 300 < 311
  /\ submitScore 50 311 playedOnce 100 0 3 1000 10 signedBy7 = Err ReplayedSession
  /\ submitScore 50 311 playedOnce 100 0 3 1000 10 signedBy7 <> Err ExpiredSignature.
Proof.
  split; [vm_compute; reflexivity|]. split; [lia|].
  split; [vm_compute; reflexivity|]. vm_compute. discriminate.
Qed.

Lemma freshness_window_witness :
  sessionUsed (game playedOnce) 1001 = false
  /\ submitScore 50 311 playedOnce 100 0 3 1001 10 signedBy7 = Err ExpiredSignature
  /\ verifySubmission 50 309 playedOnce 100 0 3 1001 10 signedBy7 = Ok tt.
Proof.
  split; [vm_compute; reflexivity|]. split.
  - apply (freshness_window 50 311 playedOnce 100 0 3 1001 10 signedBy7).
    + vm_compute. reflexivity.
    + vm_compute. reflexivity.
    + vm_compute. discriminate.
    + reflexivity.
  - apply (freshness_window 50 309 playedOnce 100 0 3 1001 10 signedBy7).
    + vm_compute. reflexivity.
    + vm_compute. reflexivity.
    + vm_compute. discriminate.
    + reflexivity.
    + vm_compute. reflexivity.
Defined.

(** C10 as stated fails on a concrete run. In [hugeDuration] the owner has set the epoch
    duration to 2^256 - 1 and nobody has played: the world is reachable, the
    first epoch has ended at time 86400 and is not settled, and its three
    pools are zero. [settleEpoch] at time 86400 does not succeed: the end
    time of the next epoch, 86400 + (2^256 - 1), does not fit in a
    [uint256] and the checked addition of [_startNewEpoch] panics. *)
Lemma empty_epoch_panics_on_huge_duration :
  reachable hugeDuration
  /\ endTime (getEpoch (game hugeDuration) (currentEpoch (game hugeDuration))) <= 86400
  /\ settled (getEpoch (game hugeDuration) (currentEpoch (game hugeDuration))) = false
  /\ prizePool (getEpoch (game hugeDuration) (currentEpoch (game hugeDuration))) = 0
  /\ burnAmount (getEpoch (game hugeDuration) (currentEpoch (game hugeDuration))) = 0
  /\ treasuryAmount (getEpoch (game hugeDuration) (currentEpoch (game hugeDuration)))
     = 0
  /\ settleEpoch 86400 hugeDuration = Err Panic
  /\ (forall w', settleEpoch 86400 hugeDuration <> Ok w').
Proof.
  assert (settleEpoch 86400 hugeDuration = Err Panic) as Hs
    by (vm_compute; reflexivity).
  split; [apply runAll_reachable, deployed_reachable|].
  split; [vm_compute; discriminate|]. split; [vm_compute; reflexivity|].
  split; [vm_compute; reflexivity|]. split; [vm_compute; reflexivity|].
  split; [vm_compute; reflexivity|]. split; [exact Hs|].
  intros w' Hok. rewrite Hs in Hok. discriminate Hok.
Qed.

(** C10 on concrete runs: the first epoch of the sample deployment, in which nobody
    has played, settled at its end time; and the same call in
    [hugeDuration], which reverts. *)
Lemma empty_epoch_settles_witness :
  reachable deployed
  /\ (exists w',
        settleEpoch 86400 deployed = Ok w'
        /\ dug w' = dug deployed
        /\ events w' = events deployed ++
             [EpochSettled 1 0 0 0 0; EpochStarted 2 86400 172800])
  /\ run 60 86400 SettleEpoch hugeDuration = (hugeDuration, Some Panic).
Proof.
  split; [apply deployed_reachable|]. split.
  - destruct (empty_epoch_settles 86400 deployed deployed_reachable)
      as [Hok _].
    + vm_compute. discriminate.
    + vm_compute. reflexivity.
    + vm_compute. reflexivity.
    + vm_compute. reflexivity.
    + destruct Hok as (w' & Hs & Hd & He & _).
      * vm_compute. discriminate.
      * vm_compute. discriminate.
      * exists w'. split; [exact Hs|]. split; [exact Hd|].
        rewrite He. vm_compute. reflexivity.
  - destruct (empty_epoch_settles 86400 hugeDuration
                (runAll_reachable _ _ deployed_reachable)) as [_ Hfail].
    + vm_compute. discriminate.
    + vm_compute. reflexivity.
    + vm_compute. reflexivity.
    + vm_compute. reflexivity.
    + apply Hfail. right. vm_compute. reflexivity.
Defined.

(** ** Further concrete runs *)


Lemma settledOnce_reachable : reachable settledOnce.
Proof. apply runAll_reachable, deployed_reachable. Qed.

Lemma feeReady_reachable : reachable feeReady.
Proof. apply runAll_reachable, playedOnce_reachable. Qed.

Lemma bothWinners_reachable : reachable bothWinners.
Proof. apply runAll_reachable, oddPool_reachable. Qed.

Lemma approvedOnly_reachable : reachable approvedOnly.
Proof. apply runAll_reachable, wired_reachable. Qed.

Lemma twoAgents_reachable : reachable twoAgents.
Proof. apply runAll_reachable, wired_reachable. Qed.

(** X1 on a concrete run: after the first settlement the current epoch is 2,
    epoch 1 is settled and epoch 3 does not exist yet. *)
Lemma epoch_history_witness :
  reachable settledOnce
  /\ settled (getEpoch (game settledOnce) 1) = true
  /\ getEpoch (game settledOnce) 3 = zeroEpoch.
Proof.
  pose proof (epoch_history settledOnce settledOnce_reachable) as He.
  cbv zeta in He. destruct He as (_ & _ & _ & Hs & Hz).
  split; [exact settledOnce_reachable|]. split.
  - apply Hs. split; [vm_compute; discriminate | vm_compute; reflexivity].
  - apply Hz. right. vm_compute. reflexivity.
Defined.

(** X2 on a concrete run: a second settlement and a change of fees leave epoch 1 as it
    was. *)
Lemma past_epochs_frozen_witness :
  1 < currentEpoch (game settledOnce)
  /\ getEpoch (game (runAll [(60, 172800, SettleEpoch); (1, 172801, SetFees 1 1)]
                            settledOnce)) 1
     = getEpoch (game settledOnce) 1.
Proof.
  assert (1 < currentEpoch (game settledOnce)) as Hk by (vm_compute; reflexivity).
  split; [exact Hk|].
  exact (proj1 (past_epochs_frozen
                  [(60, 172800, SettleEpoch); (1, 172801, SetFees 1 1)]
                  settledOnce 1 Hk)).
Defined.

(** X3 on a concrete run: the agent's second game, with score 120 over a top score of
    100. *)
Lemma top_score_rule_witness :
  submitScore 50 13 feeReady 120 0 0 1001 13 signedBy7 = Ok oddPool
  /\ topScoreOf (getEpoch (game oddPool) (currentEpoch (game oddPool)))
                (isAgentOf feeReady 50)
     = N.max (topScoreOf (getEpoch (game feeReady) (currentEpoch (game feeReady)))
                         (isAgentOf feeReady 50)) 120.
Proof.
  assert (submitScore 50 13 feeReady 120 0 0 1001 13 signedBy7 = Ok oddPool) as Hs
    by (vm_compute; reflexivity).
  split; [exact Hs|].
  pose proof (top_score_rule 50 13 feeReady 120 0 0 1001 13 signedBy7 oddPool Hs) as Ht.
  cbv zeta in Ht. exact (proj1 Ht).
Defined.

(** X4 on a concrete run: the head of the human board of [bothWinners]. *)
Lemma boards_hold_their_category_witness :
  reachable bothWinners
  /\ (0 < N.to_nat (countOf (game bothWinners) false))%nat
  /\ isAgent (lbAt (boardOf (game bothWinners) false) 0) = false.
Proof.
  assert (0 < N.to_nat (countOf (game bothWinners) false))%nat as Hi
    by (vm_compute; lia).
  split; [exact bothWinners_reachable|]. split; [exact Hi|].
  exact (boards_hold_their_category bothWinners false 0%nat bothWinners_reachable Hi).
Defined.

(** X5 on a concrete run: the agent category of [bothWinners]. *)
Lemma epoch_top_score_on_board_witness :
  reachable bothWinners
  /\ topScoreOf (getEpoch (game bothWinners) (currentEpoch (game bothWinners))) true
     <= score (lbAt (boardOf (game bothWinners) true) 0).
Proof.
  split; [exact bothWinners_reachable|].
  exact (epoch_top_score_on_board bothWinners true bothWinners_reachable).
Defined.

(** X6 on a concrete run: the agent's paid game: 5 units move to the game contract. *)
Lemma submission_token_accounting_witness :
  50 <> this feeReady
  /\ submitScore 50 13 feeReady 120 0 0 1001 13 signedBy7 = Ok oddPool
  /\ DugToken.balanceOf (dug oddPool) (this feeReady)
     = DugToken.balanceOf (dug feeReady) (this feeReady) + feePaid feeReady 50.
Proof.
  assert (50 <> this feeReady) as Hne by (vm_compute; discriminate).
  assert (submitScore 50 13 feeReady 120 0 0 1001 13 signedBy7 = Ok oddPool) as Hs
    by (vm_compute; reflexivity).
  split; [exact Hne|]. split; [exact Hs|].
  destruct (submission_token_accounting 50 13 feeReady 120 0 0 1001 13 signedBy7
              oddPool Hne Hs) as (_ & _ & Hgame & _).
  exact Hgame.
Defined.

(** X7 on a concrete run: settling [bothWinners], whose pool of 3 units pays 1 unit to
    each winner. *)
Lemma settlement_token_accounting_witness :
  exists w',
    settleEpoch 86401 bothWinners = Ok w'
    /\ DugToken.totalSupply (dug w')
       = DugToken.totalSupply (dug bothWinners)
         + prizesMinted (getEpoch (game bothWinners) (currentEpoch (game bothWinners)))
         + treasuryAmount (getEpoch (game bothWinners)
                                    (currentEpoch (game bothWinners))).
Proof.
  destruct (settleEpoch 86401 bothWinners) as [w'|f] eqn:Hs;
    [|vm_compute in Hs; discriminate Hs].
  exists w'. split; [reflexivity|].
  pose proof (settlement_token_accounting 86401 bothWinners w' Hs) as Ha.
  cbv zeta in Ha. exact (proj1 Ha).
Defined.


(** X9 on a concrete run: the agent's first game mints a reward. *)
Lemma supply_grows_only_through_game_witness :
  exec 50 10 (SubmitScore 100 0 3 1000 10 signedBy7) wired = Ok playedOnce
  /\ DugToken.totalSupply (dug wired) < DugToken.totalSupply (dug playedOnce)
  /\ this wired = DugToken.gameContract (dug wired).
Proof.
  assert (exec 50 10 (SubmitScore 100 0 3 1000 10 signedBy7) wired = Ok playedOnce)
    as Hex by (vm_compute; reflexivity).
  assert (DugToken.totalSupply (dug wired) < DugToken.totalSupply (dug playedOnce))
    as Hlt by (vm_compute; reflexivity).
  split; [exact Hex|]. split; [exact Hlt|].
  exact (supply_grows_only_through_game 50 10
           (SubmitScore 100 0 3 1000 10 signedBy7) wired playedOnce Hex Hlt).
Defined.

(** X10 on a concrete run: a twenty-first game with a higher score on the full board. *)
Lemma board_after_submission_witness :
  exists w21,
    reachable fullBoard
    /\ submitScore 50 10 fullBoard 60 0 0 2000 10 signedBy7 = Ok w21
    /\ countOf (game w21) (isAgentOf fullBoard 50)
       = N.min (countOf (game fullBoard) (isAgentOf fullBoard 50) + 1) LB_SIZE.
Proof.
  destruct (submitScore 50 10 fullBoard 60 0 0 2000 10 signedBy7) as [w21|f] eqn:Hs;
    [|vm_compute in Hs; discriminate Hs].
  exists w21. split; [exact fullBoard_reachable|]. split; [reflexivity|].
  pose proof (board_after_submission 50 10 fullBoard 60 0 0 2000 10 signedBy7 w21
                fullBoard_reachable Hs) as Hb.
  cbv zeta in Hb. exact (proj1 (proj2 Hb)).
Defined.

(** X11 on a concrete run: the first epoch at time 100. *)
Lemma epoch_end_countdown_witness :
  0 < timeUntilEpochEnd 100 (game deployed)
  /\ settleEpoch 100 deployed = Err EpochNotEnded.
Proof.
  assert (0 < timeUntilEpochEnd 100 (game deployed)) as Hpos
    by (vm_compute; reflexivity).
  split; [exact Hpos|].
  pose proof (epoch_end_countdown 100 deployed) as He. cbv zeta in He.
  exact (proj2 (proj1 He) Hpos).
Defined.

(** X12 on a concrete run: the agent's profile after one game. *)
Lemma profile_statistics_witness :
  reachable playedOnce
  /\ AgentRegistry.bestScore (AgentRegistry.getProfile (registry playedOnce) 50)
     <= AgentRegistry.totalScore (AgentRegistry.getProfile (registry playedOnce) 50).
Proof.
  split; [exact playedOnce_reachable|].
  pose proof (profile_statistics playedOnce 50 playedOnce_reachable) as Hp.
  cbv zeta in Hp. exact (proj1 Hp).
Defined.

(** X13 on a concrete run: the two agents of [twoAgents]. *)
Lemma agent_ids_unique_witness :
  reachable twoAgents /\ 50 <> 0 /\ 51 <> 0
  /\ AgentRegistry.isAgent (AgentRegistry.getProfile (registry twoAgents) 50) = true
  /\ AgentRegistry.isAgent (AgentRegistry.getProfile (registry twoAgents) 51) = true
  /\ (AgentRegistry.agentId (AgentRegistry.getProfile (registry twoAgents) 50)
      = AgentRegistry.agentId (AgentRegistry.getProfile (registry twoAgents) 51)
      -> 50 = 51).
Proof.
  assert (50 <> 0) as H50 by discriminate.
  assert (51 <> 0) as H51 by discriminate.
  assert (AgentRegistry.isAgent (AgentRegistry.getProfile (registry twoAgents) 50)
          = true) as Ha by (vm_compute; reflexivity).
  assert (AgentRegistry.isAgent (AgentRegistry.getProfile (registry twoAgents) 51)
          = true) as Hb by (vm_compute; reflexivity).
  split; [exact twoAgents_reachable|]. split; [exact H50|]. split; [exact H51|].
  split; [exact Ha|]. split; [exact Hb|].
  exact (proj2 (agent_ids_unique twoAgents 50 51 twoAgents_reachable H50 H51 Ha Hb)).
Defined.

(** X14 on a concrete run: the agent's first game. *)
Lemma submission_recorded_witness :
  submitScore 50 10 wired 100 0 3 1000 10 signedBy7 = Ok playedOnce
  /\ AgentRegistry.gamesPlayed (AgentRegistry.getProfile (registry playedOnce) 50)
     = AgentRegistry.gamesPlayed (AgentRegistry.getProfile (registry wired) 50) + 1.
Proof.
  assert (submitScore 50 10 wired 100 0 3 1000 10 signedBy7 = Ok playedOnce) as Hs
    by (vm_compute; reflexivity).
  split; [exact Hs|].
  pose proof (submission_recorded 50 10 wired 100 0 3 1000 10 signedBy7 playedOnce Hs)
    as Hr.
  cbv zeta in Hr. exact (proj1 Hr).
Defined.

(** X15 on a concrete run: the agent, registered at time 3, plays and tries to register
    again as a human. *)
Lemma registered_for_good_witness :
  AgentRegistry.registeredAt (AgentRegistry.getProfile (registry wired) 50) <> 0
  /\ AgentRegistry.register 50 20
       (registry (runAll [(50, 10, SubmitScore 100 0 3 1000 10 signedBy7)] wired))
       78 "again" false
     = Err (Revert "Registry: already registered").
Proof.
  assert (AgentRegistry.registeredAt (AgentRegistry.getProfile (registry wired) 50)
          <> 0) as Hreg by (vm_compute; discriminate).
  split; [exact Hreg|].
  pose proof (registered_for_good
                [(50, 10, SubmitScore 100 0 3 1000 10 signedBy7)] wired 50 Hreg) as Hg.
  cbv zeta in Hg. exact (proj2 Hg 20 78 "again"%string false).
Defined.

(** X16 on a concrete run: the registration of the second agent. *)
Lemma agent_list_grows_by_registration_witness :
  exec 51 4 (RegistryRegister 78 "bot2" true) wired = Ok twoAgents
  /\ agentCount (registry twoAgents) = agentCount (registry wired) + 1.
Proof.
  assert (exec 51 4 (RegistryRegister 78 "bot2" true) wired = Ok twoAgents) as Hex
    by (vm_compute; reflexivity).
  split; [exact Hex|].
  exact (proj1 (proj2 (agent_list_grows_by_registration 51 4
                         (RegistryRegister 78 "bot2" true) wired twoAgents Hex))).
Defined.

(** X17 on a concrete run: the agent's first game, sent by a wallet that is not the
    owner. *)
Lemma settings_change_only_by_owner_witness :
  exec 50 10 (SubmitScore 100 0 3 1000 10 signedBy7) wired = Ok playedOnce
  /\ 50 <> owner (game wired)
  /\ settings (game playedOnce) = settings (game wired).
Proof.
  assert (exec 50 10 (SubmitScore 100 0 3 1000 10 signedBy7) wired = Ok playedOnce)
    as Hex by (vm_compute; reflexivity).
  assert (50 <> owner (game wired)) as Hne by (vm_compute; discriminate).
  split; [exact Hex|]. split; [exact Hne|].
  exact (settings_change_only_by_owner 50 10
           (SubmitScore 100 0 3 1000 10 signedBy7) wired playedOnce Hex Hne).
Defined.

(** X18 on a concrete run: the sample deployment. *)
Lemma deploy_script_wires_witness :
  1 <> 0 /\ 100 <> 0 /\ 0 + 86400 <= MAX_UINT256
  /\ exists w, deployScript 1 100 8453 0 7 9 = Ok w
               /\ DugToken.gameContract (dug w) = 100
               /\ AgentRegistry.owner (registry w) = 100.
Proof.
  assert (1 <> 0) as H1 by discriminate.
  assert (100 <> 0) as H2 by discriminate.
  assert (0 + 86400 <= MAX_UINT256) as H3 by (vm_compute; discriminate).
  split; [exact H1|]. split; [exact H2|]. split; [exact H3|].
  destruct (proj1 (deploy_script_wires 1 100 8453 0 7 9 H1 H2 H3))
    as (w & Hd & _ & _ & Hg & Ho & _).
  exists w. split; [exact Hd|]. split; [exact Hg | exact Ho].
Defined.

(** X19 on a concrete run: the agent has approved the fee of 5 * 10^18 but holds nothing. *)
Lemma unfunded_allowance_reverts_witness :
  verifySubmission 50 10 approvedOnly 100 0 3 1000 10 signedBy7 = Ok tt
  /\ 50 <> 0 /\ this approvedOnly <> 0
  /\ entryFee approvedOnly 50 <= DugToken.allowance (dug approvedOnly) 50 (this approvedOnly)
  /\ DugToken.balanceOf (dug approvedOnly) 50 < entryFee approvedOnly 50
  /\ run 50 10 (SubmitScore 100 0 3 1000 10 signedBy7) approvedOnly
     = (approvedOnly, Some ERC20InsufficientBalance).
Proof.
  assert (verifySubmission 50 10 approvedOnly 100 0 3 1000 10 signedBy7 = Ok tt) as Hv
    by (vm_compute; reflexivity).
  assert (50 <> 0) as Hs by discriminate.
  assert (this approvedOnly <> 0) as Ht by (vm_compute; discriminate).
  assert (entryFee approvedOnly 50
          <= DugToken.allowance (dug approvedOnly) 50 (this approvedOnly)) as Hcov
    by (vm_compute; discriminate).
  assert (DugToken.balanceOf (dug approvedOnly) 50 < entryFee approvedOnly 50) as Hlow
    by (vm_compute; reflexivity).
  split; [exact Hv|]. split; [exact Hs|]. split; [exact Ht|]. split; [exact Hcov|].
  split; [exact Hlow|].
  exact (unfunded_allowance_reverts 50 10 approvedOnly 100 0 3 1000 10 signedBy7
           Hv Hs Ht Hcov Hlow).
Defined.

(** X21 on a concrete run: a new session, one step down: the sky above the player stays
    dug. *)
Lemma dug_tiles_stay_dug_witness :
  exists s',
    AgentApi.sessionOk (AgentApi.constructor 1000 0 0 50 "bot" true)
    /\ AgentApi.ticks [(1%Z, Some AgentApi.move_down)]
         (AgentApi.constructor 1000 0 0 50 "bot" true) = Some s'
    /\ (AgentApi.cell (AgentApi.constructor 1000 0 0 50 "bot" true) 0 1 = Some 0%Z ->
        AgentApi.cell s' 0 1 = Some 0%Z).
Proof.
  destruct (AgentApi.ticks [(1%Z, Some AgentApi.move_down)]
              (AgentApi.constructor 1000 0 0 50 "bot" true)) as [s'|] eqn:Ht;
    [|vm_compute in Ht; discriminate Ht].
  exists s'. split; [apply constructor_ok|]. split; [reflexivity|].
  exact (proj1 (dug_tiles_stay_dug [(1%Z, Some AgentApi.move_down)]
                  (AgentApi.constructor 1000 0 0 50 "bot" true) s'
                  (constructor_ok 1000 0 0 50 "bot"%string true) Ht) 0%nat 1%nat).
Defined.

(** X22 on a concrete run: the sample session, signed at second 20 by the sample wallet, is
    accepted by the game of [wired] at time 25. *)
Lemma signed_payload_accepted_witness :
  exists payload sessions',
    (forall h, recover (toEthSignedMessageHash h)
                       (@AgentApi.signMessage sampleWallet h)
               = Ok (@AgentApi.walletAddress sampleWallet))
    /\ @AgentApi.submitScoreRoute sampleScheme sampleWallet true [] 20000
         sampleSessions 1000 = (AgentApi.Signed payload, sessions')
    /\ exists session,
         sampleSessions !! 1000 = Some session
         /\ verifySubmission (AgentApi.agentAddress session) 25 wired
              (AgentApi.signed_score payload) (AgentApi.signed_round payload)
              (AgentApi.signed_kills payload) (AgentApi.signed_sessionId payload)
              (AgentApi.signedAt payload) (AgentApi.signature payload) = Ok tt.
Proof.
  assert (forall h, recover (toEthSignedMessageHash h)
                            (@AgentApi.signMessage sampleWallet h)
                    = Ok (@AgentApi.walletAddress sampleWallet)) as Hsig
    by (intros h; reflexivity).
  destruct (@AgentApi.submitScoreRoute sampleScheme sampleWallet true [] 20000
              sampleSessions 1000) as [resp sessions'] eqn:Hr.
  destruct resp as [| |payload|payload];
    try (vm_compute in Hr; discriminate Hr).
  exists payload, sessions'. split; [exact Hsig|]. split; [reflexivity|].
  destruct (signed_payload_accepted true [] 20000 sampleSessions 1000 payload sessions'
              Hsig Hr) as (session & session' & Hl & _ & _ & _ & Hp & Hacc).
  exists session. split; [exact Hl|].
  assert (payload = AgentApi.mkSigned 1000 100 1 3 20 signedBy7 false) as Ep
    by (vm_compute in Hr; injection Hr as <- _; reflexivity).
  rewrite Ep. rewrite Ep in Hacc. apply Hacc.
  - vm_compute. reflexivity.
  - vm_compute. reflexivity.
  - vm_compute. reflexivity.
  - vm_compute. discriminate.
  - vm_compute. discriminate.
Defined.

(** X23 on a concrete run: the agent board of [playedOnce] holds one entry, of the agent at
    address 50: the agents route answers with status 500. *)
Lemma leaderboard_routes_answers_witness :
  reachable playedOnce
  /\ (exists i, (i < N.to_nat (countOf (game playedOnce) true))%nat
                /\ player (lbAt (boardOf (game playedOnce) true) i) <> 0)
  /\ AgentApi.leaderboardAgentsRoute true playedOnce = AgentApi.ServerError.
Proof.
  assert (exists i, (i < N.to_nat (countOf (game playedOnce) true))%nat
                    /\ player (lbAt (boardOf (game playedOnce) true) i) <> 0) as Hex.
  { exists 0%nat. split; [vm_compute; lia | vm_compute; discriminate]. }
  split; [exact playedOnce_reachable|]. split; [exact Hex|].
  pose proof (leaderboard_routes_answers playedOnce true playedOnce_reachable) as Hl.
  cbv zeta in Hl. destruct Hl as (_ & _ & _ & _ & _ & Herr & _).
  exact (Herr Hex).
Defined.

(** X24 on a concrete run: the deployer wires the token. *)
Lemma game_contract_set_only_by_token_owner_witness :
  exists w',
    exec 1 1 (TokenSetGameContract 100) deployed = Ok w'
    /\ DugToken.gameContract (dug w') <> DugToken.gameContract (dug deployed)
    /\ 1 = DugToken.owner (dug deployed).
Proof.
  destruct (exec 1 1 (TokenSetGameContract 100) deployed) as [w'|f] eqn:Hex;
    [|vm_compute in Hex; discriminate Hex].
  assert (DugToken.gameContract (dug w') <> DugToken.gameContract (dug deployed))
    as Hne by (vm_compute in Hex; injection Hex as <-; vm_compute; discriminate).
  exists w'. split; [reflexivity|]. split; [exact Hne|].
  exact (proj1 (game_contract_set_only_by_token_owner 1 1 (TokenSetGameContract 100)
                  deployed w' Hex Hne)).
Defined.

(** X25 on a concrete run: in [wired] the game owns the registry; after a game and an
    attempt of the deployer to record a score directly, it still does. *)
Lemma registry_ownership_locked_witness :
  AgentRegistry.owner (registry wired) = this wired
  /\ Forall (fun tx : N * N * Call => tx.1.1 <> this wired)
       [(50, 10, SubmitScore 100 0 3 1000 10 signedBy7);
        (1, 11, RegistryRecordGame 50 999)]
  /\ AgentRegistry.owner
       (registry (runAll [(50, 10, SubmitScore 100 0 3 1000 10 signedBy7);
                          (1, 11, RegistryRecordGame 50 999)] wired))
     = this wired.
Proof.
  assert (AgentRegistry.owner (registry wired) = this wired) as Ho
    by (vm_compute; reflexivity).
  assert (Forall (fun tx : N * N * Call => tx.1.1 <> this wired)
            [(50, 10, SubmitScore 100 0 3 1000 10 signedBy7);
             (1, 11, RegistryRecordGame 50 999)]) as Hall.
  { constructor; [vm_compute; discriminate|].
    constructor; [vm_compute; discriminate|]. constructor. }
  split; [exact Ho|]. split; [exact Hall|].
  pose proof (registry_ownership_locked
                [(50, 10, SubmitScore 100 0 3 1000 10 signedBy7);
                 (1, 11, RegistryRecordGame 50 999)] wired Ho Hall) as Hl.
  cbv zeta in Hl. exact (proj1 (proj2 Hl)).
Defined.

Lemma settledPaid_reachable : reachable settledPaid.
Proof. apply runAll_reachable, bothWinners_reachable. Qed.

(** X26 on a concrete run: after the paid epoch is settled the counter holds its treasury
    share of 1 unit. *)
Lemma treasury_balance_is_settled_shares_witness :
  reachable settledPaid
  /\ treasuryBalance (game settledPaid) = settledTreasury (game settledPaid).
Proof.
  split; [exact settledPaid_reachable|].
  exact (treasury_balance_is_settled_shares settledPaid settledPaid_reachable).
Defined.

(** X27 on a concrete run: two addresses in the first window under a limit of 1: the second
    request of the first address is the third request in all. *)
Lemma rate_limit_per_window_witness :
  0 < 60000
  /\ Forall (fun rq : string * N => rq.2 / 60000 = 0)
       [("10.0.0.1"%string, 1); ("10.0.0.2"%string, 2); ("10.0.0.1"%string, 3)]
  /\ (AgentApi.rateLimitAll 1 60000
        [("10.0.0.1"%string, 1); ("10.0.0.2"%string, 2); ("10.0.0.1"%string, 3)] []).1
       !! 2%nat
     = Some (default 0 (AgentApi.mapGet
                          (AgentApi.rateKey "10.0.0.1" (AgentApi.numberToString 0)) [])
             + AgentApi.requestsFrom "10.0.0.1"
                 (take 3 [("10.0.0.1"%string, 1); ("10.0.0.2"%string, 2);
                          ("10.0.0.1"%string, 3)])
             <=? 1).
Proof.
  assert (0 < 60000) as Hw by reflexivity.
  assert (Forall (fun rq : string * N => rq.2 / 60000 = 0)
            [("10.0.0.1"%string, 1); ("10.0.0.2"%string, 2); ("10.0.0.1"%string, 3)])
    as Hall.
  { constructor; [vm_compute; reflexivity|].
    constructor; [vm_compute; reflexivity|].
    constructor; [vm_compute; reflexivity|]. constructor. }
  split; [exact Hw|]. split; [exact Hall|].
  exact (rate_limit_per_window 1 60000 0
           [("10.0.0.1"%string, 1); ("10.0.0.2"%string, 2); ("10.0.0.1"%string, 3)]
           [] 2%nat "10.0.0.1"%string 3 Hw Hall eq_refl).
Defined.

(** X28 on a concrete run: [bothWinners] can be settled at time 86401. *)
Lemma settlement_succeeds_iff_witness :
  settleable 86401 bothWinners
  /\ exists w', settleEpoch 86401 bothWinners = Ok w'.
Proof.
  assert (settleable 86401 bothWinners) as Hok.
  { unfold settleable. cbv zeta.
    split; [vm_compute; discriminate|]. split; [vm_compute; reflexivity|].
    split.
    { intros _. split; [vm_compute; reflexivity | vm_compute; discriminate]. }
    split.
    { intros _. split; [vm_compute; reflexivity|].
      split; vm_compute; discriminate. }
    split.
    { intros _. split; [vm_compute; reflexivity|].
      split; [vm_compute; discriminate|]. split; vm_compute; discriminate. }
    split; vm_compute; discriminate. }
  split; [exact Hok|].
  exact (proj2 (proj1 (settlement_succeeds_iff 86401 bothWinners)) Hok).
Defined.

(** X29 on a concrete run: the first settlement of the sample deployment. *)
Lemma settlement_leaves_boards_witness :
  settleEpoch 86400 deployed = Ok settledOnce
  /\ agentLeaderboard (game settledOnce) = agentLeaderboard (game deployed).
Proof.
  assert (settleEpoch 86400 deployed = Ok settledOnce) as Hs
    by (vm_compute; reflexivity).
  split; [exact Hs|].
  exact (proj1 (proj2 (settlement_leaves_boards 86400 deployed settledOnce Hs))).
Defined.
